(** * PDF_SPLITTER: name extraction and filename formatting

    A shallow embedding of [PDF_MAIN_APP.py]: the text-to-name resolver
    ([extract_name_from_text]), the filename formatter
    ([format_name_for_filename]), the two loops of
    [split_pdf_with_names] (one output file per page, then the optional
    grouping into per-person folders), the function as a whole on the
    texts of [extract_text_from_page], and the entries of the archive
    of [create_download_zip].

    Strings.  A Python [str] is modelled as a list of characters
    ([list ascii]); a character is a code point below 256, and the Unicode
    tables Python consults ([str.isspace], [str.isalnum], [str.lower], the
    [\s], [\w], [\d] classes of [re]) are written out on that range.

    Regular expressions.  The patterns of the source are kept as syntax
    trees and run by a backtracking matcher in continuation-passing style
    which explores alternatives in the order of Python's [re] module
    (greedy before lazy, left alternative first, leftmost start first). *)

From Stdlib Require Import Ascii String ZArith Lia Bool.
From stdpp Require Import base list gmap strings.

Open Scope nat_scope.

(** ** Characters *)

Abbreviation pystr := (list ascii).

Definition str (s : string) : pystr := list_ascii_of_string s.

Definition code (c : ascii) : N := N_of_ascii c.

Definition chr_in (lo hi c : ascii) : bool :=
  (code lo <=? code c)%N && (code c <=? code hi)%N.

Definition chr_eqb (a b : ascii) : bool := Ascii.eqb a b.

(** [str.isspace] on one character; also the class [\s]. *)
Definition isspace (c : ascii) : bool :=
  existsb (N.eqb (code c)) [9; 10; 11; 12; 13; 28; 29; 30; 31; 32; 133; 160]%N.

(** Upper-case letters, the ones [str.lower] moves. *)
Definition isupper (c : ascii) : bool :=
  chr_in "A" "Z" c
  || ((192 <=? code c)%N && (code c <=? 214)%N)
  || ((216 <=? code c)%N && (code c <=? 222)%N).

Definition lower_chr (c : ascii) : ascii :=
  if isupper c then ascii_of_N (code c + 32) else c.

(** [\d]: the decimal digits. *)
Definition isdecimal (c : ascii) : bool := chr_in "0" "9" c.

(** [\w]: [str.isalnum] or the underscore. *)
Definition isword (c : ascii) : bool :=
  chr_in "a" "z" c || chr_in "A" "Z" c || chr_in "0" "9" c || chr_eqb c "_"
  || existsb (N.eqb (code c)) [170; 178; 179; 181; 185; 186; 188; 189; 190]%N
  || ((192 <=? code c)%N && (code c <=? 214)%N)
  || ((216 <=? code c)%N && (code c <=? 246)%N)
  || (248 <=? code c)%N.

(** ** String methods *)

Module Py.

Definition eqb (a b : pystr) : bool := bool_decide (a = b).

Fixpoint startswith (s p : pystr) : bool :=
  match p, s with
  | [], _ => true
  | a :: p', b :: s' => chr_eqb a b && startswith s' p'
  | _ :: _, [] => false
  end.

Definition endswith (s p : pystr) : bool := startswith (rev s) (rev p).

(** [sub in s] *)
Fixpoint contains (sub s : pystr) : bool :=
  startswith s sub ||
  match s with
  | [] => false
  | _ :: s' => contains sub s'
  end.

(** [s.replace(old, new)] for a non-empty [old]: occurrences are taken
    from the left and do not overlap.  [skip] counts the characters of
    the occurrence just replaced that are still to be passed over. *)
Fixpoint replace_from (old new s : pystr) (skip : nat) : pystr :=
  match s with
  | [] => []
  | c :: s' =>
      match skip with
      | S k => replace_from old new s' k
      | O =>
          if startswith s old
          then new ++ replace_from old new s' (length old - 1)
          else c :: replace_from old new s' 0
      end
  end.

Definition replace (s old new : pystr) : pystr := replace_from old new s 0.

Fixpoint lstrip (s : pystr) : pystr :=
  match s with
  | c :: s' => if isspace c then lstrip s' else s
  | [] => []
  end.

Definition rstrip (s : pystr) : pystr := rev (lstrip (rev s)).

Definition strip (s : pystr) : pystr := rstrip (lstrip s).

Definition lower (s : pystr) : pystr := map lower_chr s.

(** [s.split(sep)] for a one-character separator: every separator cuts,
    empty pieces are kept, the result is never empty. *)
Fixpoint split_on (sep : ascii) (s : pystr) : list pystr :=
  match s with
  | [] => [[]]
  | c :: s' =>
      if chr_eqb c sep then [] :: split_on sep s'
      else match split_on sep s' with
           | w :: ws => (c :: w) :: ws
           | [] => [[c]]
           end
  end.

(** [s.split()]: maximal runs of non-whitespace characters.  [cur] is
    the run being read, in reverse. *)
Fixpoint split_from (s cur : pystr) : list pystr :=
  match s with
  | [] => match cur with [] => [] | _ => [rev cur] end
  | c :: s' =>
      if isspace c
      then match cur with
           | [] => split_from s' []
           | _ => rev cur :: split_from s' []
           end
      else split_from s' (c :: cur)
  end.

Definition split (s : pystr) : list pystr := split_from s [].

(** [sep.join(l)] *)
Fixpoint join (sep : pystr) (l : list pystr) : pystr :=
  match l with
  | [] => []
  | [w] => w
  | w :: ws => w ++ sep ++ join sep ws
  end.

(** [l[i]] with Python's negative indices.  Every use in the program
    sits under a [len] test that keeps the index in range; out of range
    the empty string stands for the [IndexError]. *)
Definition getitem (l : list pystr) (i : Z) : pystr :=
  let j := if (i <? 0)%Z then (Z.of_nat (length l) + i)%Z else i in
  if (j <? 0)%Z then [] else nth (Z.to_nat j) l [].

(** [any(x in s for x in l)] *)
Definition any_in (l : list pystr) (s : pystr) : bool :=
  existsb (fun x => contains x s) l.

(** [s in l] for a list of strings *)
Definition mem (s : pystr) (l : list pystr) : bool := existsb (eqb s) l.

(** [s[a:b]] for [0 <= a] *)
Definition slice (s : pystr) (a b : nat) : pystr := take (b - a) (drop a s).

Definition digit (n : nat) : ascii := ascii_of_nat (48 + n).

(** [str(n)] for a natural number; [fuel] bounds the number of digits. *)
Fixpoint digits (fuel n : nat) (acc : pystr) : pystr :=
  match fuel with
  | O => acc
  | S f =>
      let acc' := digit (n mod 10) :: acc in
      if n / 10 =? 0 then acc' else digits f (n / 10) acc'
  end.

Definition str_of_nat (n : nat) : pystr := digits (S n) n [].

(** [s.zfill(w)] for a string without sign *)
Definition zfill (w : nat) (s : pystr) : pystr :=
  replicate (w - length s) "0"%char ++ s.

End Py.

(** ** Regular expressions *)

Module Re.

Inductive regex : Type :=
| Eps
| Chr (p : ascii -> bool)
| Seq (r1 r2 : regex)
| Alt (r1 r2 : regex)
| Rep (greedy : bool) (lo : nat) (hi : option nat) (r : regex)
| Group (n : nat) (r : regex)
| Look (r : regex)
| WordB
| Eos.

(** The matcher's position: the index in the text, the character just
    before it (for [\b]), the text still to read, and the groups closed
    so far, most recent first. *)
Record mstate : Type := MState {
  pos : nat;
  prev : option ascii;
  rest : pystr;
  caps : list (nat * (nat * nat))
}.

Definition isword_opt (o : option ascii) : bool :=
  match o with Some c => isword c | None => false end.

Definition below (hi : option nat) (cnt : nat) : bool :=
  match hi with Some h => cnt <? h | None => true end.

Definition orelse {A} (a : option A) (b : unit -> option A) : option A :=
  match a with Some x => Some x | None => b tt end.

(** The rounds of a repetition whose body is run by [body]: [cnt]
    rounds are done, [fuel] bounds those still possible.  A greedy
    repetition tries another round before it stops, a lazy one stops
    before it tries another round.  A round counts only when it
    consumed something, which every repeated body of the program's
    patterns does. *)
Fixpoint rep_loop (body : mstate -> (mstate -> option mstate) -> option mstate)
  (greedy : bool) (lo : nat) (hi : option nat) (k : mstate -> option mstate)
  (fuel cnt : nat) (st : mstate) {struct fuel} : option mstate :=
  match fuel with
  | O => None
  | S fuel' =>
      let more (_ : unit) :=
        if below hi cnt
        then body st (fun st' =>
               if length (rest st') <? length (rest st)
               then rep_loop body greedy lo hi k fuel' (S cnt) st' else None)
        else None in
      let stop (_ : unit) := if lo <=? cnt then k st else None in
      if greedy then orelse (more tt) stop else orelse (stop tt) more
  end.

(** [run r st k]: match [r] at [st], then continue with [k]; the first
    alternative on which [k] succeeds wins. *)
Fixpoint run (r : regex) (st : mstate) (k : mstate -> option mstate)
  {struct r} : option mstate :=
  match r with
  | Eps => k st
  | Chr p =>
      match rest st with
      | c :: s => if p c then k (MState (S (pos st)) (Some c) s (caps st)) else None
      | [] => None
      end
  | Seq r1 r2 => run r1 st (fun st1 => run r2 st1 k)
  | Alt r1 r2 => orelse (run r1 st k) (fun _ => run r2 st k)
  | Rep greedy lo hi r1 =>
      rep_loop (run r1) greedy lo hi k (S (length (rest st))) 0 st
  | Group n r1 =>
      run r1 st (fun st' =>
        k (MState (pos st') (prev st') (rest st') ((n, (pos st, pos st')) :: caps st')))
  | Look r1 =>
      match run r1 st Some with
      | Some st' => k (MState (pos st) (prev st) (rest st) (caps st'))
      | None => None
      end
  | WordB =>
      if xorb (isword_opt (prev st)) (isword_opt (head (rest st)))
      then k st else None
  | Eos =>
      match rest st with
      | [] => k st
      | [c] => if chr_eqb c "010" then k st else None
      | _ => None
      end
  end.

(** Pattern syntax. *)
Fixpoint lit (s : pystr) : regex :=
  match s with
  | [] => Eps
  | [c] => Chr (chr_eqb c)
  | c :: s' => Seq (Chr (chr_eqb c)) (lit s')
  end.

(** A literal under [re.IGNORECASE]. *)
Fixpoint lit_ci (s : pystr) : regex :=
  match s with
  | [] => Eps
  | [c] => Chr (fun x => chr_eqb (lower_chr x) (lower_chr c))
  | c :: s' => Seq (Chr (fun x => chr_eqb (lower_chr x) (lower_chr c))) (lit_ci s')
  end.

Definition plus (r : regex) : regex := Rep true 1 None r.
Definition opt (r : regex) : regex := Rep true 0 (Some 1) r.
Definition lazy_star (r : regex) : regex := Rep false 0 None r.
Definition one_of (l : list ascii) : ascii -> bool :=
  fun c => existsb (chr_eqb c) l.

Fixpoint seq (l : list regex) : regex :=
  match l with
  | [] => Eps
  | [r] => r
  | r :: l' => Seq r (seq l')
  end.

(** A match object: where the match starts and ends, and its groups. *)
Record rmatch : Type := RMatch {
  m_start : nat;
  m_end : nat;
  m_caps : list (nat * (nat * nat))
}.

Definition match_at (r : regex) (p : nat) (pv : option ascii) (s : pystr)
  : option rmatch :=
  match run r (MState p pv s []) Some with
  | Some st => Some (RMatch p (pos st) (caps st))
  | None => None
  end.

(** [re.match(r, text)] *)
Definition rematch (r : regex) (text : pystr) : option rmatch :=
  match_at r 0 None text.

Fixpoint search_from (r : regex) (p : nat) (pv : option ascii) (s : pystr)
  : option rmatch :=
  match match_at r p pv s with
  | Some m => Some m
  | None =>
      match s with
      | [] => None
      | c :: s' => search_from r (S p) (Some c) s'
      end
  end.

(** [re.search(r, text)] *)
Definition search (r : regex) (text : pystr) : option rmatch :=
  search_from r 0 None text.

Fixpoint lookup_cap (n : nat) (cs : list (nat * (nat * nat))) : option (nat * nat) :=
  match cs with
  | [] => None
  | (i, se) :: cs' => if n =? i then Some se else lookup_cap n cs'
  end.

(** [m.group(n)]: group 0 is the whole match.  The groups the program
    reads take part in every match of their pattern; the empty string
    stands for the [None] of a group that did not. *)
Definition group (text : pystr) (m : rmatch) (n : nat) : pystr :=
  match n with
  | O => Py.slice text (m_start m) (m_end m)
  | _ => match lookup_cap n (m_caps m) with
         | Some (a, b) => Py.slice text a b
         | None => []
         end
  end.

(** [re.finditer(r, text)]: the matches from left to right, each search
    resuming where the previous match ended.  [skip] counts the
    characters of the last match still to be passed over.  An empty
    match (none of the program's patterns has one) is not reported. *)
Fixpoint finditer_from (r : regex) (p : nat) (pv : option ascii) (s : pystr)
  (skip : nat) : list rmatch :=
  match s with
  | [] => []
  | c :: s' =>
      match skip with
      | S k => finditer_from r (S p) (Some c) s' k
      | O =>
          match match_at r p pv s with
          | Some m =>
              if p <? m_end m
              then m :: finditer_from r (S p) (Some c) s' (m_end m - p - 1)
              else finditer_from r (S p) (Some c) s' 0
          | None => finditer_from r (S p) (Some c) s' 0
          end
      end
  end.

Definition finditer (r : regex) (text : pystr) : list rmatch :=
  finditer_from r 0 None text 0.

(** [re.sub(r, repl, text)] for a pattern without empty match and a
    replacement without group reference. *)
Fixpoint sub_from (r : regex) (repl : pystr) (p : nat) (pv : option ascii)
  (s : pystr) (skip : nat) : pystr :=
  match s with
  | [] => []
  | c :: s' =>
      match skip with
      | S k => sub_from r repl (S p) (Some c) s' k
      | O =>
          match match_at r p pv s with
          | Some m =>
              if p <? m_end m
              then repl ++ sub_from r repl (S p) (Some c) s' (m_end m - p - 1)
              else c :: sub_from r repl (S p) (Some c) s' 0
          | None => c :: sub_from r repl (S p) (Some c) s' 0
          end
      end
  end.

Definition sub (r : regex) (repl text : pystr) : pystr :=
  sub_from r repl 0 None text 0.

End Re.

(** ** The patterns of the program *)

Definition CoC : pystr := str "CERTIFICATE OF COMPLETION".
Definition TC : pystr := str "This certificate".

Definition ws_run : Re.regex := Re.plus (Re.Chr isspace).

Definition upper : Re.regex := Re.Chr (chr_in "A" "Z").
Definition lowers : Re.regex := Re.plus (Re.Chr (chr_in "a" "z")).

(** [[A-Za-z\s\.\-]] *)
Definition name_chr (c : ascii) : bool :=
  chr_in "A" "Z" c || chr_in "a" "z" c || isspace c
  || chr_eqb c "." || chr_eqb c "-".

(** [\s+This certificate], the body of the lookahead *)
Definition lookahead_this : Re.regex := Re.Seq ws_run (Re.lit TC).

(** [CERTIFICATE OF COMPLETION\s+([A-Za-z\s\.\-]+)(?=\s+This certificate)] *)
Definition pat_anchor : Re.regex :=
  Re.seq [Re.lit CoC; ws_run;
          Re.Group 1 (Re.plus (Re.Chr name_chr));
          Re.Look lookahead_this].

(** [([A-Z][a-z]+)\s+(Sta\.|Sto\.)\s+([A-Z][a-z]+)] *)
Definition pat_sta : Re.regex :=
  Re.seq [Re.Group 1 (Re.Seq upper lowers); ws_run;
          Re.Group 2 (Re.Alt (Re.lit (str "Sta.")) (Re.lit (str "Sto.")));
          ws_run;
          Re.Group 3 (Re.Seq upper lowers)].

(** [([A-Z][a-z]+|[A-Z]{2,})\s+((?:[A-Za-z]\.?\s+)?(?:[a-z]{1,3}\s+)?[A-Z][a-z]+(?:\s+[A-Z][a-z]+)?)] *)
Definition pat_name : Re.regex :=
  Re.seq [Re.Group 1 (Re.Alt (Re.Seq upper lowers) (Re.Rep true 2 None upper));
          ws_run;
          Re.Group 2 (Re.seq
            [Re.opt (Re.seq [Re.Chr (fun c => chr_in "A" "Z" c || chr_in "a" "z" c);
                             Re.opt (Re.Chr (chr_eqb "."));
                             ws_run]);
             Re.opt (Re.seq [Re.Rep true 1 (Some 3) (Re.Chr (chr_in "a" "z")); ws_run]);
             upper; lowers;
             Re.opt (Re.seq [ws_run; upper; lowers])])].

(** [presented to\s+(.*?)\s+for successfully] with [re.DOTALL] *)
Definition pat_presented : Re.regex :=
  Re.seq [Re.lit (str "presented to"); ws_run;
          Re.Group 1 (Re.lazy_star (Re.Chr (fun _ => true)));
          ws_run; Re.lit (str "for successfully")].

(** [COMPLETION] and [CERTIFICATE] with [re.IGNORECASE] *)
Definition pat_completion : Re.regex := Re.lit_ci (str "COMPLETION").
Definition pat_certificate : Re.regex := Re.lit_ci (str "CERTIFICATE").

(** [\bThis\b] *)
Definition pat_this : Re.regex := Re.seq [Re.WordB; Re.lit (str "This"); Re.WordB].

(** The characters the formatter deletes: newline, carriage return, tab,
    backslash, slash, colon, star, question mark, double quote, the two
    angle brackets and the bar. *)
Definition problematic : list ascii :=
  ["010"; "013"; "009"; "\"; "/"; ":"; "*"; "?"; "034"; "<"; ">"; "|"]%char.

Definition pat_problematic : Re.regex := Re.Chr (Re.one_of problematic).

(** [\d+\s+(.*?)\.pdf$] *)
Definition pat_numbered : Re.regex :=
  Re.seq [Re.plus (Re.Chr isdecimal); ws_run;
          Re.Group 1 (Re.lazy_star (Re.Chr (fun c => negb (chr_eqb c "010"))));
          Re.lit (str ".pdf"); Re.Eos].

(** ** [extract_name_from_text] *)

(** The truth value of a [name] that is [None] or a string. *)
Definition truthy (name : option pystr) : bool :=
  match name with
  | Some (_ :: _) => true
  | _ => false
  end.

Definition titles : list pystr := [str "Chief Operating"; str "Operations Manager"].

(** The four statements that every cleanup runs: the two case-blind
    deletions, the deletion of the word [This], the whitespace collapse. *)
Definition strip_boilerplate (name : pystr) : pystr :=
  let name := Re.sub pat_completion [] name in
  let name := Re.sub pat_certificate [] name in
  let name := Re.sub pat_this [] name in
  Py.strip (Re.sub ws_run (str " ") name).

(** Method 1: the name after "CERTIFICATE OF COMPLETION".  The test on the
    titles is evaluated and both of its outcomes leave [name] as it is. *)
Definition method1 (text : pystr) (name : option pystr) : option pystr :=
  match Re.search pat_anchor text with
  | Some m =>
      let name := Py.strip (Re.group text m 1) in
      let name := Py.strip (Re.sub ws_run (str " ") name) in
      let name := if negb (Py.any_in titles name) then name else name in
      Some name
  | None => name
  end.

(** Method 2, first loop: the indices of the two marker lines.  The loop
    stops at the first line holding "This certificate". *)
Fixpoint find_markers (lines : list pystr) (i certificate_index : Z) : Z * Z :=
  match lines with
  | [] => (certificate_index, (-1)%Z)
  | line :: lines' =>
      let certificate_index :=
        if Py.contains CoC line
        then i else certificate_index in
      if Py.contains TC line
      then (certificate_index, i)
      else find_markers lines' (i + 1)%Z certificate_index
  end.

Definition acceptable_line (candidate : pystr) : bool :=
  negb (Py.eqb candidate [])
  && negb (Py.startswith candidate (str "Chief"))
  && negb (Py.endswith candidate (str "Officer"))
  && negb (Py.contains (str "Manager") candidate).

(** Method 2, second loop, over [range(certificate_index + 1,
    this_certificate_index)]. *)
Fixpoint scan_lines (lines : list pystr) (idxs : list Z) (name : option pystr)
  : option pystr :=
  match idxs with
  | [] => name
  | i :: idxs' =>
      let candidate := Py.strip (Py.getitem lines i) in
      if acceptable_line candidate then Some candidate
      else scan_lines lines idxs' name
  end.

Definition method2 (text : pystr) (name : option pystr) : option pystr :=
  let lines := Py.split_on "010" text in
  let '(certificate_index, this_certificate_index) := find_markers lines 0 (-1) in
  if negb (certificate_index =? -1)%Z && negb (this_certificate_index =? -1)%Z
     && (certificate_index <? this_certificate_index)%Z
  then scan_lines lines
         (seqZ (certificate_index + 1)
               (this_certificate_index - (certificate_index + 1))) name
  else name.

(** Method 3, inner loop over the matches of one pattern. *)
Fixpoint scan_matches (text : pystr) (ms : list Re.rmatch) (name : option pystr)
  : option pystr :=
  match ms with
  | [] => name
  | m :: ms' =>
      let candidate := Py.strip (Re.group text m 0) in
      let context :=
        Py.slice text (Nat.max 0 (Re.m_start m - 20))
                      (Nat.min (length text) (Re.m_end m + 20)) in
      if Py.any_in titles candidate then scan_matches text ms' name
      else if negb (Py.contains (str "Officer") context)
              && negb (Py.contains (str "Manager") context)
      then Some candidate
      else scan_matches text ms' name
  end.

(** Method 3, outer loop over the patterns. *)
Fixpoint try_patterns (text : pystr) (patterns : list Re.regex)
  (name : option pystr) : option pystr :=
  match patterns with
  | [] => name
  | pattern :: patterns' =>
      let name := scan_matches text (Re.finditer pattern text) name in
      if truthy name then name else try_patterns text patterns' name
  end.

Definition method3 (text : pystr) (name : option pystr) : option pystr :=
  try_patterns text [pat_sta; pat_name] name.

Definition method4 (text : pystr) (name : option pystr) : option pystr :=
  match Re.search pat_presented text with
  | Some m => Some (Py.strip (Re.group text m 1))
  | None => name
  end.

Definition extract_name_from_text (text : pystr) : option pystr :=
  let text := Py.replace text ["000"%char] [] in
  match text with
  | [] => None
  | _ =>
      let name := method1 text None in
      let name := if truthy name then name else method2 text name in
      let name := if truthy name then name else method3 text name in
      let name := if truthy name then name else method4 text name in
      match name with
      | Some (c :: n) => Some (strip_boilerplate (c :: n))
      | _ => name
      end
  end.

(** ** [format_name_for_filename] *)

Definition name_prefixes : list pystr :=
  map str ["de"; "del"; "dela"; "della"; "des"; "di"; "du"; "el"; "la"; "le";
           "van"; "von"; "der"; "den"; "das"; "dos"; "da"; "do"; "san"; "st";
           "sta."; "sto."; "sta"; "sto"]%string.

(** The cleaned name of the formatter. *)
Definition clean_name (name : pystr) : pystr :=
  strip_boilerplate (Re.sub pat_problematic [] name).

(** The formatter from [name_parts] on, for two parts or more. *)
Definition format_parts (name_parts : list pystr) : pystr :=
  let n := length name_parts in
  let first_name := Py.getitem name_parts 0 in
  if (3 <=? n)
     && Py.mem (Py.lower (Py.getitem name_parts 1))
               (map str ["sta."; "sto."; "sta"; "sto"]%string)
  then
    let prefix := Py.getitem name_parts 1 in
    let last_part := Py.join (str " ") (drop 2 name_parts) in
    let last_name := prefix ++ str " " ++ last_part in
    last_name ++ str ", " ++ first_name
  else
    let last_name :=
      if 3 <=? n then
        if Py.mem (Py.replace (Py.lower (Py.getitem name_parts (-2))) (str ".") [])
                  (map str ["sta"; "sto"]%string)
        then Py.getitem name_parts (-2) ++ str " " ++ Py.getitem name_parts (-1)
        else if Py.mem (Py.lower (Py.getitem name_parts (-2))) name_prefixes
        then Py.getitem name_parts (-2) ++ str " " ++ Py.getitem name_parts (-1)
        else if (4 <=? n)
                && Py.mem (Py.lower (Py.getitem name_parts (-3))) name_prefixes
                && Py.mem (Py.lower (Py.getitem name_parts (-2))) name_prefixes
        then Py.getitem name_parts (-3) ++ str " " ++ Py.getitem name_parts (-2)
             ++ str " " ++ Py.getitem name_parts (-1)
        else Py.getitem name_parts (-1)
      else Py.getitem name_parts (-1) in
    last_name ++ str ", " ++ first_name.

Definition format_name_for_filename (name : option pystr) : pystr :=
  match name with
  | None | Some [] => str "unknown"
  | Some name =>
      let clean_name := clean_name name in
      let name_parts := Py.split clean_name in
      if length name_parts <? 2 then clean_name
      else format_parts name_parts
  end.

(** ** [split_pdf_with_names] *)

(** [os.path.join(a, b)] with the separator [/]. *)
Definition path_join (a b : pystr) : pystr :=
  if Py.startswith b (str "/") then b
  else if Py.eqb a [] || Py.endswith a (str "/") then a ++ b
  else a ++ str "/" ++ b.

(** The [name] of a page after the extra deletion of "This". *)
Definition page_name (text : pystr) : option pystr :=
  let name := extract_name_from_text text in
  match name with
  | Some (c :: n) =>
      if Py.contains (str "This") (c :: n)
      then Some (Py.strip (Py.replace (c :: n) (str "This") []))
      else name
  | _ => name
  end.

(** The part of the file name between the page number and [.pdf]. *)
Definition page_stem (text : pystr) : pystr :=
  let name := page_name text in
  if truthy name then format_name_for_filename name else str "unknown".

Definition page_num (i : nat) : pystr := Py.zfill 3 (Py.str_of_nat (i + 1)).

Definition output_filename (i : nat) (text : pystr) : pystr :=
  page_num i ++ str " " ++ page_stem text ++ str ".pdf".

(** The state of the page loop: the paths returned, and the files the
    loop has written so far, each with the page it holds. *)
Record pages_state : Type := PagesState {
  output_files : list pystr;
  pages_written : gmap pystr nat
}.

(** One turn of the loop, from the file name on.  [raises i output_path]
    says that a call of turn [i] raises ([add_page], [open] on a name the
    file system refuses, [write]): the exception leaves the loop for the
    handler of the function, and the turn gives [None]. *)
Definition write_page (raises : nat -> pystr -> bool) (pages_dir : pystr)
  (i : nat) (text : pystr) (st : pages_state) : option pages_state :=
  let output_path := path_join pages_dir (output_filename i text) in
  if raises i output_path then None
  else Some (PagesState (output_files st ++ [output_path])
                        (<[output_path := i]> (pages_written st))).

(** [for i in range(total_pages)], the texts being those of
    [extract_text_from_page]; [None] when a turn raises. *)
Fixpoint pages_loop (raises : nat -> pystr -> bool) (pages_dir : pystr)
  (texts : list pystr) (i : nat) (st : pages_state) : option pages_state :=
  match texts with
  | [] => Some st
  | text :: texts' =>
      match write_page raises pages_dir i text st with
      | Some st' => pages_loop raises pages_dir texts' (S i) st'
      | None => None
      end
  end.

Definition split_pages (raises : nat -> pystr -> bool) (pages_dir : pystr)
  (texts : list pystr) : option pages_state :=
  pages_loop raises pages_dir texts 0 (PagesState [] ∅).

(** The state of the grouping loop: the folders made, the paths returned,
    and the files under [organized_dir], each holding the source file that
    was copied onto it last. *)
Record group_state : Type := GroupState {
  created_folders : gset pystr;
  organized_files : list pystr;
  organized_tree : gmap pystr pystr
}.

Definition organize_file (pages_dir organized_dir pdf_file : pystr)
  (st : group_state) : group_state :=
  if Py.endswith (Py.lower pdf_file) (str ".pdf") then
    match Re.rematch pat_numbered pdf_file with
    | Some m =>
        let formatted_name := Py.strip (Re.group pdf_file m 1) in
        if Py.eqb (Py.lower formatted_name) (str "unknown") then st
        else
          let folder_name := formatted_name in
          let folder_path := path_join organized_dir folder_name in
          let created :=
            if bool_decide (folder_name ∈ created_folders st)
            then created_folders st
            else created_folders st ∪ {[folder_name]} in
          let source_file := path_join pages_dir pdf_file in
          let new_filename := formatted_name ++ str ".pdf" in
          let dest_file := path_join folder_path new_filename in
          GroupState created
                     (organized_files st ++ [dest_file])
                     (<[dest_file := source_file]> (organized_tree st))
    | None => st
    end
  else st.

(** [for pdf_file in os.listdir(pages_dir)], for the order [listing] in
    which the directory is read. *)
Definition organize (pages_dir organized_dir : pystr) (listing : list pystr)
  : group_state :=
  foldl (fun st pdf_file => organize_file pages_dir organized_dir pdf_file st)
        (GroupState ∅ [] ∅) listing.

(** ** Descriptions used in the statements *)

(** The index of the first, and of the last, element that satisfies [p]. *)
Definition first_index {A} (p : A -> bool) (l : list A) : option nat :=
  fst <$> list_find (fun x => p x = true) l.

Fixpoint last_index {A} (p : A -> bool) (l : list A) : option nat :=
  match l with
  | [] => None
  | x :: l' =>
      match last_index p l' with
      | Some k => Some (S k)
      | None => if p x then Some 0 else None
      end
  end.

(** The window of method 2: [j] is the first line of the whole text that
    holds "This certificate", [i] the last line up to and including [j]
    that holds "CERTIFICATE OF COMPLETION", and [i < j]. *)
Definition marker_window (lines : list pystr) : option (nat * nat) :=
  match first_index (Py.contains TC) lines with
  | Some j =>
      match last_index (Py.contains CoC) (take (S j) lines) with
      | Some i => if i <? j then Some (i, j) else None
      | None => None
      end
  | None => None
  end.

(** What method 2 finds: the first line strictly inside the window that,
    once stripped, passes [acceptable_line]. *)
Definition line_window_scan (text : pystr) : option pystr :=
  let lines := Py.split_on "010" text in
  match marker_window lines with
  | Some (i, j) =>
      head (filter (fun c => acceptable_line c = true)
                   (map Py.strip (take (j - i - 1) (drop (S i) lines))))
  | None => None
  end.

(** Strategy 2 in the words of the specification: the line of
    "CERTIFICATE OF COMPLETION", then the first line after it that holds
    "This certificate", then the first acceptable line between the two. *)
Definition strategy2_spec (text : pystr) : option pystr :=
  let lines := Py.split_on "010" text in
  match first_index (Py.contains CoC) lines with
  | Some i =>
      match first_index (Py.contains TC) (drop (S i) lines) with
      | Some d =>
          head (filter (fun c => acceptable_line c = true)
                       (map Py.strip (take d (drop (S i) lines))))
      | None => None
      end
  | None => None
  end.

(** A token with one trailing period ignored. *)
Definition without_trailing_period (s : pystr) : pystr :=
  match rev s with
  | c :: r => if chr_eqb c "." then rev r else s
  | [] => s
  end.

(** The text between the two anchor phrases of a well-formed span: a run
    of letters, whitespace, periods and hyphens that starts and ends with
    whitespace and has something in between. *)
Definition well_formed_span (mid : pystr) : bool :=
  (3 <=? length mid) && forallb name_chr mid
  && match mid with c :: _ => isspace c | [] => false end
  && match rev mid with c :: _ => isspace c | [] => false end.

(** Whitespace runs collapsed to one space, surrounding whitespace
    trimmed. *)
Definition collapsed (s : pystr) : pystr :=
  Py.strip (Re.sub ws_run (str " ") s).

(** The folder a file of [pages_dir] goes to, if any, and the one path
    every file of a folder is copied to. *)
Definition folder_of (pdf_file : pystr) : option pystr :=
  if Py.endswith (Py.lower pdf_file) (str ".pdf") then
    match Re.rematch pat_numbered pdf_file with
    | Some m =>
        let formatted_name := Py.strip (Re.group pdf_file m 1) in
        if Py.eqb (Py.lower formatted_name) (str "unknown") then None
        else Some formatted_name
    | None => None
    end
  else None.

Definition dest_of (organized_dir folder_name : pystr) : pystr :=
  path_join (path_join organized_dir folder_name) (folder_name ++ str ".pdf").

(** The matcher's state after [n] more characters of the text. *)
Fixpoint adv (n p : nat) (pv : option ascii) (s : pystr)
  (cs : list (nat * (nat * nat))) : Re.mstate :=
  match n, s with
  | S n', c :: s' => adv n' (S p) (Some c) s' cs
  | _, _ => Re.MState p pv s cs
  end.

(** A greedy run of characters of a class [q]: the longest run first,
    then one character less, down to no character at all (for the star)
    or to one character (for the plus). *)
Fixpoint star_chr (q : ascii -> bool) (k : Re.mstate -> option Re.mstate)
  (p : nat) (pv : option ascii) (s : pystr) (cs : list (nat * (nat * nat)))
  : option Re.mstate :=
  match s with
  | c :: s' =>
      if q c
      then Re.orelse (star_chr q k (S p) (Some c) s' cs)
                     (fun _ => k (Re.MState p pv s cs))
      else k (Re.MState p pv s cs)
  | [] => k (Re.MState p pv s cs)
  end.

Definition plus_chr (q : ascii -> bool) (k : Re.mstate -> option Re.mstate)
  (p : nat) (pv : option ascii) (s : pystr) (cs : list (nat * (nat * nat)))
  : option Re.mstate :=
  match s with
  | c :: s' => if q c then star_chr q k (S p) (Some c) s' cs else None
  | [] => None
  end.

(** The lookahead of the anchor pattern holds at a text that goes on with
    whitespace and then "This certificate". *)
Definition look_ok (s : pystr) : Prop :=
  exists w tail, s = w ++ TC ++ tail /\ w <> [] /\ forallb isspace w = true.

(** The length of the longest prefix made of characters of [q]. *)
Fixpoint span_len (q : ascii -> bool) (s : pystr) : nat :=
  match s with
  | c :: s' => if q c then S (span_len q s') else 0
  | [] => 0
  end.

(** Every whitespace run replaced by one space; [in_ws] tells that the
    run being read has already been replaced. *)
Fixpoint collapse_ws (in_ws : bool) (s : pystr) : pystr :=
  match s with
  | [] => []
  | c :: s' =>
      if isspace c
      then if in_ws then collapse_ws true s' else " "%char :: collapse_ws true s'
      else c :: collapse_ws false s'
  end.

Definition nl : pystr := ["010"%char].

(** A page on which a line "This certificate" comes before the title. *)
Definition early_marker_text : pystr :=
  str "This certificate" ++ nl ++ str "CERTIFICATE OF COMPLETION" ++ nl
  ++ str "John Doe 3rd" ++ nl ++ str "This certificate of".

(** A page on which "This certificate" comes twice after the name. *)
Definition two_anchors_text : pystr :=
  str "CERTIFICATE OF COMPLETION John Doe This certificate is awarded. This certificate is valid".

(** The three outputs of the grouping example. *)
Definition example_outputs : list pystr :=
  [str "001 Cruz, Juan.pdf"; str "004 Cruz, Juan.pdf"; str "002 unknown.pdf"].

(** ** [extract_text_from_page] *)

(** A reader is the list of its pages; a page yields its text, or [None]
    when [extract_text] raises.  [pdf_reader.pages[page_number]] raises
    out of range.  The handler answers both with the empty string. *)
Definition extract_text_from_page (pdf_reader : list (option pystr))
  (page_number : nat) : pystr :=
  match pdf_reader !! page_number with
  | Some (Some text) => text
  | _ => []
  end.

(** The texts the page loop works on, page after page. *)
Definition page_texts (pdf_reader : list (option pystr)) : list pystr :=
  map (extract_text_from_page pdf_reader) (seq 0 (length pdf_reader)).

(** ** [split_pdf_with_names] as a whole, and [create_download_zip] *)

(** What the function meets outside its arguments: which turn of the
    page loop raises, whether a call of the grouping block raises for
    the listing it reads ([os.makedirs], [os.listdir], [shutil.copy2]),
    the names already in [pages_dir] when the function is called, and
    the order in which [os.listdir] gives the names of a directory. *)
Record environment : Type := Environment {
  page_raises : nat -> pystr -> bool;
  grouping_raises : list pystr -> bool;
  pages_dir_before : gset pystr;
  listdir : gset pystr -> list pystr
}.

(** [os.listdir(pages_dir)] after the page loop: the names that were
    there and the names of the files written. *)
Definition pages_listing (env : environment) (texts : list pystr) : list pystr :=
  listdir env (pages_dir_before env ∪ list_to_set (imap output_filename texts)).

(** The [try] block and its handler (lines 231-347); an exception of the
    lines before it is not caught and reaches the caller.  [pdf] is
    [None] when [PdfReader] raises.  An exception in the page loop or in
    the grouping block is answered by the handler, as that one is, with
    [([], 0)]. *)
Definition split_pdf_with_names (env : environment)
  (pdf : option (list (option pystr))) (temp_dir : pystr)
  (organize_into_folders : bool) : list pystr * nat :=
  match pdf with
  | None => ([], 0)
  | Some pdf_reader =>
      let pages_dir := path_join temp_dir (str "pages") in
      let total_pages := length pdf_reader in
      let texts := page_texts pdf_reader in
      match split_pages (page_raises env) pages_dir texts with
      | None => ([], 0)
      | Some st =>
          if organize_into_folders then
            let organized_dir := path_join temp_dir (str "organized") in
            let listing := pages_listing env texts in
            if grouping_raises env listing then ([], 0)
            else (organized_files (organize pages_dir organized_dir listing),
                  total_pages)
          else (output_files st, total_pages)
      end
  end.

(** [os.path.basename(p)]: what follows the last [/]; [cur] is what was
    read since the last [/], in reverse. *)
Fixpoint basename_from (p cur : pystr) : pystr :=
  match p with
  | [] => rev cur
  | c :: p' =>
      if chr_eqb c "/" then basename_from p' [] else basename_from p' (c :: cur)
  end.

Definition basename (p : pystr) : pystr := basename_from p [].

(** The archive of [create_download_zip], as the list of its entries:
    the name in the archive and the file written under it. *)
Definition create_download_zip (file_paths : list pystr) : list (pystr * pystr) :=
  map (fun file => (basename file, file)) file_paths.

(** ** More descriptions used in the statements *)

(** The number a string of decimal digits stands for, read after the
    number [a]. *)
Definition nat_of_digits_from (a : nat) (s : pystr) : nat :=
  fold_left (fun a c => 10 * a + (nat_of_ascii c - 48)) s a.

Definition nat_of_digits (s : pystr) : nat := nat_of_digits_from 0 s.

(** The folder of a page, if the page has a name. *)
Definition page_folder (text : pystr) : option pystr :=
  if Py.eqb (Py.lower (page_stem text)) (str "unknown") then None
  else Some (page_stem text).

Definition no_slash (c : ascii) : bool := negb (chr_eqb c "/").

(** A file system that refuses file names of more than 255 characters
    and nothing else, with an empty [pages_dir]. *)
Definition name_max_env : environment :=
  Environment (fun _ output_path => 255 <? length (basename output_path))
              (fun _ => false) ∅ elements.

(** A page whose name makes a file name of more than 255 characters. *)
Definition long_name_text : pystr :=
  str "presented to A" ++ replicate 300 "a"%char ++ str " for successfully".

(** A word of [s.split()]: not empty, without whitespace. *)
Definition good_token (w : pystr) : bool :=
  match w with
  | [] => false
  | _ :: _ => forallb (fun c => negb (isspace c)) w
  end.

(** A property of the characters of a name that may be [None]. *)
Definition opt_all (P : ascii -> Prop) (name : option pystr) : Prop :=
  match name with
  | Some s => Forall P s
  | None => True
  end.

Definition NUL : ascii := "000"%char.

(** A lazy run of characters of a class [q]: no character first, then
    one more at a time. *)
Fixpoint lazy_chr (q : ascii -> bool) (k : Re.mstate -> option Re.mstate)
  (p : nat) (pv : option ascii) (s : pystr) (cs : list (nat * (nat * nat)))
  : option Re.mstate :=
  Re.orelse (k (Re.MState p pv s cs))
    (fun _ => match s with
              | c :: s' => if q c then lazy_chr q k (S p) (Some c) s' cs else None
              | [] => None
              end).

Definition not_newline (c : ascii) : bool := negb (chr_eqb c "010").

(** What follows group 1 in the file-name pattern: [\.pdf$], run from
    the state in which group 1, opened at [a], closes. *)
Definition pdf_tail (a : nat) (st : Re.mstate) : option Re.mstate :=
  Re.run (Re.Seq (Re.lit (str ".pdf")) Re.Eos)
    (Re.MState (Re.pos st) (Re.prev st) (Re.rest st)
               ((1, (a, Re.pos st)) :: Re.caps st)) Some.

(** The two phrases of method 4. *)
Definition PT : pystr := str "presented to".
Definition FS : pystr := str "for successfully".

(** What follows group 1 in the pattern of method 4:
    [\s+for successfully], run from the state in which group 1, opened
    at [a], closes. *)
Definition presented_tail (a : nat) (st : Re.mstate) : option Re.mstate :=
  Re.run (Re.Seq ws_run (Re.lit FS))
    (Re.MState (Re.pos st) (Re.prev st) (Re.rest st)
               ((1, (a, Re.pos st)) :: Re.caps st)) Some.

(** * Properties *)

(** ** The formatter *)

Section Formatter.

Implicit Types (name s w : pystr) (parts : list pystr).

Lemma format_some name :
  name <> [] ->
  format_name_for_filename (Some name) =
    if length (Py.split (clean_name name)) <? 2 then clean_name name
    else format_parts (Py.split (clean_name name)).
Proof. destruct name; [congruence | reflexivity]. Qed.

Lemma without_trailing_period_inv s t :
  without_trailing_period s = t -> s = t \/ s = t ++ str ".".
Proof.
  unfold without_trailing_period.
  destruct (rev s) as [|c r] eqn:E; [auto|].
  destruct (chr_eqb c ".") eqn:Ec; [|auto].
  apply Ascii.eqb_eq in Ec. subst c.
  intros <-. right.
  rewrite <- (rev_involutive s), E. reflexivity.
Qed.

Lemma mem_sta_sto_iff s :
  Py.mem s (map str ["sta."; "sto."; "sta"; "sto"]%string) = true <->
  without_trailing_period s = str "sta" \/ without_trailing_period s = str "sto".
Proof.
  split.
  - cbn [Py.mem existsb map]. unfold Py.eqb.
    rewrite !orb_true_iff, !bool_decide_eq_true.
    intros [->|[->|[->|[->|?]]]]; try discriminate; vm_compute; auto.
  - intros [H|H]; apply without_trailing_period_inv in H as [->| ->];
      reflexivity.
Qed.

(** The test for a double prefix sits behind the test that the
    second-to-last part is no prefix, and asks for the opposite. *)
Lemma double_prefix_branch_unreachable parts :
  Py.mem (Py.lower (Py.getitem parts (-2))) name_prefixes = false ->
  (4 <=? length parts)
  && Py.mem (Py.lower (Py.getitem parts (-3))) name_prefixes
  && Py.mem (Py.lower (Py.getitem parts (-2))) name_prefixes = false.
Proof. intros ->. apply andb_false_r. Qed.

Lemma format_cleans_to_empty name :
  name <> [] -> clean_name name = [] ->
  format_name_for_filename (Some name) = [].
Proof. intros Hn Hc. rewrite format_some, Hc by done. reflexivity. Qed.

End Formatter.

(** C1.  The formatter does not return "van der Wal, John" for
    "John van der Wal": the second-to-last part "der" is a prefix, so the
    surname is made of the last two parts, and the result is
    "der Wal, John". *)
Theorem format_john_van_der_wal :
  format_name_for_filename (Some (str "John van der Wal")) = str "der Wal, John"
  /\ format_name_for_filename (Some (str "John van der Wal")) <> str "van der Wal, John".
Proof. vm_compute. split; [reflexivity | discriminate]. Qed.

(** C2.  The formatter returns "unknown" for [None] and for the empty
    string; a non-empty name that the cleanup empties comes back as the
    empty string, not as "unknown". *)
Theorem format_unknown_only_before_cleanup :
  format_name_for_filename None = str "unknown"
  /\ format_name_for_filename (Some []) = str "unknown"
  /\ clean_name (str "COMPLETION") = []
  /\ format_name_for_filename (Some (str "COMPLETION")) = []
  /\ clean_name (str "?") = []
  /\ format_name_for_filename (Some (str "?")) = [].
Proof. repeat split; reflexivity. Qed.



(** C6.  A cleaned name of three parts or more to which the Sta./Sto.
    rule on the second part does not apply, and whose second-to-last part,
    lower-cased, is a name prefix, is formatted with the last two parts as
    surname: these two parts joined by a space, a comma and a space, and
    the first part.  (Whether the Sta./Sto. rule on the second-to-last part
    applies makes no difference: it yields the same surname.) *)
Theorem format_prefix_surname (name : pystr) :
  let parts := Py.split (clean_name name) in
  name <> [] ->
  3 <= length parts ->
  ~ (without_trailing_period (Py.lower (Py.getitem parts 1)) = str "sta"
     \/ without_trailing_period (Py.lower (Py.getitem parts 1)) = str "sto") ->
  Py.mem (Py.lower (Py.getitem parts (-2))) name_prefixes = true ->
  format_name_for_filename (Some name) =
    (Py.getitem parts (-2) ++ str " " ++ Py.getitem parts (-1))
    ++ str ", " ++ Py.getitem parts 0.
Proof.
  intros parts Hn Hlen Hsta Hpre. rewrite format_some by done. fold parts.
  destruct (Nat.ltb_spec (length parts) 2); [lia|].
  unfold format_parts.
  destruct (Nat.leb_spec 3 (length parts)); [|lia].
  rewrite <- mem_sta_sto_iff in Hsta. apply not_true_is_false in Hsta.
  rewrite Hsta, Hpre. cbn [andb].
  destruct (Py.mem _ (map str ["sta"; "sto"]%string)); reflexivity.
Qed.

Lemma format_prefix_surname_witness :
  format_name_for_filename (Some (str "Juan Dela Cruz")) = str "Dela Cruz, Juan".
Proof.
  apply (format_prefix_surname (str "Juan Dela Cruz")).
  - discriminate.
  - vm_compute. lia.
  - vm_compute. intros [H|H]; discriminate H.
  - reflexivity.
Defined.

(** ** Characters of the formatter's result *)

Section Characters.

Variable P : ascii -> Prop.

Lemma Forall_sub_from r repl p pv s skip :
  Forall P repl -> Forall P s -> Forall P (Re.sub_from r repl p pv s skip).
Proof.
  intros Hr Hs. revert p pv skip.
  induction Hs as [|c s Hc Hs IH]; intros p pv skip; cbn [Re.sub_from];
    [constructor|].
  destruct skip; [|apply IH].
  destruct (Re.match_at r p pv (c :: s)) as [m|].
  - destruct (p <? Re.m_end m).
    + apply Forall_app_2; auto.
    + constructor; auto.
  - constructor; auto.
Qed.

Lemma Forall_sub r repl s :
  Forall P repl -> Forall P s -> Forall P (Re.sub r repl s).
Proof. apply Forall_sub_from. Qed.

Lemma Forall_lstrip s : Forall P s -> Forall P (Py.lstrip s).
Proof.
  induction 1 as [|c s Hc Hs IH]; cbn [Py.lstrip]; [constructor|].
  destruct (isspace c); [assumption | constructor; assumption].
Qed.

Lemma Forall_strip s : Forall P s -> Forall P (Py.strip s).
Proof.
  intros H. unfold Py.strip, Py.rstrip.
  apply Forall_rev, Forall_lstrip, Forall_rev, Forall_lstrip, H.
Qed.

Lemma Forall_split_from s cur :
  Forall P s -> Forall P cur -> Forall (Forall P) (Py.split_from s cur).
Proof.
  intros Hs. revert cur.
  induction Hs as [|c s Hc Hs IH]; intros cur Hcur; cbn [Py.split_from].
  - destruct cur; repeat constructor. apply Forall_rev, Hcur.
  - destruct (isspace c).
    + destruct cur.
      * apply IH; constructor.
      * constructor; [apply Forall_rev, Hcur | apply IH; constructor].
    + apply IH. constructor; assumption.
Qed.

Lemma Forall_split s : Forall P s -> Forall (Forall P) (Py.split s).
Proof. intros H. apply Forall_split_from; [assumption | constructor]. Qed.

Lemma Forall_getitem l i : Forall (Forall P) l -> Forall P (Py.getitem l i).
Proof.
  intros H. unfold Py.getitem.
  destruct (_ <? 0)%Z; [constructor|].
  match goal with |- Forall P (nth ?n l []) =>
    destruct (nth_in_or_default n l []) as [Hin| ->]; [|constructor] end.
  rewrite Forall_forall in H. apply H. apply list_elem_of_In. exact Hin.
Qed.

Lemma Forall_join sep l :
  Forall P sep -> Forall (Forall P) l -> Forall P (Py.join sep l).
Proof.
  intros Hsep. induction 1 as [|w l Hw Hl IH]; cbn [Py.join]; [constructor|].
  destruct l; [assumption|].
  apply Forall_app_2; [assumption|].
  apply Forall_app_2; assumption.
Qed.

Hypothesis P_space : P " ".
Hypothesis P_comma : P ",".

Lemma Forall_strip_boilerplate s : Forall P s -> Forall P (strip_boilerplate s).
Proof.
  intros H. unfold strip_boilerplate.
  apply Forall_strip, Forall_sub; [repeat constructor; assumption|].
  repeat (apply Forall_sub; [constructor|]). assumption.
Qed.

Lemma Forall_format_parts parts :
  Forall (Forall P) parts -> Forall P (format_parts parts).
Proof.
  intros H. unfold format_parts.
  assert (Hsp : Forall P (str " ")) by (repeat constructor; assumption).
  assert (Hcm : Forall P (str ", ")) by (repeat constructor; assumption).
  assert (Hg : forall i, Forall P (Py.getitem parts i))
    by (intros; apply Forall_getitem, H).
  repeat match goal with
         | |- Forall P (if ?b then _ else _) => destruct b
         | |- Forall P (_ ++ _) => apply Forall_app_2
         | |- Forall P (Py.join _ _) => apply Forall_join; [|apply Forall_drop]
         end; auto.
Qed.

End Characters.

Lemma sub_chr_filter q s :
  Re.sub (Re.Chr q) [] s = filter (fun c => q c = false) s.
Proof.
  unfold Re.sub. generalize 0 at 1. generalize (@None ascii).
  induction s as [|c s IH]; intros pv p; [reflexivity|].
  cbn [Re.sub_from]. unfold Re.match_at. cbn [Re.run Re.rest].
  rewrite filter_cons.
  destruct (q c) eqn:Eq; cbn [Re.pos Re.m_end].
  - destruct (Nat.ltb_spec p (S p)); [|lia].
    replace (S p - p - 1) with 0 by lia.
    rewrite IH. destruct (decide (true = false)); [discriminate|reflexivity].
  - rewrite IH. destruct (decide (false = false)); [reflexivity|congruence].
Qed.

(** The character class of a list holds the characters of the list. *)
Lemma one_of_false l c : Re.one_of l c = false <-> c ∉ l.
Proof.
  unfold Re.one_of. induction l as [|d l IH]; cbn [existsb].
  - split; [intros _; apply not_elem_of_nil | reflexivity].
  - rewrite orb_false_iff, IH, not_elem_of_cons.
    unfold chr_eqb. rewrite Ascii.eqb_neq. reflexivity.
Qed.

Lemma problematic_chars c :
  Re.one_of problematic c = false <->
  c ∉ ["\"; "/"; ":"; "*"; "?"; "034"; "<"; ">"; "|"; "010"; "013"; "009"]%char.
Proof.
  rewrite one_of_false. unfold problematic.
  rewrite !not_elem_of_cons. tauto.
Qed.

(** C10.  The formatter first deletes from the name every backslash,
    slash, colon, star, question mark, double quote, less-than,
    greater-than, bar, newline, carriage return and tab, and none of
    these twelve characters occurs in its result, whatever the branch
    that produced it. *)
Theorem format_free_of_problematic (name : option pystr) :
  (forall s,
     Re.sub pat_problematic [] s
     = filter (fun c => c ∉ ["\"; "/"; ":"; "*"; "?"; "034"; "<"; ">"; "|";
                             "010"; "013"; "009"]%char) s)
  /\ Forall (fun c => c ∉ ["\"; "/"; ":"; "*"; "?"; "034"; "<"; ">"; "|";
                           "010"; "013"; "009"]%char)
            (format_name_for_filename name).
Proof.
  split.
  { intros s. unfold pat_problematic. rewrite sub_chr_filter.
    apply list_filter_iff, problematic_chars. }
  set (P := fun c : ascii =>
              c ∉ ["\"; "/"; ":"; "*"; "?"; "034"; "<"; ">"; "|";
                   "010"; "013"; "009"]%char).
  assert (Hsp : P " "%char) by (apply problematic_chars; reflexivity).
  assert (Hcm : P ","%char) by (apply problematic_chars; reflexivity).
  destruct name as [[|c n]|]; cbn [format_name_for_filename].
  - apply Forall_forall. intros x Hx. apply problematic_chars.
    revert x Hx. apply Forall_forall. vm_compute. repeat constructor.
  - assert (Hclean : Forall P (clean_name (c :: n))).
    { unfold clean_name. apply Forall_strip_boilerplate; try assumption.
      unfold pat_problematic. rewrite sub_chr_filter.
      apply Forall_forall. intros x Hx.
      apply list_elem_of_filter in Hx as [Hx _].
      apply problematic_chars, Hx. }
    destruct (_ <? 2); [assumption|].
    apply Forall_format_parts; try assumption.
    apply Forall_split, Hclean.
  - apply Forall_forall. intros x Hx. apply problematic_chars.
    revert x Hx. apply Forall_forall. vm_compute. repeat constructor.
Qed.

Lemma format_free_of_problematic_witness :
  format_name_for_filename (Some (str "Cruz*?, Ana/Maria:")) = str "AnaMaria, Cruz,"
  /\ Forall (fun c => c ∉ ["\"; "/"; ":"; "*"; "?"; "034"; "<"; ">"; "|";
                           "010"; "013"; "009"]%char)
            (str "AnaMaria, Cruz,").
Proof.
  split; [reflexivity|].
  exact (proj2 (format_free_of_problematic (Some (str "Cruz*?, Ana/Maria:")))).
Defined.

(** ** The matcher on the shapes the patterns are made of *)

Section Matcher.

Implicit Types (q : ascii -> bool) (k : Re.mstate -> option Re.mstate)
  (p n : nat) (pv : option ascii) (s w : pystr) (cs : list (nat * (nat * nat))).

Lemma adv_rest n p pv s cs : Re.rest (adv n p pv s cs) = drop n s.
Proof.
  revert p pv s. induction n as [|n IH]; intros p pv [|c s]; cbn; auto.
Qed.

Lemma adv_caps n p pv s cs : Re.caps (adv n p pv s cs) = cs.
Proof.
  revert p pv s. induction n as [|n IH]; intros p pv [|c s]; cbn; auto.
Qed.

Lemma adv_pos n p pv s cs : n <= length s -> Re.pos (adv n p pv s cs) = p + n.
Proof.
  revert p pv s. induction n as [|n IH]; intros p pv [|c s] Hn; cbn in *;
    try lia.
  rewrite IH by lia. lia.
Qed.

Lemma adv_eta n p pv s cs :
  n <= length s ->
  adv n p pv s cs = Re.MState (p + n) (Re.prev (adv n p pv s cs)) (drop n s) cs.
Proof.
  intros Hn.
  pose proof (adv_pos n p pv s cs Hn) as Hp.
  pose proof (adv_rest n p pv s cs) as Hr.
  pose proof (adv_caps n p pv s cs) as Hc.
  destruct (adv n p pv s cs); cbn in *. congruence.
Qed.

Lemma orelse_none {A} (a : option A) : Re.orelse a (fun _ => None) = a.
Proof. destruct a; reflexivity. Qed.

Lemma startswith_app s w : Py.startswith s w = true <-> exists t, s = w ++ t.
Proof.
  revert s. induction w as [|a w IH]; intros s.
  - cbn. destruct s; split; eauto.
  - destruct s as [|b s]; cbn.
    + split; [discriminate | intros [t Ht]; discriminate].
    + rewrite andb_true_iff, IH. unfold chr_eqb. rewrite Ascii.eqb_eq.
      split.
      * intros [-> [t ->]]. eauto.
      * intros [t [= -> ->]]. eauto.
Qed.

Lemma adv_app w p pv s cs :
  exists pv', adv (length w) p pv (w ++ s) cs = Re.MState (p + length w) pv' s cs.
Proof.
  revert p pv. induction w as [|a w IH]; intros p pv; cbn.
  - exists pv. f_equal. lia.
  - destruct (IH (S p) (Some a)) as [pv' ->]. exists pv'. f_equal. lia.
Qed.

(** A literal. *)
Lemma run_lit w p pv s cs k :
  Re.run (Re.lit w) (Re.MState p pv s cs) k =
    if Py.startswith s w then k (adv (length w) p pv s cs) else None.
Proof.
  revert p pv s. induction w as [|a w IH]; intros p pv s.
  - destruct s; reflexivity.
  - assert (Hstep : Re.run (Re.lit (a :: w)) (Re.MState p pv s cs) k =
              match s with
              | c :: s' =>
                  if chr_eqb a c
                  then Re.run (Re.lit w) (Re.MState (S p) (Some c) s' cs) k
                  else None
              | [] => None
              end).
    { destruct w; destruct s; reflexivity. }
    rewrite Hstep. destruct s as [|c s]; [reflexivity|].
    cbn [Py.startswith length adv]. destruct (chr_eqb a c); [|reflexivity].
    rewrite IH. reflexivity.
Qed.

(** A greedy repetition of one character class. *)
Lemma rep_loop_star q k lo fuel cnt p pv s cs :
  lo <= cnt -> length s < fuel ->
  Re.rep_loop (Re.run (Re.Chr q)) true lo None k fuel cnt (Re.MState p pv s cs)
  = star_chr q k p pv s cs.
Proof.
  revert cnt p pv s. induction fuel as [|fuel IH]; intros cnt p pv s Hlo Hf;
    [lia|].
  cbn [Re.rep_loop Re.below Re.run Re.rest Re.pos Re.caps].
  destruct (Nat.leb_spec lo cnt); [|lia].
  destruct s as [|c s]; [reflexivity|].
  cbn [star_chr]. destruct (q c); [|reflexivity].
  cbn [Re.rest length] in *.
  destruct (Nat.ltb_spec (length s) (S (length s))); [|lia].
  rewrite IH by lia. reflexivity.
Qed.

Lemma run_plus_chr q k p pv s cs :
  Re.run (Re.plus (Re.Chr q)) (Re.MState p pv s cs) k = plus_chr q k p pv s cs.
Proof.
  unfold Re.plus. cbn [Re.run Re.rep_loop Re.below Re.rest Re.pos Re.caps].
  cbn [Nat.leb]. rewrite orelse_none.
  destruct s as [|c s]; [reflexivity|]. cbn [plus_chr].
  destruct (q c); [|reflexivity].
  cbn [Re.rest length].
  destruct (Nat.ltb_spec (length s) (S (length s))); [|lia].
  apply rep_loop_star; lia.
Qed.

Lemma star_chr_none q k p pv s cs :
  star_chr q k p pv s cs = None ->
  forall n, n <= length s -> forallb q (take n s) = true ->
    k (adv n p pv s cs) = None.
Proof.
  revert p pv. induction s as [|c s IH]; intros p pv; cbn [star_chr].
  - intros Hk [|n] _ _; exact Hk.
  - destruct (q c) eqn:Eq.
    + destruct (star_chr q k (S p) (Some c) s cs) eqn:Es;
        cbn [Re.orelse]; [discriminate|].
      intros Hk [|n] Hn Hq; [exact Hk|].
      cbn [take forallb adv length] in *. rewrite Eq in Hq.
      apply IH; auto; lia.
    + intros Hk [|n] Hn Hq; [exact Hk|].
      cbn [take forallb] in Hq. rewrite Eq in Hq. discriminate.
Qed.

Lemma star_chr_some q k p pv s cs r :
  star_chr q k p pv s cs = Some r ->
  exists n, n <= length s /\ forallb q (take n s) = true
            /\ k (adv n p pv s cs) = Some r
            /\ forall n', n < n' -> n' <= length s ->
                 forallb q (take n' s) = true -> k (adv n' p pv s cs) = None.
Proof.
  revert p pv. induction s as [|c s IH]; intros p pv; cbn [star_chr].
  - intros Hk. exists 0. cbn. repeat split; auto; try lia.
  - destruct (q c) eqn:Eq.
    + destruct (star_chr q k (S p) (Some c) s cs) as [r'|] eqn:Es; cbn [Re.orelse].
      * intros [= ->]. destruct (IH _ _ Es) as (n & Hn & Hq & Hk & Hmax).
        exists (S n). cbn [take forallb adv length]. rewrite Eq.
        repeat split; auto; try lia.
        intros [|n'] H1 H2 H3; [lia|]. cbn [take forallb adv length] in *.
        rewrite Eq in H3. apply Hmax; auto; lia.
      * intros Hk. exists 0. cbn [take forallb adv]. repeat split; auto.
        { cbn; lia. }
        intros [|n'] H1 H2 H3; [lia|]. cbn [take forallb adv length] in *.
        rewrite Eq in H3. apply (star_chr_none _ _ _ _ _ _ Es); auto; lia.
    + intros Hk. exists 0. cbn [take forallb adv]. repeat split; auto.
      { cbn; lia. }
      intros [|n'] H1 H2 H3; [lia|]. cbn [take forallb] in H3.
      rewrite Eq in H3. discriminate.
Qed.

Lemma plus_chr_some q k p pv s cs r :
  plus_chr q k p pv s cs = Some r ->
  exists n, 1 <= n /\ n <= length s /\ forallb q (take n s) = true
            /\ k (adv n p pv s cs) = Some r
            /\ forall n', n < n' -> n' <= length s ->
                 forallb q (take n' s) = true -> k (adv n' p pv s cs) = None.
Proof.
  unfold plus_chr. destruct s as [|c s]; [discriminate|].
  destruct (q c) eqn:Eq; [|discriminate].
  intros Hs. apply star_chr_some in Hs as (n & Hn & Hq & Hk & Hmax).
  exists (S n). cbn [take forallb adv length]. rewrite Eq.
  repeat split; auto; try lia.
  intros [|n'] H1 H2 H3; [lia|]. cbn [take forallb adv] in *.
  rewrite Eq in H3. apply Hmax; auto; lia.
Qed.

Lemma plus_chr_none q k p pv s cs :
  plus_chr q k p pv s cs = None ->
  forall n, 1 <= n -> n <= length s -> forallb q (take n s) = true ->
    k (adv n p pv s cs) = None.
Proof.
  unfold plus_chr. intros Hs [|n] H1 Hn Hq; [lia|].
  destruct s as [|c s]; [cbn in Hn; lia|].
  cbn [take forallb adv length] in *.
  apply andb_true_iff in Hq as [Hc Hq]. rewrite Hc in Hs.
  apply (star_chr_none _ _ _ _ _ _ Hs); auto; lia.
Qed.

End Matcher.

(** ** Whitespace: collapse and strip *)

Section Whitespace.

Implicit Types (s w : pystr).

Lemma span_len_le q s : span_len q s <= length s.
Proof. induction s as [|c s IH]; cbn; [lia|]. destruct (q c); cbn; lia. Qed.

Lemma star_chr_longest q p pv s cs :
  star_chr q Some p pv s cs = Some (adv (span_len q s) p pv s cs).
Proof.
  revert p pv. induction s as [|c s IH]; intros p pv; cbn [star_chr span_len].
  - reflexivity.
  - destruct (q c); [|reflexivity]. rewrite IH. reflexivity.
Qed.

Lemma match_at_ws p pv s :
  Re.match_at ws_run p pv s =
    match s with
    | c :: s' =>
        if isspace c
        then Some (Re.RMatch p (S p + span_len isspace s') [])
        else None
    | [] => None
    end.
Proof.
  unfold Re.match_at, ws_run. rewrite run_plus_chr. unfold plus_chr.
  destruct s as [|c s]; [reflexivity|].
  destruct (isspace c); [|reflexivity].
  rewrite star_chr_longest.
  pose proof (span_len_le isspace s) as Hle.
  rewrite adv_pos, adv_caps by exact Hle. reflexivity.
Qed.

Lemma sub_ws_collapse s :
  forall p pv,
    Re.sub_from ws_run (str " ") p pv s 0 = collapse_ws false s
    /\ Re.sub_from ws_run (str " ") p pv s (span_len isspace s) = collapse_ws true s.
Proof.
  induction s as [|c s IH]; intros p pv; [split; reflexivity|].
  assert (H0 : Re.sub_from ws_run (str " ") p pv (c :: s) 0
               = collapse_ws false (c :: s)).
  { cbn [Re.sub_from collapse_ws]. rewrite match_at_ws.
    destruct (isspace c).
    - cbn [Re.m_end]. destruct (Nat.ltb_spec p (S p + span_len isspace s)); [|lia].
      replace (S p + span_len isspace s - p - 1) with (span_len isspace s) by lia.
      rewrite (proj2 (IH _ _)). reflexivity.
    - rewrite (proj1 (IH _ _)). reflexivity. }
  split; [exact H0|].
  cbn [span_len]. destruct (isspace c) eqn:Ec.
  - cbn [Re.sub_from collapse_ws]. rewrite Ec. apply IH.
  - rewrite H0. cbn [collapse_ws]. rewrite Ec. reflexivity.
Qed.

Lemma collapsed_eq s : collapsed s = Py.strip (collapse_ws false s).
Proof. unfold collapsed, Re.sub. rewrite (proj1 (sub_ws_collapse s _ _)). reflexivity. Qed.

Lemma lstrip_ws_app w s :
  forallb isspace w = true -> Py.lstrip (w ++ s) = Py.lstrip s.
Proof.
  induction w as [|c w IH]; cbn [forallb app Py.lstrip]; [reflexivity|].
  intros [Hc Hw]%andb_true_iff. rewrite Hc. auto.
Qed.

Lemma lstrip_app s t :
  Py.lstrip (s ++ t) = if forallb isspace s then Py.lstrip t else Py.lstrip s ++ t.
Proof.
  induction s as [|c s IH]; cbn [forallb app Py.lstrip]; [reflexivity|].
  destruct (isspace c); [exact IH | reflexivity].
Qed.

Lemma lstrip_all_ws w : forallb isspace w = true -> Py.lstrip w = [].
Proof.
  intros H. rewrite <- (app_nil_r w), lstrip_ws_app by exact H. reflexivity.
Qed.

Lemma forallb_rev q s : forallb q (rev s) = forallb q s.
Proof.
  induction s as [|c s IH]; [reflexivity|].
  cbn [rev forallb]. rewrite forallb_app, IH. cbn. rewrite andb_true_r.
  apply andb_comm.
Qed.

Lemma rstrip_app_ws s w :
  forallb isspace w = true -> Py.rstrip (s ++ w) = Py.rstrip s.
Proof.
  intros H. unfold Py.rstrip. rewrite rev_app_distr, lstrip_ws_app; [reflexivity|].
  rewrite forallb_rev. exact H.
Qed.

Lemma strip_ws_app w s :
  forallb isspace w = true -> Py.strip (w ++ s) = Py.strip s.
Proof. intros H. unfold Py.strip. rewrite lstrip_ws_app by exact H. reflexivity. Qed.

Lemma strip_app_ws s w :
  forallb isspace w = true -> Py.strip (s ++ w) = Py.strip s.
Proof.
  intros H. unfold Py.strip. rewrite lstrip_app.
  destruct (forallb isspace s) eqn:Es.
  - rewrite (lstrip_all_ws w H), (lstrip_all_ws s Es). reflexivity.
  - apply rstrip_app_ws, H.
Qed.

Lemma lstrip_decomp s :
  exists a, forallb isspace a = true /\ s = a ++ Py.lstrip s.
Proof.
  induction s as [|c s (a & Ha & IH)]; [exists []; split; reflexivity|].
  cbn [Py.lstrip]. destruct (isspace c) eqn:Ec.
  - exists (c :: a). cbn [forallb app]. rewrite Ec, Ha. split; [reflexivity|].
    f_equal. exact IH.
  - exists []. split; reflexivity.
Qed.

Lemma rstrip_decomp s :
  exists b, forallb isspace b = true /\ s = Py.rstrip s ++ b.
Proof.
  destruct (lstrip_decomp (rev s)) as (a & Ha & Hs).
  exists (rev a). rewrite forallb_rev. split; [exact Ha|].
  unfold Py.rstrip. rewrite <- rev_app_distr, <- Hs, rev_involutive. reflexivity.
Qed.

Lemma strip_decomp s :
  exists a b, forallb isspace a = true /\ forallb isspace b = true
              /\ s = a ++ Py.strip s ++ b.
Proof.
  destruct (lstrip_decomp s) as (a & Ha & Hs).
  destruct (rstrip_decomp (Py.lstrip s)) as (b & Hb & Hl).
  exists a, b. repeat split; auto. unfold Py.strip. rewrite <- Hl. exact Hs.
Qed.

Lemma collapse_ws_all_ws b w :
  forallb isspace w = true -> forallb isspace (collapse_ws b w) = true.
Proof.
  revert b. induction w as [|c w IH]; intros b; cbn [forallb collapse_ws];
    [reflexivity|].
  intros [Hc Hw]%andb_true_iff. rewrite Hc.
  destruct b; cbn [forallb]; rewrite ?IH by exact Hw; reflexivity.
Qed.

Lemma collapse_ws_ws_app b w s :
  forallb isspace w = true -> w <> [] ->
  collapse_ws b (w ++ s) = (if b then [] else [" "%char]) ++ collapse_ws true s.
Proof.
  revert b. induction w as [|c w IH]; intros b Hw Hne; [congruence|].
  cbn [forallb app collapse_ws] in *.
  apply andb_true_iff in Hw as [Hc Hw]. rewrite Hc.
  destruct w as [|d w].
  - destruct b; reflexivity.
  - rewrite IH by (auto; discriminate). destruct b; reflexivity.
Qed.

Lemma lstrip_collapse_ws b s :
  Py.lstrip (collapse_ws b s) = Py.lstrip (collapse_ws true s).
Proof.
  destruct b; [reflexivity|].
  destruct s as [|c s]; [reflexivity|]. cbn [collapse_ws].
  destruct (isspace c); reflexivity.
Qed.

Lemma collapse_ws_app_ws b s w :
  forallb isspace w = true ->
  exists z, forallb isspace z = true
            /\ collapse_ws b (s ++ w) = collapse_ws b s ++ z.
Proof.
  intros Hw. revert b. induction s as [|c s IH]; intros b.
  - exists (collapse_ws b w). split; [apply collapse_ws_all_ws, Hw | reflexivity].
  - cbn [app collapse_ws]. destruct (isspace c).
    + destruct (IH true) as (z & Hz & ->).
      exists z. destruct b; split; auto.
    + destruct (IH false) as (z & Hz & ->). exists z. split; auto.
Qed.

Lemma collapsed_ws_app w s :
  forallb isspace w = true -> collapsed (w ++ s) = collapsed s.
Proof.
  intros Hw. destruct w as [|c w]; [reflexivity|].
  rewrite !collapsed_eq, collapse_ws_ws_app by (auto; discriminate).
  unfold Py.strip. cbn [app Py.lstrip].
  rewrite (lstrip_collapse_ws false s). reflexivity.
Qed.

Lemma collapsed_app_ws s w :
  forallb isspace w = true -> collapsed (s ++ w) = collapsed s.
Proof.
  intros Hw. rewrite !collapsed_eq.
  destruct (collapse_ws_app_ws false s w Hw) as (z & Hz & ->).
  apply strip_app_ws, Hz.
Qed.

Lemma collapsed_strip s : collapsed (Py.strip s) = collapsed s.
Proof.
  destruct (strip_decomp s) as (a & b & Ha & Hb & Hs).
  rewrite Hs at 2. rewrite collapsed_ws_app, collapsed_app_ws by assumption.
  reflexivity.
Qed.

End Whitespace.

(** ** The anchor pattern of method 1 *)

Section Anchor.

Implicit Types (p n j : nat) (pv : option ascii) (s : pystr)
  (cs : list (nat * (nat * nat))).

Lemma run_seq a b st k :
  Re.run (Re.Seq a b) st k = Re.run a st (fun st1 => Re.run b st1 k).
Proof. reflexivity. Qed.

Lemma run_group_look g a p pv s cs :
  Re.run (Re.Seq (Re.Group g (Re.plus (Re.Chr name_chr))) (Re.Look a))
         (Re.MState p pv s cs) Some
  = plus_chr name_chr
      (fun st' =>
         match Re.run a (Re.MState (Re.pos st') (Re.prev st') (Re.rest st')
                                   ((g, (p, Re.pos st')) :: Re.caps st')) Some with
         | Some st2 => Some (Re.MState (Re.pos st') (Re.prev st') (Re.rest st')
                                       (Re.caps st2))
         | None => None
         end) p pv s cs.
Proof. rewrite <- run_plus_chr. reflexivity. Qed.

Lemma look_sound p pv s cs r :
  Re.run lookahead_this (Re.MState p pv s cs) Some = Some r -> look_ok s /\ Re.caps r = cs.
Proof.
  unfold lookahead_this, ws_run. rewrite run_seq, run_plus_chr. intros H.
  apply plus_chr_some in H as (n & H1 & Hn & Hq & Hk & _).
  rewrite (adv_eta n p pv s cs Hn), run_lit in Hk.
  destruct (Py.startswith (drop n s) TC) eqn:Hs; [|discriminate].
  match type of Hk with
  | Some ?x = Some _ => assert (Hr : r = x) by congruence
  end.
  subst r. rewrite adv_caps. split; [|reflexivity].
  apply startswith_app in Hs as [tail Ht].
  exists (take n s), tail. rewrite <- Ht, take_drop. repeat split; auto.
  intros Hnil. apply (f_equal length) in Hnil. rewrite length_take in Hnil.
  cbn in Hnil. lia.
Qed.

Lemma look_complete p pv s cs :
  look_ok s -> Re.run lookahead_this (Re.MState p pv s cs) Some <> None.
Proof.
  intros (w & tail & -> & Hw & Hq) H.
  unfold lookahead_this, ws_run in H. rewrite run_seq, run_plus_chr in H.
  assert (Hlen : length w <= length (w ++ TC ++ tail)) by (rewrite length_app; lia).
  apply (plus_chr_none _ _ _ _ _ _ H (length w)) in Hlen.
  - rewrite adv_eta, run_lit in Hlen by (rewrite length_app; lia).
    rewrite drop_app_length in Hlen.
    assert (Hs : Py.startswith (TC ++ tail) TC = true)
      by (apply startswith_app; eauto).
    rewrite Hs in Hlen. discriminate.
  - destruct w; [congruence | cbn; lia].
  - rewrite take_app_length. exact Hq.
Qed.

Lemma anchor_sound p pv s cs r :
  Re.run pat_anchor (Re.MState p pv s cs) Some = Some r ->
  exists r1 n j,
    s = CoC ++ r1 /\ 1 <= n /\ 1 <= j /\ n + j <= length r1
    /\ forallb isspace (take n r1) = true
    /\ forallb name_chr (take j (drop n r1)) = true
    /\ look_ok (drop (n + j) r1)
    /\ (forall j', j < j' -> n + j' <= length r1 ->
          forallb name_chr (take j' (drop n r1)) = true ->
          ~ look_ok (drop (n + j') r1))
    /\ Re.pos r = p + length CoC + n + j
    /\ Re.caps r = (1, (p + length CoC + n, p + length CoC + n + j)) :: cs.
Proof.
  unfold pat_anchor. cbn [Re.seq].
  rewrite run_seq, run_lit.
  destruct (Py.startswith s CoC) eqn:Hs; [|discriminate].
  apply startswith_app in Hs as [r1 ->].
  destruct (adv_app CoC p pv r1 cs) as [pv1 ->].
  rewrite run_seq. unfold ws_run at 1. rewrite run_plus_chr. intros H.
  apply plus_chr_some in H as (n & H1 & Hn & Hq & Hk & _).
  rewrite (adv_eta n _ _ _ _ Hn), run_group_look in Hk.
  apply plus_chr_some in Hk as (j & Hj1 & Hj & Hqj & Hkj & Hmax).
  rewrite length_drop in Hj.
  assert (Hjd : j <= length (drop n r1)) by (rewrite length_drop; lia).
  rewrite (adv_eta j _ _ _ _ Hjd) in Hkj.
  cbn [Re.pos Re.prev Re.rest Re.caps] in Hkj.
  rewrite drop_drop in Hkj.
  match type of Hkj with
  | match ?x with _ => _ end = _ => destruct x as [r'|] eqn:Hl; [|discriminate]
  end.
  apply look_sound in Hl as [Hlook Hcaps].
  match type of Hkj with
  | Some ?x = Some _ => assert (Hr : r = x) by congruence
  end.
  subst r. cbn [Re.pos Re.caps].
  exists r1, n, j.
  split; [reflexivity|]. split; [lia|]. split; [lia|]. split; [lia|].
  split; [exact Hq|]. split; [exact Hqj|]. split; [exact Hlook|].
  split; [|split; [reflexivity | exact Hcaps]].
  intros j' Hlt Hle Hq' Hok.
  assert (Hjd' : j' <= length (drop n r1)) by (rewrite length_drop; lia).
  specialize (Hmax j' Hlt Hjd' Hq').
  rewrite (adv_eta j' _ _ _ _ Hjd') in Hmax.
  cbn [Re.pos Re.prev Re.rest Re.caps] in Hmax.
  rewrite drop_drop in Hmax.
  match type of Hmax with
  | match ?x with _ => _ end = _ => destruct x as [r2|] eqn:Hl; [discriminate|]
  end.
  apply look_complete in Hl; [exact Hl | exact Hok].
Qed.

Lemma anchor_complete p pv (r1 : pystr) cs n j :
  1 <= n -> 1 <= j -> n + j <= length r1 ->
  forallb isspace (take n r1) = true ->
  forallb name_chr (take j (drop n r1)) = true ->
  look_ok (drop (n + j) r1) ->
  Re.run pat_anchor (Re.MState p pv (CoC ++ r1) cs) Some <> None.
Proof.
  intros H1 Hj1 Hle Hq Hqj Hok.
  unfold pat_anchor. cbn [Re.seq].
  rewrite run_seq, run_lit.
  assert (Hs : Py.startswith (CoC ++ r1) CoC = true)
    by (apply startswith_app; eauto).
  rewrite Hs. destruct (adv_app CoC p pv r1 cs) as [pv1 ->].
  rewrite run_seq. unfold ws_run at 1. rewrite run_plus_chr. intros H.
  assert (Hn : n <= length r1) by lia.
  pose proof (plus_chr_none _ _ _ _ _ _ H n H1 Hn Hq) as Hk.
  rewrite (adv_eta n _ _ _ _ Hn), run_group_look in Hk.
  assert (Hjd : j <= length (drop n r1)) by (rewrite length_drop; lia).
  pose proof (plus_chr_none _ _ _ _ _ _ Hk j Hj1 Hjd Hqj) as Hkj.
  rewrite (adv_eta j _ _ _ _ Hjd) in Hkj.
  cbn [Re.pos Re.prev Re.rest Re.caps] in Hkj.
  rewrite drop_drop in Hkj.
  match type of Hkj with
  | match ?x with _ => _ end = _ => destruct x as [r'|] eqn:Hl; [discriminate|]
  end.
  apply look_complete in Hl; [exact Hl | exact Hok].
Qed.

End Anchor.

(** ** Method 1 on well-formed spans *)

Section Method1.

Implicit Types (s w pre mid post : pystr).

Lemma isspace_name_chr c : isspace c = true -> name_chr c = true.
Proof.
  intros H. unfold name_chr. rewrite H.
  destruct (chr_in "A" "Z" c), (chr_in "a" "z" c); reflexivity.
Qed.

Lemma forallb_isspace_name_chr w :
  forallb isspace w = true -> forallb name_chr w = true.
Proof.
  rewrite !forallb_forall. intros H c Hc. apply isspace_name_chr, H, Hc.
Qed.

Lemma search_from_skip r p pv pre s :
  (forall a b pv', pre = a ++ b -> b <> [] ->
     Re.match_at r (p + length a) pv' (b ++ s) = None) ->
  exists pv', Re.search_from r p pv (pre ++ s)
              = Re.search_from r (p + length pre) pv' s.
Proof.
  revert p pv. induction pre as [|c pre IH]; intros p pv H.
  - exists pv. cbn. rewrite Nat.add_0_r. reflexivity.
  - cbn [app Re.search_from].
    pose proof (H [] (c :: pre) pv eq_refl ltac:(discriminate)) as H0.
    cbn [length app] in H0. rewrite Nat.add_0_r in H0. rewrite H0.
    destruct (IH (S p) (Some c)) as [pv' ->].
    + intros a b pv' -> Hb.
      specialize (H (c :: a) b pv' eq_refl Hb). cbn [length app] in H.
      rewrite <- H. f_equal. lia.
    + exists pv'. cbn [length]. f_equal. lia.
Qed.

Lemma search_from_hit r p pv s m :
  Re.match_at r p pv s = Some m -> Re.search_from r p pv s = Some m.
Proof. intros H. destruct s; cbn [Re.search_from]; rewrite H; reflexivity. Qed.

(** A match of the anchor pattern spans a well-formed text. *)
Lemma span_of_match (r1 : pystr) n j :
  1 <= n -> 1 <= j -> n + j <= length r1 ->
  forallb isspace (take n r1) = true ->
  forallb name_chr (take j (drop n r1)) = true ->
  look_ok (drop (n + j) r1) ->
  exists w tail,
    (forallb isspace w = true /\ w <> [])
    /\ r1 = (take (n + j) r1 ++ w) ++ TC ++ tail
    /\ well_formed_span (take (n + j) r1 ++ w) = true.
Proof.
  intros Hn Hj Hle Hq Hqj (w & tail & Hd & Hw & Hqw).
  exists w, tail. split; [split; assumption|]. split.
  - rewrite <- app_assoc, <- Hd, take_drop. reflexivity.
  - unfold well_formed_span. rewrite !andb_true_iff. repeat split.
    + apply Nat.leb_le. rewrite length_app, length_take.
      destruct w; [congruence|]. cbn [length]. lia.
    + rewrite forallb_app, <- take_take_drop.
      rewrite forallb_app, Hqj, (forallb_isspace_name_chr _ Hq),
        (forallb_isspace_name_chr _ Hqw).
      reflexivity.
    + destruct r1 as [|c r1]; [cbn in Hle; lia|].
      destruct n as [|n]; [lia|]. cbn [take forallb] in Hq.
      apply andb_true_iff in Hq as [Hc _]. exact Hc.
    + rewrite rev_app_distr.
      destruct (rev w) as [|d rw] eqn:Erw.
      * apply (f_equal (@rev ascii)) in Erw. rewrite rev_involutive in Erw.
        cbn in Erw. congruence.
      * cbn [app]. rewrite <- forallb_rev, Erw in Hqw. cbn [forallb] in Hqw.
        apply andb_true_iff in Hqw as [Hd' _]. exact Hd'.
Qed.

Lemma well_formed_span_inv mid :
  well_formed_span mid = true ->
  exists c g d, mid = c :: g ++ [d] /\ isspace c = true /\ isspace d = true
                /\ g <> [] /\ forallb name_chr g = true.
Proof.
  unfold well_formed_span. rewrite !andb_true_iff.
  intros [[[Hlen Hq] Hc] Hd]. apply Nat.leb_le in Hlen.
  destruct mid as [|c mid]; [discriminate|].
  destruct (rev (c :: mid)) as [|d rm] eqn:Er; [discriminate|].
  apply (f_equal (@rev ascii)) in Er. rewrite rev_involutive in Er.
  cbn [rev] in Er.
  destruct (rev rm) as [|c' g] eqn:Eg.
  - apply (f_equal length) in Er. cbn in Er, Hlen. lia.
  - cbn [app] in Er. injection Er as -> ->.
    exists c', g, d. repeat split; auto.
    + intros ->. cbn in Hlen. lia.
    + cbn [forallb] in Hq. apply andb_true_iff in Hq as [_ Hq].
      rewrite forallb_app in Hq. apply andb_true_iff in Hq as [Hq _]. exact Hq.
Qed.

Lemma take_prefix {A} (x y l : list A) : l = x ++ y -> take (length x) l = x.
Proof. intros ->. apply take_app_length. Qed.

Lemma group1_slice pre r1 text n j m :
  text = pre ++ CoC ++ r1 ->
  n + j <= length r1 ->
  Re.m_caps m = [(1, (length pre + length CoC + n, length pre + length CoC + n + j))] ->
  Re.group text m 1 = take j (drop n r1).
Proof.
  intros -> Hle Hc. unfold Re.group. rewrite Hc. cbn [Re.lookup_cap Nat.eqb].
  unfold Py.slice.
  replace (length pre + length CoC + n + j - (length pre + length CoC + n))
    with j by lia.
  rewrite <- Nat.add_assoc, <- drop_drop, drop_app_length.
  rewrite <- drop_drop, drop_app_length. reflexivity.
Qed.

End Method1.

(** C8 (as amended).  In a text of the form
    [pre ++ "CERTIFICATE OF COMPLETION" ++ mid ++ "This certificate" ++ post]
    where [mid] is well formed, no well-formed span starts further left
    and none from the same start is longer (the capture is greedy: it runs
    to the last "This certificate" it can reach), method 1 extracts [mid]
    with its whitespace runs collapsed to one space and its ends
    trimmed. *)
Theorem anchor_capture_leftmost_longest (pre mid post : pystr) :
  let text := pre ++ CoC ++ mid ++ TC ++ post in
  well_formed_span mid = true ->
  (forall pre' mid' post',
     text = pre' ++ CoC ++ mid' ++ TC ++ post' ->
     well_formed_span mid' = true -> length pre <= length pre') ->
  (forall mid' post',
     mid ++ TC ++ post = mid' ++ TC ++ post' ->
     well_formed_span mid' = true -> length mid' <= length mid) ->
  method1 text None = Some (collapsed mid).
Proof.
  intros text Hwf Hleft Hlong.
  (* no match starts inside [pre] *)
  assert (Hskip : forall a b pv', pre = a ++ b -> b <> [] ->
            Re.match_at pat_anchor (0 + length a) pv'
              (b ++ CoC ++ mid ++ TC ++ post) = None).
  { intros a b pv' Hpre Hb. unfold Re.match_at.
    destruct (Re.run pat_anchor _ Some) as [r|] eqn:Hr; [|reflexivity].
    exfalso.
    apply anchor_sound in Hr
      as (r1 & n & j & Hs & Hn & Hj & Hle & Hq & Hqj & Hok & _).
    destruct (span_of_match r1 n j Hn Hj Hle Hq Hqj Hok)
      as (w & tail & _ & Hr1 & Hwf').
    assert (Hlen : length pre <= length a).
    { apply (Hleft a (take (n + j) r1 ++ w) tail); [|exact Hwf'].
      unfold text. rewrite Hpre, <- app_assoc, Hs.
      rewrite Hr1 at 1. rewrite <- !app_assoc. reflexivity. }
    rewrite Hpre, length_app in Hlen. destruct b; [congruence|]. cbn in Hlen. lia. }
  destruct (search_from_skip pat_anchor 0 None pre _ Hskip) as [pv' Hsearch].
  (* there is a match at the end of [pre] *)
  destruct (well_formed_span_inv mid Hwf) as (c & g & d & Hmid & Hc & Hd & Hg & Hqg).
  set (r1 := mid ++ TC ++ post).
  destruct (Re.run pat_anchor (Re.MState (0 + length pre) pv' (CoC ++ r1) []) Some)
    as [r|] eqn:Hr.
  2:{ exfalso. revert Hr. apply (anchor_complete _ _ r1 [] 1 (length g)).
      - lia.
      - destruct g; [congruence | cbn; lia].
      - unfold r1. rewrite Hmid, length_app. cbn [length].
        rewrite length_app. lia.
      - unfold r1. rewrite Hmid. cbn [app take forallb]. rewrite Hc. reflexivity.
      - unfold r1. rewrite Hmid. cbn [app drop].
        rewrite drop_0, <- app_assoc, take_app_length. exact Hqg.
      - exists [d], post. unfold r1. rewrite Hmid.
        change (1 + length g) with (S (length g)). cbn [app drop].
        rewrite <- app_assoc, drop_app_length. cbn [forallb]. rewrite Hd.
        split; [reflexivity|]. split; [discriminate | reflexivity]. }
  pose proof Hr as Hsound.
  apply anchor_sound in Hsound
    as (r1' & n & j & Hs & Hn & Hj & Hle & Hq & Hqj & Hok & Hmax & Hpos & Hcaps).
  apply app_inv_head in Hs. subst r1'.
  destruct (span_of_match r1 n j Hn Hj Hle Hq Hqj Hok)
    as (w & tail & [Hw Hwne] & Hr1 & Hwf').
  (* the span matched is [mid] itself *)
  assert (Hlen : length (take (n + j) r1 ++ w) = length mid).
  { apply Nat.le_antisymm.
    - apply (Hlong _ tail); [|exact Hwf']. fold r1. rewrite Hr1 at 1.
      rewrite <- !app_assoc. reflexivity.
    - destruct (Nat.le_gt_cases (length mid) (length (take (n + j) r1 ++ w)))
        as [?|Hlt]; [assumption|]. exfalso.
      rewrite length_app, length_take, Nat.min_l in Hlt by lia.
      assert (Hw1 : 1 <= length w) by (destruct w; [congruence | cbn; lia]).
      apply (Hmax (length mid - 1 - n)); try lia.
      + unfold r1. rewrite length_app. lia.
      + assert (Hqm : forallb name_chr mid = true).
        { unfold well_formed_span in Hwf. rewrite !andb_true_iff in Hwf. tauto. }
        rewrite forallb_forall in *. intros x Hx. apply Hqm.
        apply list_elem_of_In in Hx. apply list_elem_of_In.
        apply elem_of_take in Hx as (i & Hx & Hi).
        rewrite lookup_drop in Hx. unfold r1 in Hx.
        rewrite lookup_app_l in Hx by lia.
        eapply list_elem_of_lookup_2, Hx.
      + replace (n + (length mid - 1 - n)) with (length mid - 1) by lia.
        exists [d], post. unfold r1. rewrite Hmid. cbn [length].
        rewrite length_app. cbn [length].
        replace (S (length g + 1) - 1) with (S (length g)) by lia.
        cbn [app drop]. rewrite <- app_assoc, drop_app_length.
        cbn [forallb]. rewrite Hd.
        split; [reflexivity|]. split; [discriminate | reflexivity]. }
  assert (Hmid' : mid = take n r1 ++ take j (drop n r1) ++ w).
  { assert (H1 : mid = take (length mid) r1)
      by (unfold r1; rewrite take_app_length; reflexivity).
    assert (H2 : take (n + j) r1 ++ w = take (length mid) r1).
    { rewrite <- Hlen. symmetry. apply (take_prefix _ (TC ++ tail)), Hr1. }
    rewrite H1 at 1. rewrite <- H2, <- take_take_drop, <- app_assoc.
    reflexivity. }
  (* the name is made from group 1 *)
  unfold method1, Re.search. unfold text. rewrite Hsearch.
  fold r1. erewrite search_from_hit
    by (unfold Re.match_at; rewrite Hr; reflexivity).
  rewrite (group1_slice pre r1 _ n j); [| reflexivity | exact Hle |].
  2:{ cbn [Re.m_caps]. rewrite Hcaps. cbn [Nat.add]. reflexivity. }
  fold (collapsed (Py.strip (take j (drop n r1)))).
  destruct (negb _); f_equal;
    rewrite collapsed_strip, Hmid', collapsed_ws_app, collapsed_app_ws;
    auto.
Qed.

Section Occurrences.

Implicit Types (sub a b s : pystr).

Lemma contains_app sub a b : Py.contains sub (a ++ sub ++ b) = true.
Proof.
  induction a as [|c a IH].
  - assert (H : Py.startswith (sub ++ b) sub = true)
      by (apply startswith_app; eauto).
    cbn [app]. destruct (sub ++ b); cbn [Py.contains]; rewrite H; reflexivity.
  - cbn [app Py.contains]. rewrite IH. apply orb_true_r.
Qed.

(** No occurrence of [sub] ends within the first [length a + length sub
    - 1] characters: every occurrence starts at [length a] or later. *)
Lemma first_occurrence sub a s :
  Py.contains sub (take (length a + length sub - 1) (a ++ s)) = false ->
  forall a' x, a ++ s = a' ++ sub ++ x -> length a <= length a'.
Proof.
  intros H a' x E.
  destruct (Nat.le_gt_cases (length a) (length a')) as [?|Hlt]; [assumption|].
  exfalso. rewrite E in H.
  rewrite take_app_ge, take_app_ge in H by lia.
  rewrite contains_app in H. discriminate.
Qed.

(** No occurrence of [sub] starts after the first [length a] characters:
    every occurrence starts at [length a] or earlier. *)
Lemma last_occurrence sub a s :
  Py.contains sub (drop (length a + 1) (a ++ s)) = false ->
  forall a' x, a ++ s = a' ++ sub ++ x -> length a' <= length a.
Proof.
  intros H a' x E.
  destruct (Nat.le_gt_cases (length a') (length a)) as [?|Hlt]; [assumption|].
  exfalso. rewrite E in H.
  rewrite drop_app_le in H by lia.
  rewrite contains_app in H. discriminate.
Qed.

End Occurrences.

Lemma anchor_capture_leftmost_longest_witness :
  method1 (str "ACME " ++ two_anchors_text) None
  = Some (str "John Doe This certificate is awarded.").
Proof.
  apply (anchor_capture_leftmost_longest (str "ACME ")
           (str " John Doe This certificate is awarded. ") (str " is valid")).
  - reflexivity.
  - intros pre' mid' post' E _.
    refine (first_occurrence CoC _ _ _ pre' (mid' ++ TC ++ post') E).
    reflexivity.
  - intros mid' post' E _. revert mid' post' E.
    apply last_occurrence. reflexivity.
Defined.

(** C8, counterexample.  The text holds the well-formed span
    "CERTIFICATE OF COMPLETION John Doe This certificate", and method 1
    does not extract "John Doe": its capture runs on to the second
    "This certificate". *)
Lemma anchor_capture_not_nearest :
  two_anchors_text
    = [] ++ CoC ++ str " John Doe " ++ TC ++ str " is awarded. This certificate is valid"
  /\ well_formed_span (str " John Doe ") = true
  /\ collapsed (str " John Doe ") = str "John Doe"
  /\ method1 two_anchors_text None <> Some (collapsed (str " John Doe ")).
Proof.
  split; [reflexivity|]. split; [reflexivity|]. split; [reflexivity|].
  vm_compute. discriminate.
Qed.

(** C7, counterexample.  Method 1 fails on the text, its only line with
    "CERTIFICATE OF COMPLETION" is followed by the line "John Doe 3rd" and
    then by a line with "This certificate", and method 2 finds nothing:
    its scan stopped at the earlier line with "This certificate". *)
Lemma method2_stops_at_first_marker :
  Re.search pat_anchor early_marker_text = None
  /\ strategy2_spec early_marker_text = Some (str "John Doe 3rd")
  /\ method2 early_marker_text None = None
  /\ method2 early_marker_text None <> strategy2_spec early_marker_text.
Proof.
  split; [reflexivity|]. split; [reflexivity|]. split; [reflexivity|].
  vm_compute. discriminate.
Qed.

(** ** The page loop *)

Lemma pages_loop_output raises pages_dir texts i st st' :
  pages_loop raises pages_dir texts i st = Some st' ->
  output_files st' =
    output_files st
    ++ imap (fun k text => path_join pages_dir (output_filename (i + k) text)) texts.
Proof.
  revert i st. induction texts as [|text texts IH]; intros i st.
  - cbn. intros [= <-]. rewrite app_nil_r. reflexivity.
  - cbn [pages_loop imap]. unfold write_page.
    destruct (raises i _); [discriminate|]. intros H.
    rewrite (IH _ _ H). cbn [output_files].
    rewrite <- app_assoc. cbn [app]. rewrite Nat.add_0_r.
    do 2 f_equal. apply imap_ext. intros k t _. cbn [compose].
    replace (S i + k) with (i + S k) by lia. reflexivity.
Qed.

(** ** Method 1 *)

(** C4.  When the anchor pattern matches, the name after method 1 is the
    captured text, stripped and with its whitespace collapsed, whether or
    not it holds "Chief Operating" or "Operations Manager": the test on the
    titles changes nothing.  When that name is not empty, and so whenever
    it holds one of the titles, the extractor returns it after the final
    cleanup. *)
Theorem method1_keeps_titles (text : pystr) (m : Re.rmatch) :
  let text' := Py.replace text ["000"%char] [] in
  let name := collapsed (Py.strip (Re.group text' m 1)) in
  Re.search pat_anchor text' = Some m ->
  method1 text' None = Some name
  /\ (name <> [] -> extract_name_from_text text = Some (strip_boilerplate name))
  /\ (Py.any_in titles name = true ->
      extract_name_from_text text = Some (strip_boilerplate name)).
Proof.
  intros text' name Hm.
  assert (H1 : method1 text' None = Some name).
  { unfold method1. rewrite Hm. fold (collapsed (Py.strip (Re.group text' m 1))).
    fold name. destruct (negb (Py.any_in titles name)); reflexivity. }
  assert (H2 : name <> [] ->
               extract_name_from_text text = Some (strip_boilerplate name)).
  { intros Hne. unfold extract_name_from_text. fold text'.
    destruct text' as [|c t] eqn:Et; [discriminate Hm|].
    rewrite H1. destruct name as [|a n]; [congruence|]. reflexivity. }
  split; [exact H1|]. split; [exact H2|].
  intros Ht. apply H2. intros Hn. rewrite Hn in Ht. discriminate Ht.
Qed.

Lemma method1_keeps_titles_witness :
  Py.any_in titles (str "Chief Operating Officer") = true
  /\ extract_name_from_text
       (str "CERTIFICATE OF COMPLETION Chief Operating Officer This certificate")
     = Some (str "Chief Operating Officer").
Proof.
  split; [reflexivity|].
  refine (proj2 (proj2 (method1_keeps_titles
           (str "CERTIFICATE OF COMPLETION Chief Operating Officer This certificate")
           (Re.RMatch 0 49 [(1, (26, 49))]) _)) _).
  - vm_compute. reflexivity.
  - vm_compute. reflexivity.
Defined.

(** ** Method 2 *)

Section Method2.

Lemma first_index_cons {A} (p : A -> bool) x l :
  first_index p (x :: l) = if p x then Some 0 else S <$> first_index p l.
Proof.
  unfold first_index. cbn [list_find].
  destruct (p x); cbn.
  - reflexivity.
  - destruct (list_find _ l) as [[i y]|]; reflexivity.
Qed.

Lemma find_markers_spec lines (i ci : Z) :
  find_markers lines i ci =
    match first_index (Py.contains TC) lines with
    | Some j =>
        (match last_index (Py.contains CoC) (take (S j) lines) with
         | Some k => (i + Z.of_nat k)%Z
         | None => ci
         end, (i + Z.of_nat j)%Z)
    | None =>
        (match last_index (Py.contains CoC) lines with
         | Some k => (i + Z.of_nat k)%Z
         | None => ci
         end, (-1)%Z)
    end.
Proof.
  revert i ci. induction lines as [|line lines IH]; intros i ci.
  - reflexivity.
  - cbn [find_markers]. rewrite first_index_cons.
    destruct (Py.contains TC line).
    + cbn [take last_index]. rewrite take_0. cbn [last_index].
      destruct (Py.contains CoC line); f_equal; lia.
    + rewrite IH. destruct (first_index (Py.contains TC) lines) as [j|];
        cbn [fmap option_fmap option_map take last_index].
      * destruct (last_index _ (take (S j) lines)) as [k|].
        -- f_equal; lia.
        -- destruct (Py.contains CoC line); f_equal; lia.
      * destruct (last_index _ lines) as [k|].
        -- f_equal; lia.
        -- destruct (Py.contains CoC line); f_equal; lia.
Qed.

Lemma getitem_nat lines (a : nat) :
  Py.getitem lines (Z.of_nat a) = nth a lines [].
Proof.
  unfold Py.getitem.
  destruct (Z.ltb_spec (Z.of_nat a) 0); [lia|].
  destruct (Z.ltb_spec (Z.of_nat a) 0); [lia|].
  rewrite Nat2Z.id. reflexivity.
Qed.

Lemma scan_lines_window lines name (n a : nat) :
  scan_lines lines (seqZ (Z.of_nat a) (Z.of_nat n)) name =
    match head (filter (fun c => acceptable_line c = true)
                       (map Py.strip (take n (drop a lines)))) with
    | Some c => Some c
    | None => name
    end.
Proof.
  revert a. induction n as [|n IH]; intros a.
  - reflexivity.
  - rewrite seqZ_cons by lia. cbn [scan_lines].
    replace (Z.succ (Z.of_nat a)) with (Z.of_nat (S a)) by lia.
    replace (Z.pred (Z.of_nat (S n))) with (Z.of_nat n) by lia.
    rewrite IH, getitem_nat.
    rewrite nth_lookup.
    destruct (lines !! a) as [x|] eqn:E; unfold default, from_option, id.
    + rewrite (drop_S _ _ _ E). cbn [take map]. rewrite filter_cons.
      destruct (acceptable_line (Py.strip x)); case_decide;
        try congruence; reflexivity.
    + apply lookup_ge_None in E.
      rewrite (drop_ge lines a), (drop_ge lines (S a)) by lia.
      rewrite !take_nil. reflexivity.
Qed.

End Method2.

(** C7 (as amended).  Method 2 cuts the text into lines, takes the first
    line of the whole text that holds "This certificate" and the last
    line up to it that holds "CERTIFICATE OF COMPLETION"; when both exist
    and the latter comes strictly first, it returns the first line
    strictly between them which, stripped, is non-empty, does not start
    with "Chief", does not end with "Officer" and does not hold
    "Manager"; otherwise it leaves the name as it was. *)
Theorem method2_line_window (text : pystr) (name : option pystr) :
  method2 text name =
    match line_window_scan text with
    | Some candidate => Some candidate
    | None => name
    end.
Proof.
  unfold method2, line_window_scan, marker_window.
  set (lines := Py.split_on "010" text).
  rewrite find_markers_spec.
  destruct (first_index (Py.contains TC) lines) as [j|] eqn:Ej.
  - destruct (last_index (Py.contains CoC) (take (S j) lines)) as [k|] eqn:Ek.
    + destruct (Z.eqb_spec (0 + Z.of_nat k) (-1)); [lia|].
      destruct (Z.eqb_spec (0 + Z.of_nat j) (-1)); [lia|]. cbn [negb andb].
      destruct (Z.ltb_spec (0 + Z.of_nat k) (0 + Z.of_nat j)) as [Hlt|Hge];
        destruct (Nat.ltb_spec k j); try lia; [|reflexivity].
      replace (0 + Z.of_nat k + 1)%Z with (Z.of_nat (S k)) by lia.
      replace (0 + Z.of_nat j - Z.of_nat (S k))%Z with (Z.of_nat (j - k - 1)) by lia.
      apply scan_lines_window.
    + reflexivity.
  - destruct (last_index _ lines); cbn; [|reflexivity].
    rewrite andb_false_r. reflexivity.
Qed.

(** ** Grouping *)

Section Grouping.

Variables pages_dir organized_dir : pystr.

Lemma organize_file_folder pdf_file st :
  organize_file pages_dir organized_dir pdf_file st =
    match folder_of pdf_file with
    | Some n =>
        GroupState (created_folders st ∪ {[n]})
                   (organized_files st ++ [dest_of organized_dir n])
                   (<[dest_of organized_dir n := path_join pages_dir pdf_file]> (organized_tree st))
    | None => st
    end.
Proof.
  unfold organize_file, folder_of.
  destruct (Py.endswith _ _); [|reflexivity].
  destruct (Re.rematch _ _) as [m|]; [|reflexivity].
  destruct (Py.eqb _ _); [reflexivity|].
  f_equal. case_bool_decide; [set_solver | reflexivity].
Qed.

Lemma organize_snoc listing pdf_file :
  organize pages_dir organized_dir (listing ++ [pdf_file]) =
    organize_file pages_dir organized_dir pdf_file
      (organize pages_dir organized_dir listing).
Proof. unfold organize. rewrite foldl_app. reflexivity. Qed.

Lemma organize_created listing :
  created_folders (organize pages_dir organized_dir listing)
  = list_to_set (omap folder_of listing).
Proof.
  induction listing as [|f listing IH] using rev_ind; [reflexivity|].
  rewrite organize_snoc, organize_file_folder, omap_app, list_to_set_app_L.
  rewrite <- IH. cbn. destruct (folder_of f); cbn; set_solver.
Qed.

Lemma organize_files listing :
  organized_files (organize pages_dir organized_dir listing)
  = map (dest_of organized_dir) (omap folder_of listing).
Proof.
  induction listing as [|f listing IH] using rev_ind; [reflexivity|].
  rewrite organize_snoc, organize_file_folder, omap_app, map_app.
  rewrite <- IH. cbn. destruct (folder_of f); cbn;
    [reflexivity | symmetry; apply app_nil_r].
Qed.

(** Whatever the listing, the files under [organized_dir] are the
    [dest_of] paths of the folders: one path per folder. *)
Lemma organize_tree_dom listing :
  dom (organized_tree (organize pages_dir organized_dir listing))
  = set_map (dest_of organized_dir) (created_folders (organize pages_dir organized_dir listing)).
Proof.
  induction listing as [|f listing IH] using rev_ind.
  - cbn. rewrite dom_empty_L. set_solver.
  - rewrite organize_snoc, organize_file_folder.
    destruct (folder_of f); [|exact IH].
    cbn [organized_tree created_folders].
    rewrite dom_insert_L, IH. set_solver.
Qed.

End Grouping.

(** C3.  Grouping the three outputs of the example, in whatever order the
    directory lists them, makes the one folder "Cruz, Juan" and skips
    "unknown"; both pages of Juan Cruz are copied, but onto the same path
    "Cruz, Juan/Cruz, Juan.pdf", so the folder ends with one file. *)
Theorem grouping_example_one_file
  (pages_dir organized_dir : pystr) (listing : list pystr) :
  listing ≡ₚ example_outputs ->
  let st := organize pages_dir organized_dir listing in
  created_folders st = {[ str "Cruz, Juan" ]}
  /\ length (organized_files st) = 2
  /\ (forall p, p ∈ organized_files st -> p = dest_of organized_dir (str "Cruz, Juan"))
  /\ dom (organized_tree st) = {[ dest_of organized_dir (str "Cruz, Juan") ]}
  /\ size (organized_tree st) = 1.
Proof.
  intros Hperm st.
  assert (Hfolders : omap folder_of listing ≡ₚ [str "Cruz, Juan"; str "Cruz, Juan"]).
  { rewrite Hperm. reflexivity. }
  assert (Hc : created_folders st = {[ str "Cruz, Juan" ]}).
  { subst st. rewrite organize_created.
    rewrite (list_to_set_perm_L _ _ Hfolders). cbn. set_solver. }
  assert (Hd : dom (organized_tree st) = {[ dest_of organized_dir (str "Cruz, Juan") ]}).
  { subst st. rewrite organize_tree_dom, Hc. set_solver. }
  repeat split.
  - exact Hc.
  - subst st. rewrite organize_files, length_map, Hfolders. reflexivity.
  - subst st. rewrite organize_files. intros p Hp.
    apply list_elem_of_fmap in Hp as (n & -> & Hn).
    rewrite Hfolders in Hn. f_equal. set_solver.
  - exact Hd.
  - rewrite <- size_dom, Hd. apply size_singleton.
Qed.

Lemma grouping_example_one_file_witness :
  size (organized_tree (organize (str "pages") (str "organized") example_outputs)) = 1.
Proof.
  refine (proj2 (proj2 (proj2 (proj2
    (grouping_example_one_file (str "pages") (str "organized") example_outputs _))))).
  reflexivity.
Defined.

(** ** Words: [split] and [join] *)

Section Words.

Implicit Types (s w cur : pystr) (l : list pystr).

Lemma good_token_rev w : good_token (rev w) = good_token w.
Proof.
  unfold good_token. rewrite forallb_rev.
  destruct w as [|c w]; [reflexivity|].
  cbn [rev]. destruct (rev w); reflexivity.
Qed.

Lemma split_from_good s cur :
  forallb (fun c => negb (isspace c)) cur = true ->
  forallb good_token (Py.split_from s cur) = true.
Proof.
  revert cur. induction s as [|c s IH]; intros cur Hcur; cbn [Py.split_from].
  - destruct cur as [|d cur]; [reflexivity|].
    cbn [forallb]. rewrite good_token_rev. unfold good_token. rewrite Hcur.
    reflexivity.
  - destruct (isspace c) eqn:Ec.
    + destruct cur as [|d cur]; [apply IH; reflexivity|].
      cbn [forallb]. rewrite good_token_rev, IH by reflexivity.
      unfold good_token. rewrite Hcur. reflexivity.
    + apply IH. cbn [forallb]. rewrite Ec, Hcur. reflexivity.
Qed.

Lemma split_good s : forallb good_token (Py.split s) = true.
Proof. apply split_from_good. reflexivity. Qed.

Lemma good_token_inv w :
  good_token w = true ->
  exists c v, w = c :: v /\ isspace c = false
              /\ forallb (fun c => negb (isspace c)) w = true.
Proof.
  unfold good_token. destruct w as [|c v]; [discriminate|].
  intros H. exists c, v. split; [reflexivity|].
  split; [|exact H]. cbn [forallb] in H.
  apply andb_true_iff in H as [H _]. destruct (isspace c); [discriminate|reflexivity].
Qed.

Lemma lstrip_good w s : good_token w = true -> Py.lstrip (w ++ s) = w ++ s.
Proof.
  intros (c & v & -> & Hc & _)%good_token_inv. cbn [app Py.lstrip].
  rewrite Hc. reflexivity.
Qed.

Lemma rstrip_good s w : good_token w = true -> Py.rstrip (s ++ w) = s ++ w.
Proof.
  intros H. unfold Py.rstrip. rewrite rev_app_distr, lstrip_good.
  - rewrite <- rev_app_distr, rev_involutive. reflexivity.
  - rewrite good_token_rev. exact H.
Qed.

Lemma strip_good w : good_token w = true -> Py.strip w = w.
Proof.
  intros H. unfold Py.strip.
  rewrite <- (app_nil_r w) at 1. rewrite lstrip_good by exact H.
  rewrite app_nil_r, <- (app_nil_l w) at 1. rewrite rstrip_good by exact H.
  reflexivity.
Qed.

Lemma join_cons_ne sep w w' l :
  Py.join sep (w :: w' :: l) = w ++ sep ++ Py.join sep (w' :: l).
Proof. reflexivity. Qed.

Lemma join_snoc sep l w :
  l <> [] -> Py.join sep (l ++ [w]) = Py.join sep l ++ sep ++ w.
Proof.
  induction l as [|a l IH]; [congruence|]. intros _.
  destruct l as [|b l]; [reflexivity|].
  change ((a :: b :: l) ++ [w]) with (a :: (b :: l) ++ [w]).
  cbn [app]. rewrite join_cons_ne. cbn [app] in IH. rewrite IH by discriminate.
  rewrite join_cons_ne, <- !app_assoc. reflexivity.
Qed.

(** A joined list of words starts and ends with a word. *)
Lemma join_good_ends l :
  forallb good_token l = true -> l <> [] ->
  exists c v d u, Py.join (str " ") l = c :: v /\ isspace c = false
                  /\ rev (Py.join (str " ") l) = d :: u /\ isspace d = false.
Proof.
  intros Hl Hne.
  assert (Hhead : exists c v, Py.join (str " ") l = c :: v /\ isspace c = false).
  { destruct l as [|w l]; [congruence|]. cbn [forallb] in Hl.
    apply andb_true_iff in Hl as [Hw _].
    apply good_token_inv in Hw as (c & v & -> & Hc & _).
    destruct l; cbn [Py.join app]; eauto. }
  assert (Hlast : exists d u, rev (Py.join (str " ") l) = d :: u /\ isspace d = false).
  { destruct (exists_last Hne) as (l0 & w & ->).
    rewrite forallb_app in Hl. apply andb_true_iff in Hl as [_ Hw].
    cbn [forallb] in Hw. rewrite andb_true_r in Hw.
    rewrite <- good_token_rev in Hw.
    apply good_token_inv in Hw as (d & u & Hr & Hd & _).
    destruct l0 as [|a l0].
    - cbn [app Py.join]. eauto.
    - rewrite join_snoc by discriminate. rewrite !rev_app_distr, Hr.
      cbn [app]. eauto. }
  destruct Hhead as (c & v & H1 & H2), Hlast as (d & u & H3 & H4).
  exists c, v, d, u. auto.
Qed.

Lemma strip_no_ws_ends s c v d u :
  s = c :: v -> isspace c = false -> rev s = d :: u -> isspace d = false ->
  Py.strip s = s.
Proof.
  intros Hs Hc Hr Hd. unfold Py.strip, Py.rstrip.
  rewrite Hs at 1. cbn [Py.lstrip]. rewrite Hc, <- Hs, Hr.
  cbn [Py.lstrip]. rewrite Hd, <- Hr. apply rev_involutive.
Qed.

Lemma strip_join_good l :
  forallb good_token l = true ->
  Py.strip (Py.join (str " ") l) = Py.join (str " ") l.
Proof.
  intros Hl. destruct l as [|w l]; [reflexivity|].
  destruct (join_good_ends (w :: l) Hl) as (c & v & d & u & H1 & H2 & H3 & H4);
    [discriminate|].
  eapply strip_no_ws_ends; eauto.
Qed.

(** Reading a word, then the rest. *)
Lemma split_from_word w s cur :
  forallb (fun c => negb (isspace c)) w = true ->
  Py.split_from (w ++ s) cur = Py.split_from s (rev w ++ cur).
Proof.
  revert cur. induction w as [|c w IH]; intros cur Hw; [reflexivity|].
  cbn [forallb] in Hw. apply andb_true_iff in Hw as [Hc Hw].
  cbn [app Py.split_from]. destruct (isspace c); [discriminate|].
  rewrite IH by exact Hw. cbn [rev]. rewrite <- app_assoc. reflexivity.
Qed.

Lemma split_join_good l :
  forallb good_token l = true -> Py.split (Py.join (str " ") l) = l.
Proof.
  unfold Py.split. induction l as [|w l IH]; intros Hl; [reflexivity|].
  cbn [forallb] in Hl. apply andb_true_iff in Hl as [Hw Hl].
  pose proof Hw as (c & v & Hwv & Hc & Hall)%good_token_inv.
  destruct l as [|w' l].
  - cbn [Py.join]. rewrite <- (app_nil_r w) at 1.
    rewrite split_from_word by exact Hall.
    cbn [Py.split_from]. rewrite app_nil_r.
    destruct (rev w) eqn:Er.
    + apply (f_equal (@rev ascii)) in Er. rewrite rev_involutive in Er.
      cbn in Er. congruence.
    + rewrite <- Er, rev_involutive. reflexivity.
  - rewrite join_cons_ne, split_from_word by exact Hall.
    rewrite app_nil_r. destruct (rev w) as [|a r] eqn:Er.
    + apply (f_equal (@rev ascii)) in Er. rewrite rev_involutive in Er.
      cbn in Er. congruence.
    + change (str " " ++ Py.join (str " ") (w' :: l))
        with (" "%char :: Py.join (str " ") (w' :: l)).
      cbn [Py.split_from]. change (isspace " ") with true. cbn iota.
      rewrite <- Er, rev_involutive, IH by exact Hl. reflexivity.
Qed.

Lemma join_nil_inv l :
  forallb good_token l = true -> Py.join (str " ") l = [] -> l = [].
Proof.
  destruct l as [|w l]; [reflexivity|]. intros Hl Hj. exfalso.
  destruct (join_good_ends (w :: l) Hl) as (c & v & _ & _ & H1 & _);
    [discriminate|].
  congruence.
Qed.

End Words.

Section Normal.

Implicit Types (s w cur x y : pystr) (l : list pystr).

Lemma lstrip_nil_inv x : Py.lstrip x = [] -> forallb isspace x = true.
Proof.
  induction x as [|c x IH]; [reflexivity|]. cbn [Py.lstrip forallb].
  destruct (isspace c); [exact IH | discriminate].
Qed.

Lemma strip_nil_inv y : Py.strip y = [] -> forallb isspace y = true.
Proof.
  unfold Py.strip, Py.rstrip. intros H.
  apply (f_equal (@rev ascii)) in H. rewrite rev_involutive in H. cbn in H.
  apply lstrip_nil_inv in H. rewrite forallb_rev in H.
  destruct (lstrip_decomp y) as (a & Ha & Hy). rewrite Hy, forallb_app, Ha, H.
  reflexivity.
Qed.

Lemma lstrip_collapse_true s :
  Py.lstrip (collapse_ws true s) = collapse_ws true s.
Proof.
  induction s as [|c s IH]; [reflexivity|]. cbn [collapse_ws].
  destruct (isspace c) eqn:Ec; [exact IH|]. cbn [Py.lstrip]. rewrite Ec.
  reflexivity.
Qed.

Lemma strip_word_space x y :
  good_token x = true -> Py.lstrip y = y -> Py.strip y <> [] ->
  Py.strip (x ++ " "%char :: y) = x ++ " "%char :: Py.strip y.
Proof.
  intros Hx Hy Hne. unfold Py.strip at 1. rewrite lstrip_good by exact Hx.
  unfold Py.rstrip. rewrite rev_app_distr. cbn [rev]. rewrite <- app_assoc.
  rewrite lstrip_app.
  destruct (forallb isspace (rev y)) eqn:Ey.
  - exfalso. apply Hne. unfold Py.strip, Py.rstrip. rewrite Hy.
    rewrite (lstrip_all_ws _ Ey). reflexivity.
  - rewrite rev_app_distr. cbn [app rev]. rewrite rev_involutive.
    rewrite <- app_assoc. cbn [app].
    unfold Py.strip, Py.rstrip. rewrite Hy. reflexivity.
Qed.

Lemma join_split_from s :
  (forall b, Py.strip (collapse_ws b s) = Py.join (str " ") (Py.split_from s []))
  /\ (forall cur, good_token (rev cur) = true ->
        Py.strip (rev cur ++ collapse_ws false s)
        = Py.join (str " ") (Py.split_from s cur)).
Proof.
  induction s as [|c s [IHa IHb]].
  - split; [reflexivity|]. intros cur Hcur. cbn [collapse_ws Py.split_from].
    rewrite app_nil_r, strip_good by exact Hcur.
    destruct cur; [discriminate Hcur | reflexivity].
  - destruct (isspace c) eqn:Ec.
    + split.
      * intros b. cbn [collapse_ws Py.split_from]. rewrite Ec.
        destruct b; [apply IHa|].
        change (" "%char :: collapse_ws true s)
          with ([" "%char] ++ collapse_ws true s).
        rewrite strip_ws_app by reflexivity. apply IHa.
      * intros cur Hcur. cbn [collapse_ws Py.split_from]. rewrite Ec.
        destruct cur as [|d cur]; [discriminate Hcur|].
        pose proof (IHa true) as Hy.
        pose proof (split_from_good s [] eq_refl) as Hgood.
        destruct (Py.split_from s []) as [|t l] eqn:Et.
        -- cbn [Py.join] in *. apply strip_nil_inv in Hy.
           change (" "%char :: collapse_ws true s)
             with ([" "%char] ++ collapse_ws true s).
           rewrite strip_app_ws, strip_good; auto.
        -- rewrite join_cons_ne, <- Hy.
           apply strip_word_space; [exact Hcur | apply lstrip_collapse_true |].
           rewrite Hy. intros Hnil.
           apply join_nil_inv in Hnil; [discriminate | exact Hgood].
    + split.
      * intros b. cbn [collapse_ws Py.split_from]. rewrite Ec.
        rewrite <- (IHb [c]); [reflexivity|].
        cbn [rev app good_token forallb]. rewrite Ec. reflexivity.
      * intros cur Hcur. cbn [collapse_ws Py.split_from]. rewrite Ec.
        rewrite <- (IHb (c :: cur)).
        -- cbn [rev]. rewrite <- app_assoc. reflexivity.
        -- rewrite good_token_rev in *. destruct cur as [|d cur].
           ++ cbn [good_token forallb]. rewrite Ec. reflexivity.
           ++ cbn [good_token forallb] in *. rewrite Ec. exact Hcur.
Qed.

(** Collapsing and stripping is splitting into words and joining them
    with one space. *)
Lemma collapsed_join_split s : collapsed s = Py.join (str " ") (Py.split s).
Proof. rewrite collapsed_eq. apply (proj1 (join_split_from s)). Qed.

Lemma split_collapsed s : Py.split (collapsed s) = Py.split s.
Proof. rewrite collapsed_join_split. apply split_join_good, split_good. Qed.

Lemma collapsed_idem s : collapsed (collapsed s) = collapsed s.
Proof. rewrite (collapsed_join_split (collapsed s)), split_collapsed.
  symmetry. apply collapsed_join_split. Qed.

End Normal.

(** ** More on the formatter *)

Section FormatterShape.

Implicit Types (name s w : pystr) (parts : list pystr).

Lemma clean_name_collapsed name :
  exists y, clean_name name = collapsed y.
Proof. unfold clean_name, strip_boilerplate, collapsed. eauto. Qed.

Lemma clean_name_join name :
  clean_name name = Py.join (str " ") (Py.split (clean_name name)).
Proof.
  destruct (clean_name_collapsed name) as [y ->].
  rewrite split_collapsed. apply collapsed_join_split.
Qed.

Lemma parts_two_last parts :
  2 <= length parts ->
  exists l0 x y,
    parts = l0 ++ [x; y]
    /\ Py.getitem parts (-2) = x /\ Py.getitem parts (-1) = y
    /\ drop (length parts - 2) parts = [x; y]
    /\ drop (length parts - 1) parts = [y].
Proof.
  intros Hn.
  destruct (exists_last (l := parts)) as (l1 & y & E1);
    [intros ->; cbn in Hn; lia|].
  destruct (exists_last (l := l1)) as (l0 & x & E0).
  { intros ->. subst parts. cbn in Hn. lia. }
  subst l1. rewrite <- app_assoc in E1. cbn [app] in E1.
  exists l0, x, y. split; [exact E1|].
  assert (Hlen : length parts = length l0 + 2)
    by (rewrite E1, length_app; reflexivity).
  unfold Py.getitem. cbn [Z.ltb Z.compare].
  destruct (Z.ltb_spec (Z.of_nat (length parts) + -2) 0); [lia|].
  destruct (Z.ltb_spec (Z.of_nat (length parts) + -1) 0); [lia|].
  replace (Z.to_nat (Z.of_nat (length parts) + -2)) with (length l0) by lia.
  replace (Z.to_nat (Z.of_nat (length parts) + -1)) with (S (length l0)) by lia.
  replace (length parts - 2) with (length l0) by lia.
  replace (length parts - 1) with (length l0 + 1) by lia.
  rewrite E1. repeat split.
  - rewrite app_nth2, Nat.sub_diag by lia. reflexivity.
  - rewrite app_nth2 by lia.
    replace (S (length l0) - length l0) with 1 by lia. reflexivity.
  - apply drop_app_length.
  - rewrite <- drop_drop, drop_app_length. reflexivity.
Qed.

Lemma getitem_0 p parts : Py.getitem (p :: parts) 0 = p.
Proof. reflexivity. Qed.

Lemma getitem_1 p q parts : Py.getitem (p :: q :: parts) 1 = q.
Proof. reflexivity. Qed.

Lemma format_parts_tail parts :
  2 <= length parts ->
  exists k,
    (k = 1 \/ k = length parts - 2 \/ k = length parts - 1)
    /\ 1 <= k < length parts
    /\ format_parts parts
       = Py.join (str " ") (drop k parts) ++ str ", " ++ Py.getitem parts 0.
Proof.
  intros Hlen.
  destruct (parts_two_last parts Hlen) as (l0 & x & y & E & Hx & Hy & Hd2 & Hd1).
  unfold format_parts. rewrite Hx, Hy.
  destruct (Nat.leb_spec 3 (length parts)) as [H3|H3]; cbn [andb].
  - destruct (Py.mem (Py.lower (Py.getitem parts 1)) _).
    + exists 1. split; [auto|]. split; [lia|].
      destruct parts as [|p0 [|p1 [|p2 rest]]]; try (cbn in H3; lia).
      rewrite getitem_1. cbn [drop]. rewrite join_cons_ne, <- !app_assoc.
      reflexivity.
    + destruct (Py.mem (Py.replace (Py.lower x) (str ".") []) _).
      { exists (length parts - 2). split; [auto|]. split; [lia|].
        rewrite Hd2. cbn [Py.join]. reflexivity. }
      destruct (Py.mem (Py.lower x) name_prefixes) eqn:Ex.
      { exists (length parts - 2). split; [auto|]. split; [lia|].
        rewrite Hd2. cbn [Py.join]. reflexivity. }
      rewrite andb_false_r.
      exists (length parts - 1). split; [auto|]. split; [lia|].
      rewrite Hd1. reflexivity.
  - exists (length parts - 1). split; [auto|]. split; [lia|].
    rewrite Hd1. reflexivity.
Qed.

End FormatterShape.

(** X1.  Whenever the cleaned name has two parts or more, the formatted
    name is a tail of the parts after the first, joined by spaces, then a
    comma and a space, then the first part; the tail is all of them, the
    last two, or the last one, and the parts it leaves out are dropped. *)
Theorem format_surname_is_tail (name : pystr) :
  let parts := Py.split (clean_name name) in
  name <> [] ->
  2 <= length parts ->
  exists k,
    (k = 1 \/ k = length parts - 2 \/ k = length parts - 1)
    /\ 1 <= k < length parts
    /\ format_name_for_filename (Some name)
       = Py.join (str " ") (drop k parts) ++ str ", " ++ Py.getitem parts 0.
Proof.
  intros parts Hn Hlen. rewrite format_some by exact Hn. fold parts.
  destruct (Nat.ltb_spec (length parts) 2); [lia|].
  apply format_parts_tail, Hlen.
Qed.

Lemma format_surname_is_tail_witness :
  exists k, (k = 1 \/ k = 4 - 2 \/ k = 4 - 1) /\ 1 <= k < 4
    /\ format_name_for_filename (Some (str "Maria Clara de Leon"))
       = Py.join (str " ") (drop k (map str ["Maria"; "Clara"; "de"; "Leon"]%string))
         ++ str ", " ++ str "Maria".
Proof.
  apply (format_surname_is_tail (str "Maria Clara de Leon")).
  - discriminate.
  - vm_compute. lia.
Defined.

(** X2.  With exactly two parts, or with more and none of the prefix
    rules applying, the surname is the last part alone: the result is the
    last part, a comma and a space, and the first part, and every part in
    between is left out. *)
Theorem format_surname_last_part (name : pystr) :
  let parts := Py.split (clean_name name) in
  name <> [] ->
  2 <= length parts ->
  (3 <= length parts ->
     Py.mem (Py.lower (Py.getitem parts 1))
            (map str ["sta."; "sto."; "sta"; "sto"]%string) = false
     /\ Py.mem (Py.replace (Py.lower (Py.getitem parts (-2))) (str ".") [])
               (map str ["sta"; "sto"]%string) = false
     /\ Py.mem (Py.lower (Py.getitem parts (-2))) name_prefixes = false) ->
  format_name_for_filename (Some name)
  = Py.getitem parts (-1) ++ str ", " ++ Py.getitem parts 0.
Proof.
  intros parts Hn Hlen Hrules. rewrite format_some by exact Hn. fold parts.
  destruct (Nat.ltb_spec (length parts) 2); [lia|].
  unfold format_parts.
  destruct (Nat.leb_spec 3 (length parts)) as [H3|H3]; cbn [andb];
    [|reflexivity].
  destruct (Hrules H3) as (Ha & Hb & Hc). rewrite Ha, Hb, Hc.
  rewrite andb_false_r. reflexivity.
Qed.

Lemma format_surname_last_part_witness :
  format_name_for_filename (Some (str "Juan Miguel Santos")) = str "Santos, Juan".
Proof.
  apply (format_surname_last_part (str "Juan Miguel Santos")).
  - discriminate.
  - vm_compute. lia.
  - intros _. vm_compute. auto.
Defined.

(** X3.  A name that cleans to a single word is returned as that word,
    without a comma. *)
Theorem format_single_word (name w : pystr) :
  name <> [] ->
  Py.split (clean_name name) = [w] ->
  format_name_for_filename (Some name) = w.
Proof.
  intros Hn Hw. rewrite format_some by exact Hn. rewrite Hw. cbn [length Nat.ltb Nat.leb].
  rewrite clean_name_join, Hw. reflexivity.
Qed.

Lemma format_single_word_witness :
  format_name_for_filename (Some (str "  Madonna: ")) = str "Madonna".
Proof.
  apply (format_single_word (str "  Madonna: ") (str "Madonna")).
  - discriminate.
  - reflexivity.
Defined.

Lemma format_collapsed_aux (name : option pystr) :
  collapsed (format_name_for_filename name) = format_name_for_filename name.
Proof.
  destruct name as [[|c n]|]; [reflexivity | | reflexivity].
  set (nm := c :: n).
  assert (Hn : nm <> []) by discriminate.
  rewrite format_some by exact Hn.
  destruct (Nat.ltb_spec (length (Py.split (clean_name nm))) 2) as [Hlt|Hge].
  - destruct (clean_name_collapsed nm) as [y ->]. apply collapsed_idem.
  - destruct (format_parts_tail _ Hge) as (k & _ & Hk & Hfmt).
    rewrite Hfmt. clear Hfmt.
    set (parts := Py.split (clean_name nm)) in *.
    assert (Hgood : forallb good_token parts = true) by apply split_good.
    assert (Htail : forallb good_token (drop k parts) = true).
    { rewrite forallb_forall in *. intros w Hw. apply Hgood.
      apply list_elem_of_In. apply list_elem_of_In in Hw.
      eapply (subseteq_drop k parts), Hw. }
    assert (Hfirst : good_token (Py.getitem parts 0) = true).
    { destruct parts as [|p0 rest]; [cbn in Hge; lia|].
      cbn [forallb] in Hgood. apply andb_true_iff in Hgood as [H _]. exact H. }
    destruct (exists_last (l := drop k parts)) as (l0 & t & Et).
    { assert (Hd : 1 <= length (drop k parts)) by (rewrite length_drop; lia).
      intros Hnil. rewrite Hnil in Hd. cbn [length] in Hd. lia. }
    rewrite Et in *. rewrite forallb_app in Htail.
    apply andb_true_iff in Htail as [Hl0 Ht]. cbn [forallb] in Ht.
    rewrite andb_true_r in Ht.
    assert (Hjoin : Py.join (str " ") (l0 ++ [t]) ++ str ", " ++ Py.getitem parts 0
                    = Py.join (str " ") ((l0 ++ [t ++ str ","]) ++ [Py.getitem parts 0])).
    { rewrite (join_snoc _ (l0 ++ [t ++ str ","])) by (destruct l0; discriminate).
      destruct l0 as [|a l0].
      - cbn [app Py.join]. rewrite <- !app_assoc. reflexivity.
      - rewrite !join_snoc by discriminate. rewrite <- !app_assoc. reflexivity. }
    rewrite Hjoin, collapsed_join_split, split_join_good; [reflexivity|].
    rewrite !forallb_app, Hl0. cbn [forallb]. rewrite Hfirst, !andb_true_r.
    apply good_token_inv in Ht as (a & v & -> & Ha & Hall).
    cbn [app good_token]. change (a :: v ++ str ",") with ((a :: v) ++ str ",").
    rewrite forallb_app, Hall. reflexivity.
Qed.

(** X4.  Whatever the input, the formatted name is already collapsed and
    stripped: it neither starts nor ends with whitespace and its only
    whitespace is single spaces between words. *)
Theorem format_whitespace_normal (name : option pystr) :
  collapsed (format_name_for_filename name) = format_name_for_filename name.
Proof. apply format_collapsed_aux. Qed.

(** X5.  The formatter changes no character: every character of the
    formatted name of a non-empty input is a character of that input, a
    space or a comma. *)
Theorem format_invents_no_character (name : pystr) :
  name <> [] ->
  Forall (fun c => c ∈ name \/ c = " "%char \/ c = ","%char)
         (format_name_for_filename (Some name)).
Proof.
  intros Hn. rewrite format_some by exact Hn.
  set (P := fun c : ascii => c ∈ name \/ c = " "%char \/ c = ","%char).
  assert (Hsp : P " "%char) by (right; left; reflexivity).
  assert (Hcm : P ","%char) by (right; right; reflexivity).
  assert (Hclean : Forall P (clean_name name)).
  { unfold clean_name. apply Forall_strip_boilerplate; [exact Hsp|].
    apply Forall_sub; [constructor|].
    apply Forall_forall. intros c Hc. left. exact Hc. }
  destruct (_ <? 2); [exact Hclean|].
  apply Forall_format_parts; try assumption.
  apply Forall_split, Hclean.
Qed.

Lemma format_invents_no_character_witness :
  Forall (fun c => c ∈ str "Juan dela Cruz" \/ c = " "%char \/ c = ","%char)
         (format_name_for_filename (Some (str "Juan dela Cruz"))).
Proof.
  apply (format_invents_no_character (str "Juan dela Cruz")). discriminate.
Defined.

(** ** More on the extractor *)

Section ExtractorFacts.

Implicit Types (s text sub x : pystr) (name : option pystr).

Lemma startswith_nil s : Py.startswith s [] = true.
Proof. destruct s; reflexivity. Qed.

Lemma replace_chr_filter s c :
  Py.replace s [c] [] = filter (fun d => chr_eqb c d = false) s.
Proof.
  unfold Py.replace. induction s as [|d s IH]; [reflexivity|].
  cbn [Py.replace_from Py.startswith length Nat.sub app].
  rewrite startswith_nil, andb_true_r, filter_cons, IH.
  destruct (chr_eqb c d); case_decide; try congruence; reflexivity.
Qed.

Lemma contains_inv sub s :
  Py.contains sub s = true -> exists a b, s = a ++ sub ++ b.
Proof.
  induction s as [|c s IH]; cbn [Py.contains].
  - rewrite orb_false_r. intros [t Ht]%startswith_app. exists [], t. exact Ht.
  - intros [H|H]%orb_true_iff.
    + apply startswith_app in H as [t Ht]. exists [], t. exact Ht.
    + destruct (IH H) as (a & b & ->). exists (c :: a), b. reflexivity.
Qed.

Lemma contains_infix sub x u v :
  Py.contains sub x = true -> Py.contains sub (u ++ x ++ v) = true.
Proof.
  intros (a & b & ->)%contains_inv.
  replace (u ++ (a ++ sub ++ b) ++ v) with ((u ++ a) ++ sub ++ (b ++ v))
    by (rewrite <- !app_assoc; reflexivity).
  apply contains_app.
Qed.

Lemma contains_strip sub x :
  Py.contains sub (Py.strip x) = true -> Py.contains sub x = true.
Proof.
  intros H. destruct (strip_decomp x) as (a & b & _ & _ & Hx).
  rewrite Hx. apply contains_infix, H.
Qed.

(** A slice lies inside every slice that starts no later and ends no
    earlier. *)
Lemma slice_infix text a b a' b' :
  a' <= a -> Nat.min b (length text) <= b' ->
  exists u v, Py.slice text a' b' = u ++ Py.slice text a b ++ v.
Proof.
  intros Ha Hb. unfold Py.slice.
  set (e := Nat.min b (length text)) in *.
  destruct (Nat.le_gt_cases e a) as [Hea|Hae].
  - assert (Hnil : take (b - a) (drop a text) = []).
    { destruct (Nat.le_gt_cases (length text) a).
      - rewrite drop_ge by lia. apply take_nil.
      - replace (b - a) with 0 by lia. reflexivity. }
    rewrite Hnil. exists (take (b' - a') (drop a' text)), [].
    rewrite !app_nil_r. reflexivity.
  - assert (Hmid : take (b - a) (drop a text) = take (e - a) (drop a text)).
    { destruct (Nat.le_gt_cases b (length text)).
      - replace e with b by lia. reflexivity.
      - replace e with (length text) by lia.
        rewrite !take_ge by (rewrite length_drop; lia). reflexivity. }
    rewrite Hmid.
    exists (take (a - a') (drop a' text)), (take (b' - e) (drop e text)).
    assert (Hd : drop a' text
                 = take (a - a') (drop a' text)
                   ++ take (e - a) (drop a text) ++ drop e text).
    { rewrite <- (take_drop (a - a') (drop a' text)) at 1.
      rewrite drop_drop. replace (a' + (a - a')) with a by lia.
      rewrite <- (take_drop (e - a) (drop a text)) at 1.
      rewrite drop_drop. replace (a + (e - a)) with e by lia. reflexivity. }
    rewrite Hd at 1.
    assert (L1 : length (take (a - a') (drop a' text)) = a - a')
      by (rewrite length_take, length_drop; lia).
    assert (L2 : length (take (e - a) (drop a text)) = e - a)
      by (rewrite length_take, length_drop; lia).
    rewrite take_app_ge by lia. rewrite L1.
    rewrite take_app_ge by lia. rewrite L2.
    replace (b' - a' - (a - a') - (e - a)) with (b' - e) by lia.
    reflexivity.
Qed.

Lemma scan_matches_clean text ms name c :
  truthy name = false ->
  scan_matches text ms name = Some c ->
  Py.contains (str "Officer") c = false
  /\ Py.contains (str "Manager") c = false
  /\ Py.any_in titles c = false.
Proof.
  intros Hname. induction ms as [|m ms IH]; cbn [scan_matches].
  - intros ->. destruct c; [repeat split; reflexivity | discriminate].
  - destruct (Py.any_in titles (Py.strip (Re.group text m 0))) eqn:Et;
      [exact IH|].
    match goal with
    | |- (if ?b then _ else _) = _ -> _ => destruct b eqn:Eo; [|exact IH]
    end.
    intros [= <-]. apply andb_true_iff in Eo as [Eo Em].
    apply negb_true_iff in Eo, Em.
    destruct (slice_infix text (Re.m_start m) (Re.m_end m)
                (Nat.max 0 (Re.m_start m - 20))
                (Nat.min (length text) (Re.m_end m + 20)))
      as (u & v & Hctx); [lia | lia |].
    rewrite Hctx in Eo, Em.
    change (Re.group text m 0) with (Py.slice text (Re.m_start m) (Re.m_end m)) in *.
    repeat split; [| |exact Et].
    + destruct (Py.contains (str "Officer") (Py.strip _)) eqn:E; [|reflexivity].
      apply contains_strip in E. rewrite (contains_infix _ _ u v E) in Eo.
      discriminate.
    + destruct (Py.contains (str "Manager") (Py.strip _)) eqn:E; [|reflexivity].
      apply contains_strip in E. rewrite (contains_infix _ _ u v E) in Em.
      discriminate.
Qed.

(** Characters through the methods. *)
Variable P : ascii -> Prop.
Hypothesis P_space : P " ".

Lemma Forall_slice text a b : Forall P text -> Forall P (Py.slice text a b).
Proof. intros H. unfold Py.slice. apply Forall_take, Forall_drop, H. Qed.

Lemma Forall_group text m n : Forall P text -> Forall P (Re.group text m n).
Proof.
  intros H. unfold Re.group. destruct n; [apply Forall_slice, H|].
  destruct (Re.lookup_cap _ _) as [[a b]|]; [apply Forall_slice, H | constructor].
Qed.

Lemma Forall_split_on c text :
  Forall P text -> Forall (Forall P) (Py.split_on c text).
Proof.
  induction 1 as [|d s Hx Hs IH]; cbn [Py.split_on]; [repeat constructor|].
  destruct (chr_eqb d c); [constructor; [constructor | exact IH]|].
  destruct (Py.split_on c s) as [|w ws]; [repeat constructor; exact Hx|].
  inversion IH; subst. constructor; [constructor|]; assumption.
Qed.

Lemma opt_all_method1 text name :
  Forall P text -> opt_all P name -> opt_all P (method1 text name).
Proof.
  intros Ht Hn. unfold method1. destruct (Re.search _ _) as [m|]; [|exact Hn].
  cbn [opt_all].
  assert (H : Forall P (Py.strip (Re.sub ws_run (str " ")
                                   (Py.strip (Re.group text m 1))))).
  { apply Forall_strip, Forall_sub; [repeat constructor; exact P_space|].
    apply Forall_strip, Forall_group, Ht. }
  destruct (negb _); exact H.
Qed.

Lemma opt_all_scan_lines lines idxs name :
  Forall (Forall P) lines -> opt_all P name ->
  opt_all P (scan_lines lines idxs name).
Proof.
  intros Hl Hn. induction idxs as [|i idxs IH]; cbn [scan_lines]; [exact Hn|].
  destruct (acceptable_line _); [|exact IH].
  cbn [opt_all]. apply Forall_strip, Forall_getitem, Hl.
Qed.

Lemma opt_all_method2 text name :
  Forall P text -> opt_all P name -> opt_all P (method2 text name).
Proof.
  intros Ht Hn. unfold method2. destruct (find_markers _ _ _) as [ci ti].
  destruct (_ && _); [|exact Hn].
  apply opt_all_scan_lines; [apply Forall_split_on, Ht | exact Hn].
Qed.

Lemma opt_all_scan_matches text ms name :
  Forall P text -> opt_all P name -> opt_all P (scan_matches text ms name).
Proof.
  intros Ht Hn. induction ms as [|m ms IH]; cbn [scan_matches]; [exact Hn|].
  destruct (Py.any_in _ _); [exact IH|].
  destruct (_ && _); [|exact IH].
  cbn [opt_all]. apply Forall_strip, Forall_group, Ht.
Qed.

Lemma opt_all_method3 text name :
  Forall P text -> opt_all P name -> opt_all P (method3 text name).
Proof.
  intros Ht. unfold method3. generalize [pat_sta; pat_name]. intros ps.
  revert name. induction ps as [|p ps IH]; intros name Hn; cbn [try_patterns];
    [exact Hn|].
  pose proof (opt_all_scan_matches text (Re.finditer p text) name Ht Hn) as H.
  destruct (truthy _); [exact H | apply IH, H].
Qed.

Lemma opt_all_method4 text name :
  Forall P text -> opt_all P name -> opt_all P (method4 text name).
Proof.
  intros Ht Hn. unfold method4. destruct (Re.search _ _) as [m|]; [|exact Hn].
  cbn [opt_all]. apply Forall_strip, Forall_group, Ht.
Qed.

Lemma opt_all_extract text :
  Forall P (Py.replace text [NUL] []) -> opt_all P (extract_name_from_text text).
Proof.
  intros Ht. unfold extract_name_from_text. fold NUL.
  destruct (Py.replace text [NUL] []) as [|c t] eqn:Et; [exact I|].
  rewrite <- Et in *. clear Et c t.
  set (text' := Py.replace text [NUL] []) in *.
  assert (H1 : opt_all P (method1 text' None)) by (apply opt_all_method1; easy).
  set (n1 := method1 text' None) in *.
  assert (H2 : opt_all P (if truthy n1 then n1 else method2 text' n1))
    by (destruct (truthy n1); [|apply opt_all_method2]; assumption).
  set (n2 := if truthy n1 then n1 else method2 text' n1) in *.
  assert (H3 : opt_all P (if truthy n2 then n2 else method3 text' n2))
    by (destruct (truthy n2); [|apply opt_all_method3]; assumption).
  set (n3 := if truthy n2 then n2 else method3 text' n2) in *.
  assert (H4 : opt_all P (if truthy n3 then n3 else method4 text' n3))
    by (destruct (truthy n3); [|apply opt_all_method4]; assumption).
  set (n4 := if truthy n3 then n3 else method4 text' n3) in *.
  destruct n4 as [[|c n]|]; [exact H4 | | exact I].
  cbn [opt_all] in *. apply Forall_strip_boilerplate; assumption.
Qed.

End ExtractorFacts.

(** X6.  NUL characters in the page text change nothing: the extractor
    gives the same result with a NUL inserted anywhere. *)
Theorem extract_ignores_nul (a b : pystr) :
  extract_name_from_text (a ++ NUL :: b) = extract_name_from_text (a ++ b).
Proof.
  unfold extract_name_from_text. fold NUL.
  rewrite !replace_chr_filter, !filter_app, filter_cons.
  case_decide as H; [|reflexivity].
  unfold chr_eqb in H. rewrite Ascii.eqb_refl in H. discriminate.
Qed.

(** X7.  A page text that is empty, or made of NUL characters only, has
    no name: the extractor returns [None]. *)
Theorem extract_blank_is_none (text : pystr) :
  Forall (fun c => c = NUL) text -> extract_name_from_text text = None.
Proof.
  intros H. unfold extract_name_from_text. fold NUL.
  rewrite replace_chr_filter.
  replace (filter _ text) with (@nil ascii); [reflexivity|].
  symmetry. induction H as [|c s -> Hs IH]; [reflexivity|].
  rewrite filter_cons, <- IH. case_decide as Hc; [|reflexivity].
  unfold chr_eqb in Hc. rewrite Ascii.eqb_refl in Hc. discriminate.
Qed.

Lemma extract_blank_is_none_witness :
  extract_name_from_text [NUL; NUL; NUL] = None.
Proof.
  apply (extract_blank_is_none [NUL; NUL; NUL]). repeat constructor.
Defined.

(** X8.  Every name the extractor returns is collapsed and stripped: no
    whitespace at its ends, and single spaces as its only whitespace. *)
Theorem extract_whitespace_normal (text s : pystr) :
  extract_name_from_text text = Some s -> collapsed s = s.
Proof.
  unfold extract_name_from_text.
  destruct (Py.replace text ["000"%char] []) as [|c t]; [discriminate|].
  match goal with
  | |- match ?n with _ => _ end = _ -> _ => destruct n as [[|a n']|]
  end.
  - intros [= <-]. reflexivity.
  - intros [= <-]. unfold strip_boilerplate.
    match goal with
    | |- collapsed (Py.strip (Re.sub ws_run (str " ") ?y)) = _ =>
        change (collapsed (collapsed y) = collapsed y)
    end.
    apply collapsed_idem.
  - discriminate.
Qed.

Lemma extract_whitespace_normal_witness :
  collapsed (str "Juan Cruz") = str "Juan Cruz".
Proof.
  apply (extract_whitespace_normal
           (str "is presented to    Juan   Cruz   for successfully")).
  reflexivity.
Defined.

(** X9.  The extractor changes no character: every character of the name
    it returns is a character of the page text or a space. *)
Theorem extract_invents_no_character (text s : pystr) :
  extract_name_from_text text = Some s ->
  Forall (fun c => c ∈ text \/ c = " "%char) s.
Proof.
  intros H.
  pose proof (opt_all_extract (fun c => c ∈ text \/ c = " "%char)
                (or_intror eq_refl) text) as Hall.
  rewrite H in Hall. apply Hall.
  rewrite replace_chr_filter. apply Forall_forall. intros c Hc. left.
  apply list_elem_of_filter in Hc as [_ Hc]. exact Hc.
Qed.

Lemma extract_invents_no_character_witness :
  Forall (fun c => c ∈ str "is presented to Juan Cruz for successfully" \/ c = " "%char)
         (str "Juan Cruz").
Proof.
  apply (extract_invents_no_character
           (str "is presented to Juan Cruz for successfully")).
  reflexivity.
Defined.

(** X10.  A name found by method 3 never holds "Officer", "Manager",
    "Chief Operating" or "Operations Manager": the window around a match
    contains the match, so a match with such a word is always skipped. *)
Theorem method3_rejects_titles (text : pystr) (name : option pystr) (c : pystr) :
  truthy name = false ->
  method3 text name = Some c ->
  Py.contains (str "Officer") c = false
  /\ Py.contains (str "Manager") c = false
  /\ Py.any_in titles c = false.
Proof.
  unfold method3. generalize [pat_sta; pat_name]. intros ps.
  revert name. induction ps as [|p ps IH]; intros name Hn; cbn [try_patterns].
  - intros ->. destruct c; [repeat split; reflexivity | discriminate].
  - destruct (truthy (scan_matches text (Re.finditer p text) name)) eqn:Et.
    + apply scan_matches_clean, Hn.
    + apply IH, Et.
Qed.

Lemma method3_rejects_titles_witness :
  Py.contains (str "Officer") (str "Juan Cruz") = false
  /\ Py.contains (str "Manager") (str "Juan Cruz") = false
  /\ Py.any_in titles (str "Juan Cruz") = false.
Proof.
  apply (method3_rejects_titles
           (str "Maria Santos, Operations Manager ------------ Juan Cruz") None).
  - reflexivity.
  - reflexivity.
Defined.

(** ** Page numbers and the files of the page loop *)

Section PageFiles.

Implicit Types (s acc x y : pystr) (i j n k fuel : nat) (texts : list pystr).

Lemma digit_spec k :
  k < 10 -> isdecimal (Py.digit k) = true /\ nat_of_ascii (Py.digit k) - 48 = k.
Proof.
  intros Hk. do 10 (destruct k as [|k]; [split; reflexivity|]). lia.
Qed.

Lemma digits_value fuel n acc :
  n < fuel -> nat_of_digits_from 0 (Py.digits fuel n acc) = nat_of_digits_from n acc.
Proof.
  revert n acc. induction fuel as [|fuel IH]; intros n acc Hn; [lia|].
  cbn [Py.digits].
  assert (Hmod : n mod 10 < 10) by (apply Nat.mod_upper_bound; lia).
  destruct (digit_spec _ Hmod) as [_ Hd].
  pose proof (Nat.div_mod_eq n 10) as Hdm.
  destruct (Nat.eqb_spec (n / 10) 0) as [H0|H0].
  - unfold nat_of_digits_from. cbn [fold_left]. rewrite Hd. f_equal. lia.
  - rewrite IH by lia. unfold nat_of_digits_from. cbn [fold_left]. rewrite Hd.
    f_equal. lia.
Qed.

Lemma digits_decimal fuel n acc :
  forallb isdecimal acc = true -> forallb isdecimal (Py.digits fuel n acc) = true.
Proof.
  revert n acc. induction fuel as [|fuel IH]; intros n acc Hacc; [exact Hacc|].
  cbn [Py.digits].
  assert (Hmod : n mod 10 < 10) by (apply Nat.mod_upper_bound; lia).
  destruct (digit_spec _ Hmod) as [Hd _].
  destruct (n / 10 =? 0); [|apply IH]; cbn [forallb]; rewrite Hd, Hacc;
    reflexivity.
Qed.

Lemma zfill_value w s : nat_of_digits_from 0 (Py.zfill w s) = nat_of_digits_from 0 s.
Proof.
  unfold Py.zfill, nat_of_digits_from. rewrite fold_left_app. f_equal.
  induction (w - length s) as [|m IH]; [reflexivity|].
  cbn [replicate fold_left]. exact IH.
Qed.

Lemma page_num_spec i :
  nat_of_digits (page_num i) = i + 1
  /\ forallb isdecimal (page_num i) = true
  /\ 3 <= length (page_num i).
Proof.
  unfold page_num. split; [|split].
  - unfold nat_of_digits. rewrite zfill_value. unfold Py.str_of_nat.
    rewrite digits_value by lia. reflexivity.
  - unfold Py.zfill. rewrite forallb_app. apply andb_true_iff. split.
    + induction (3 - _) as [|m IH]; [reflexivity|]. exact IH.
    + apply digits_decimal. reflexivity.
  - unfold Py.zfill. rewrite length_app, length_replicate. lia.
Qed.

(** Two strings that begin with digits and go on with a space begin with
    the same digits. *)
Lemma digits_then_space s1 s2 x y :
  forallb isdecimal s1 = true -> forallb isdecimal s2 = true ->
  s1 ++ " "%char :: x = s2 ++ " "%char :: y -> s1 = s2 /\ x = y.
Proof.
  revert s2. induction s1 as [|a s1 IH]; intros [|b s2] H1 H2 E;
    cbn [app forallb] in *.
  - injection E as ->. auto.
  - injection E as <- _. discriminate H2.
  - injection E as -> _. discriminate H1.
  - injection E as -> E.
    apply andb_true_iff in H1 as [_ H1], H2 as [_ H2].
    destruct (IH s2 H1 H2 E) as [-> ->]. auto.
Qed.

Lemma output_filename_inj i j t1 t2 :
  output_filename i t1 = output_filename j t2 -> i = j.
Proof.
  unfold output_filename. intros E.
  destruct (page_num_spec i) as (Vi & Di & _), (page_num_spec j) as (Vj & Dj & _).
  change (str " " ++ ?z) with (" "%char :: z) in E.
  apply digits_then_space in E as [E _]; [|assumption..].
  rewrite E in Vi. lia.
Qed.

Lemma output_filename_head i t :
  exists d z, output_filename i t = d :: z /\ isdecimal d = true.
Proof.
  unfold output_filename.
  destruct (page_num_spec i) as (_ & D & L).
  destruct (page_num i) as [|d z]; [cbn in L; lia|].
  cbn [forallb] in D. apply andb_true_iff in D as [D _].
  exists d, (z ++ str " " ++ page_stem t ++ str ".pdf"). auto.
Qed.

Lemma path_join_inj a b1 b2 :
  Py.startswith b1 (str "/") = false -> Py.startswith b2 (str "/") = false ->
  path_join a b1 = path_join a b2 -> b1 = b2.
Proof.
  unfold path_join. intros -> ->.
  destruct (_ || _); intros E.
  - apply app_inv_head in E. exact E.
  - apply app_inv_head in E. apply app_inv_head in E. exact E.
Qed.

Lemma output_filename_no_root i t :
  Py.startswith (output_filename i t) (str "/") = false.
Proof.
  destruct (output_filename_head i t) as (d & z & -> & Hd).
  cbn [str list_ascii_of_string Py.startswith].
  destruct (chr_eqb "/" d) eqn:E; [|reflexivity].
  apply Ascii.eqb_eq in E. subst d. discriminate Hd.
Qed.

Lemma output_path_inj dir i j t1 t2 :
  path_join dir (output_filename i t1) = path_join dir (output_filename j t2) ->
  i = j.
Proof.
  intros E. apply path_join_inj in E; [|apply output_filename_no_root..].
  eapply output_filename_inj, E.
Qed.

Lemma pages_loop_snoc raises dir texts t i st :
  pages_loop raises dir (texts ++ [t]) i st
  = match pages_loop raises dir texts i st with
    | Some st' => write_page raises dir (i + length texts) t st'
    | None => None
    end.
Proof.
  revert i st. induction texts as [|x texts IH]; intros i st; cbn [app pages_loop length].
  - rewrite Nat.add_0_r. destruct (write_page _ _ _ _ _); reflexivity.
  - destruct (write_page raises dir i x st) as [st1|]; [|reflexivity].
    rewrite IH. replace (S i + length texts) with (i + S (length texts)) by lia.
    reflexivity.
Qed.

Lemma split_pages_snoc raises dir texts t st :
  split_pages raises dir (texts ++ [t]) = Some st ->
  exists st0, split_pages raises dir texts = Some st0
              /\ write_page raises dir (length texts) t st0 = Some st.
Proof.
  unfold split_pages. rewrite pages_loop_snoc.
  destruct (pages_loop raises dir texts 0 _) as [st0|]; [|discriminate].
  intros H. exists st0. split; [reflexivity | exact H].
Qed.

Lemma write_page_some raises dir i t st0 st :
  write_page raises dir i t st0 = Some st ->
  raises i (path_join dir (output_filename i t)) = false
  /\ st = PagesState (output_files st0 ++ [path_join dir (output_filename i t)])
                     (<[path_join dir (output_filename i t) := i]> (pages_written st0)).
Proof.
  unfold write_page. destruct (raises i _); [discriminate|].
  intros [= <-]. split; reflexivity.
Qed.

Lemma pages_written_lookup raises dir texts st i t :
  split_pages raises dir texts = Some st ->
  texts !! i = Some t ->
  pages_written st !! path_join dir (output_filename i t) = Some i.
Proof.
  revert st i t.
  induction texts as [|x texts IH] using rev_ind; intros st i t Hst Hi; [discriminate|].
  apply split_pages_snoc in Hst as (st0 & Hst0 & Hw).
  apply write_page_some in Hw as [_ ->]. cbn [pages_written].
  destruct (decide (i = length texts)) as [->|Hne].
  - rewrite lookup_app_r, Nat.sub_diag in Hi by lia. injection Hi as ->.
    apply lookup_insert_eq.
  - assert (Hlt : i < length texts).
    { apply lookup_lt_Some in Hi. rewrite length_app in Hi. cbn in Hi. lia. }
    rewrite lookup_app_l in Hi by exact Hlt.
    rewrite lookup_insert_ne; [apply (IH st0 i t Hst0 Hi)|].
    intros E. apply output_path_inj in E. lia.
Qed.

Lemma pages_written_dom raises dir texts st :
  split_pages raises dir texts = Some st ->
  dom (pages_written st) = list_to_set (output_files st).
Proof.
  revert st. induction texts as [|x texts IH] using rev_ind; intros st Hst.
  - injection Hst as <-. cbn. rewrite dom_empty_L. reflexivity.
  - apply split_pages_snoc in Hst as (st0 & Hst0 & Hw).
    apply write_page_some in Hw as [_ ->]. cbn [pages_written output_files].
    rewrite dom_insert_L, (IH st0 Hst0), list_to_set_app_L. cbn. set_solver.
Qed.

Lemma split_pages_output raises dir texts st :
  split_pages raises dir texts = Some st ->
  output_files st = imap (fun i text => path_join dir (output_filename i text)) texts.
Proof.
  intros Hst. unfold split_pages in Hst.
  apply pages_loop_output in Hst. exact Hst.
Qed.

Lemma output_paths_NoDup dir texts :
  NoDup (imap (fun i text => path_join dir (output_filename i text)) texts).
Proof.
  apply NoDup_alt. intros i j p Hi Hj.
  rewrite list_lookup_imap in Hi, Hj.
  destruct (texts !! i) as [t1|]; [|discriminate].
  destruct (texts !! j) as [t2|]; [|discriminate].
  cbn in Hi, Hj. injection Hi as <-. injection Hj as Hj.
  symmetry in Hj. apply output_path_inj in Hj. exact Hj.
Qed.

(** The loop is left exactly when a turn raises. *)
Lemma pages_loop_complete raises dir texts i st :
  (forall k t, texts !! k = Some t ->
     raises (i + k) (path_join dir (output_filename (i + k) t)) = false) ->
  exists st', pages_loop raises dir texts i st = Some st'.
Proof.
  revert i st. induction texts as [|x texts IH]; intros i st H.
  - exists st. reflexivity.
  - cbn [pages_loop]. unfold write_page.
    pose proof (H 0 x eq_refl) as H0. rewrite Nat.add_0_r in H0. rewrite H0.
    apply IH. intros k t Hk. specialize (H (S k) t Hk).
    replace (S i + k) with (i + S k) by lia. exact H.
Qed.

Lemma pages_loop_none raises dir texts i st :
  pages_loop raises dir texts i st = None ->
  exists k t, texts !! k = Some t
    /\ raises (i + k) (path_join dir (output_filename (i + k) t)) = true.
Proof.
  revert i st. induction texts as [|x texts IH]; intros i st; [discriminate|].
  cbn [pages_loop]. unfold write_page.
  destruct (raises i _) eqn:E.
  - intros _. exists 0, x. rewrite Nat.add_0_r. auto.
  - intros H. apply IH in H as (k & t & Hk & Hr).
    exists (S k), t. replace (i + S k) with (S i + k) by lia. auto.
Qed.

Lemma split_pages_some_iff raises dir texts :
  (exists st, split_pages raises dir texts = Some st)
  <-> forall i t, texts !! i = Some t ->
        raises i (path_join dir (output_filename i t)) = false.
Proof.
  split.
  - intros [st Hst] i t Hi.
    destruct (raises i _) eqn:E; [|reflexivity]. exfalso.
    revert st i t Hst Hi E.
    induction texts as [|x texts IH] using rev_ind; intros st i t Hst Hi E;
      [discriminate|].
    apply split_pages_snoc in Hst as (st0 & Hst0 & Hw).
    apply write_page_some in Hw as [Hr _].
    destruct (decide (i = length texts)) as [->|Hne].
    + rewrite lookup_app_r, Nat.sub_diag in Hi by lia. injection Hi as ->.
      congruence.
    + assert (Hlt : i < length texts).
      { apply lookup_lt_Some in Hi. rewrite length_app in Hi. cbn in Hi. lia. }
      rewrite lookup_app_l in Hi by exact Hlt.
      exact (IH st0 i t Hst0 Hi E).
  - intros H. apply pages_loop_complete. exact H.
Qed.

End PageFiles.

(** X11.  Pages are numbered from 1 in decimal, padded with zeros to
    three digits and longer from page 1000 on: the number of page [i]
    (counted from 0) is made of digits only, has three of them or more,
    and reads back as [i + 1]. *)
Theorem page_num_reads_back (i : nat) :
  nat_of_digits (page_num i) = i + 1
  /\ forallb isdecimal (page_num i) = true
  /\ 3 <= length (page_num i).
Proof. apply page_num_spec. Qed.

(** X12.  No page is written over another: the paths of two different
    pages differ, and when the page loop completes, the paths it returns
    are pairwise different, one per page, the loop has written as many
    files as there are pages, and the file named after page [i] holds
    page [i]. *)
Theorem pages_never_overwritten (raises : nat -> pystr -> bool)
  (pages_dir : pystr) (texts : list pystr) (st : pages_state) :
  split_pages raises pages_dir texts = Some st ->
  (forall i j text1 text2,
     path_join pages_dir (output_filename i text1)
     = path_join pages_dir (output_filename j text2) -> i = j)
  /\ NoDup (output_files st)
  /\ length (output_files st) = length texts
  /\ size (pages_written st) = length texts
  /\ (forall i text, texts !! i = Some text ->
        pages_written st !! path_join pages_dir (output_filename i text) = Some i).
Proof.
  intros Hst.
  assert (Hnd : NoDup (output_files st)).
  { rewrite (split_pages_output _ _ _ _ Hst). apply output_paths_NoDup. }
  assert (Hlen : length (output_files st) = length texts).
  { rewrite (split_pages_output _ _ _ _ Hst). apply length_imap. }
  split; [intros i j t1 t2; apply output_path_inj|].
  split; [exact Hnd|]. split; [exact Hlen|]. split.
  - rewrite <- size_dom, (pages_written_dom _ _ _ _ Hst), size_list_to_set, Hlen;
      [reflexivity | exact Hnd].
  - intros i text. apply (pages_written_lookup _ _ _ _ _ _ Hst).
Qed.

Lemma pages_never_overwritten_witness :
  exists st,
    split_pages (page_raises name_max_env) (str "pages")
      [str "presented to Juan Cruz for successfully";
       str "presented to Juan Cruz for successfully"] = Some st
    /\ pages_written st !! str "pages/002 Cruz, Juan.pdf" = Some 1.
Proof.
  eexists. split; [reflexivity|].
  refine (proj2 (proj2 (proj2 (proj2 (pages_never_overwritten
    (page_raises name_max_env) (str "pages")
    [str "presented to Juan Cruz for successfully";
     str "presented to Juan Cruz for successfully"] _ eq_refl)))) 1
    (str "presented to Juan Cruz for successfully") _).
  reflexivity.
Defined.

(** X13.  A page whose text cannot be extracted is handled as a page
    without text and stops nothing: its file name is the page number and
    "unknown"; the loop completes whenever no turn raises at the file it
    writes; and when the loop completes, the file of that page is among
    the paths returned, which are as many as the pages of the
    document. *)
Theorem unreadable_page_is_unknown (raises : nat -> pystr -> bool)
  (pages_dir : pystr) (pdf_reader : list (option pystr)) (i : nat) :
  pdf_reader !! i = Some None ->
  output_filename i (extract_text_from_page pdf_reader i)
  = page_num i ++ str " unknown.pdf"
  /\ ((forall j, j < length pdf_reader ->
         raises j (path_join pages_dir
                     (output_filename j (extract_text_from_page pdf_reader j)))
         = false) ->
      exists st, split_pages raises pages_dir (page_texts pdf_reader) = Some st)
  /\ (forall st,
        split_pages raises pages_dir (page_texts pdf_reader) = Some st ->
        output_files st !! i
        = Some (path_join pages_dir (page_num i ++ str " unknown.pdf"))
        /\ length (output_files st) = length pdf_reader).
Proof.
  intros Hi.
  assert (Ht : extract_text_from_page pdf_reader i = []).
  { unfold extract_text_from_page. rewrite Hi. reflexivity. }
  assert (Hlk : forall j t, page_texts pdf_reader !! j = Some t ->
            j < length pdf_reader /\ t = extract_text_from_page pdf_reader j).
  { intros j t Hj. unfold page_texts in Hj. rewrite list_lookup_fmap in Hj.
    assert (Hlt : j < length pdf_reader).
    { apply fmap_Some in Hj as (k & Hk & _). apply lookup_lt_Some in Hk.
      rewrite length_seq in Hk. exact Hk. }
    rewrite lookup_seq_lt in Hj by exact Hlt. cbn in Hj.
    split; [exact Hlt | congruence]. }
  split; [rewrite Ht; reflexivity|]. split.
  - intros Hok. apply split_pages_some_iff. intros j t Hj.
    destruct (Hlk j t Hj) as [Hlt ->]. apply Hok, Hlt.
  - intros st Hst. rewrite (split_pages_output _ _ _ _ Hst). split.
    + rewrite list_lookup_imap. unfold page_texts. rewrite list_lookup_fmap.
      rewrite lookup_seq_lt by (apply lookup_lt_Some in Hi; exact Hi).
      cbn. rewrite Ht. reflexivity.
    + rewrite length_imap. unfold page_texts.
      rewrite length_map, length_seq. reflexivity.
Qed.

Lemma unreadable_page_is_unknown_witness :
  exists st,
    split_pages (page_raises name_max_env) (str "pages")
      (page_texts [Some (str "presented to Juan Cruz for successfully"); None;
                   Some (str "presented to Ana Reyes for successfully")])
    = Some st
    /\ output_files st !! 1 = Some (str "pages/002 unknown.pdf")
    /\ length (output_files st) = 3.
Proof.
  destruct (unreadable_page_is_unknown (page_raises name_max_env) (str "pages")
              [Some (str "presented to Juan Cruz for successfully"); None;
               Some (str "presented to Ana Reyes for successfully")] 1 eq_refl)
    as (_ & Hcomplete & Hfile).
  destruct Hcomplete as [st Hst].
  { intros j Hj. destruct j as [|[|[|j]]]; [reflexivity..|cbn in Hj; lia]. }
  exists st. split; [exact Hst|]. exact (Hfile st Hst).
Defined.

(** ** The file-name pattern of the grouping loop *)

Section Numbered.

Implicit Types (q : ascii -> bool) (k : Re.mstate -> option Re.mstate)
  (p n : nat) (pv : option ascii) (s w x y stem : pystr)
  (cs : list (nat * (nat * nat))).

Lemma rep_loop_lazy q k fuel cnt p pv s cs :
  length s < fuel ->
  Re.rep_loop (Re.run (Re.Chr q)) false 0 None k fuel cnt (Re.MState p pv s cs)
  = lazy_chr q k p pv s cs.
Proof.
  revert cnt p pv s. induction fuel as [|fuel IH]; intros cnt p pv s Hf; [lia|].
  cbn [Re.rep_loop Re.below Re.run Re.rest Re.pos Re.caps Nat.leb].
  destruct s as [|c s]; cbn [lazy_chr]; [reflexivity|].
  destruct (q c); [|reflexivity].
  cbn [Re.rest length] in *.
  destruct (Nat.ltb_spec (length s) (S (length s))); [|lia].
  destruct (k _); cbn [Re.orelse]; [reflexivity|].
  apply IH. lia.
Qed.

Lemma run_lazy_chr q k p pv s cs :
  Re.run (Re.lazy_star (Re.Chr q)) (Re.MState p pv s cs) k = lazy_chr q k p pv s cs.
Proof. unfold Re.lazy_star. cbn [Re.run Re.rest]. apply rep_loop_lazy. lia. Qed.

Lemma lazy_chr_some q k p pv s cs r :
  lazy_chr q k p pv s cs = Some r ->
  exists n, n <= length s /\ forallb q (take n s) = true
            /\ k (adv n p pv s cs) = Some r.
Proof.
  revert p pv. induction s as [|c s IH]; intros p pv; cbn [lazy_chr].
  - destruct (k _) eqn:Ek; cbn [Re.orelse]; [|discriminate].
    intros [= <-]. exists 0. cbn. auto.
  - destruct (k _) eqn:Ek; cbn [Re.orelse].
    + intros [= <-]. exists 0. cbn [take forallb adv]. split; [cbn; lia|]. auto.
    + destruct (q c) eqn:Eq; [|discriminate]. intros H.
      destruct (IH _ _ H) as (n & Hn & Hq & Hk). exists (S n).
      cbn [take forallb adv length]. rewrite Eq. repeat split; auto. lia.
Qed.

Lemma lazy_chr_none q k p pv s cs :
  lazy_chr q k p pv s cs = None ->
  forall n, n <= length s -> forallb q (take n s) = true ->
    k (adv n p pv s cs) = None.
Proof.
  revert p pv. induction s as [|c s IH]; intros p pv; cbn [lazy_chr].
  - destruct (k _) eqn:Ek; cbn [Re.orelse]; [discriminate|].
    intros _ [|n] _ _; exact Ek.
  - destruct (k _) eqn:Ek; cbn [Re.orelse]; [discriminate|].
    intros H [|n] Hn Hq; [exact Ek|].
    cbn [take forallb adv length] in *.
    apply andb_true_iff in Hq as [Hc Hq]. rewrite Hc in H.
    apply IH; auto. lia.
Qed.

Lemma star_chr_ext q k1 k2 p pv s cs :
  (forall st, k1 st = k2 st) ->
  star_chr q k1 p pv s cs = star_chr q k2 p pv s cs.
Proof.
  intros Hk. revert p pv. induction s as [|c s IH]; intros p pv; cbn [star_chr].
  - apply Hk.
  - rewrite IH, Hk. reflexivity.
Qed.

Lemma plus_chr_ext q k1 k2 p pv s cs :
  (forall st, k1 st = k2 st) ->
  plus_chr q k1 p pv s cs = plus_chr q k2 p pv s cs.
Proof.
  intros Hk. unfold plus_chr. destruct s as [|c s]; [reflexivity|].
  destruct (q c); [|reflexivity]. apply star_chr_ext, Hk.
Qed.

Lemma pdf_tail_some a p pv s cs r :
  pdf_tail a (Re.MState p pv s cs) = Some r ->
  (s = str ".pdf" \/ s = str ".pdf" ++ ["010"%char])
  /\ Re.caps r = (1, (a, p)) :: cs.
Proof.
  unfold pdf_tail. cbn [Re.pos Re.prev Re.rest Re.caps].
  rewrite run_seq, run_lit.
  destruct (Py.startswith s (str ".pdf")) eqn:Hs; [|discriminate].
  apply startswith_app in Hs as [t ->].
  destruct (adv_app (str ".pdf") p pv t ((1, (a, p)) :: cs)) as [pv' ->].
  cbn [Re.run Re.rest].
  destruct t as [|c [|d t]]; try discriminate.
  - intros [= <-]. rewrite app_nil_r. auto.
  - destruct (chr_eqb c "010") eqn:Ec; [|discriminate].
    apply Ascii.eqb_eq in Ec. subst c. intros [= <-]. auto.
Qed.

Lemma pdf_tail_complete a p pv cs :
  pdf_tail a (Re.MState p pv (str ".pdf") cs) <> None.
Proof. vm_compute. discriminate. Qed.

Lemma numbered_unfold text :
  Re.run pat_numbered (Re.MState 0 None text []) Some
  = plus_chr isdecimal
      (fun st1 =>
         plus_chr isspace
           (fun st2 =>
              lazy_chr not_newline (pdf_tail (Re.pos st2))
                (Re.pos st2) (Re.prev st2) (Re.rest st2) (Re.caps st2))
           (Re.pos st1) (Re.prev st1) (Re.rest st1) (Re.caps st1))
      0 None text [].
Proof.
  unfold pat_numbered. cbn [Re.seq]. rewrite run_seq, run_plus_chr.
  apply plus_chr_ext. intros [p1 pv1 s1 cs1].
  rewrite run_seq. unfold ws_run at 1. rewrite run_plus_chr.
  apply plus_chr_ext. intros [p2 pv2 s2 cs2].
  rewrite run_seq. cbn [Re.pos Re.prev Re.rest Re.caps].
  change (Re.run (Re.Group 1 ?r) ?st ?k)
    with (Re.run r st (fun st' =>
            k (Re.MState (Re.pos st') (Re.prev st') (Re.rest st')
                         ((1, (Re.pos st, Re.pos st')) :: Re.caps st')))).
  rewrite run_lazy_chr. reflexivity.
Qed.

Lemma numbered_sound text m :
  Re.rematch pat_numbered text = Some m ->
  exists d w g t,
    text = d ++ w ++ g ++ str ".pdf" ++ t
    /\ d <> [] /\ forallb isdecimal d = true
    /\ w <> [] /\ forallb isspace w = true
    /\ (t = [] \/ t = ["010"%char])
    /\ Re.group text m 1 = g.
Proof.
  unfold Re.rematch, Re.match_at.
  destruct (Re.run pat_numbered _ Some) as [r|] eqn:Hr; [|discriminate].
  intros [= <-]. rewrite numbered_unfold in Hr.
  apply plus_chr_some in Hr as (n1 & H1 & Hn1 & Hq1 & Hk1 & _).
  rewrite (adv_eta n1 _ _ _ _ Hn1) in Hk1.
  cbn [Re.pos Re.prev Re.rest Re.caps] in Hk1.
  apply plus_chr_some in Hk1 as (n2 & H2 & Hn2 & Hq2 & Hk2 & _).
  rewrite (adv_eta n2 _ _ _ _ Hn2) in Hk2.
  cbn [Re.pos Re.prev Re.rest Re.caps] in Hk2.
  apply lazy_chr_some in Hk2 as (n3 & Hn3 & Hq3 & Hk3).
  rewrite (adv_eta n3 _ _ _ _ Hn3) in Hk3.
  apply pdf_tail_some in Hk3 as [Ht Hcaps].
  rewrite length_drop in Hn2. rewrite !length_drop in Hn3.
  exists (take n1 text), (take n2 (drop n1 text)),
         (take n3 (drop n2 (drop n1 text))),
         (drop 4 (drop n3 (drop n2 (drop n1 text)))).
  assert (Hne : forall (l : pystr) n, 1 <= n -> n <= length l -> take n l <> []).
  { intros l n Ha Hb E. apply (f_equal length) in E.
    rewrite length_take in E. cbn in E. lia. }
  split.
  { rewrite <- (take_drop n1 text) at 1. f_equal.
    rewrite <- (take_drop n2 (drop n1 text)) at 1. f_equal.
    rewrite <- (take_drop n3 (drop n2 (drop n1 text))) at 1. f_equal.
    destruct Ht as [-> | ->]; reflexivity. }
  split; [apply Hne; lia|]. split; [exact Hq1|].
  split; [apply Hne; rewrite ?length_drop; lia|]. split; [exact Hq2|].
  split; [destruct Ht as [-> | ->]; auto|].
  unfold Re.group. cbn [Re.m_caps]. rewrite Hcaps. cbn [Re.lookup_cap Nat.eqb].
  unfold Py.slice.
  replace (0 + n1 + n2 + n3 - (0 + n1 + n2)) with n3 by lia.
  rewrite !drop_drop. reflexivity.
Qed.

Lemma numbered_complete d w g :
  d <> [] -> forallb isdecimal d = true ->
  w <> [] -> forallb isspace w = true ->
  forallb not_newline g = true ->
  Re.rematch pat_numbered (d ++ w ++ g ++ str ".pdf") <> None.
Proof.
  intros Hd Hqd Hw Hqw Hqg. unfold Re.rematch, Re.match_at.
  destruct (Re.run pat_numbered _ Some) as [r|] eqn:Hr; [discriminate|].
  exfalso. rewrite numbered_unfold in Hr.
  assert (L1 : 1 <= length d) by (destruct d; [congruence | cbn; lia]).
  assert (L2 : 1 <= length w) by (destruct w; [congruence | cbn; lia]).
  pose proof (plus_chr_none _ _ _ _ _ _ Hr (length d) L1) as Hk1.
  rewrite take_app_length, adv_eta, drop_app_length in Hk1
    by (rewrite ?length_app; lia).
  specialize (Hk1 ltac:(rewrite length_app; lia) Hqd).
  cbn [Re.pos Re.prev Re.rest Re.caps] in Hk1.
  pose proof (plus_chr_none _ _ _ _ _ _ Hk1 (length w) L2) as Hk2.
  rewrite take_app_length, adv_eta, drop_app_length in Hk2
    by (rewrite ?length_app; lia).
  specialize (Hk2 ltac:(rewrite length_app; lia) Hqw).
  cbn [Re.pos Re.prev Re.rest Re.caps] in Hk2.
  pose proof (lazy_chr_none _ _ _ _ _ _ Hk2 (length g)) as Hk3.
  rewrite take_app_length, adv_eta, drop_app_length in Hk3
    by (rewrite ?length_app; lia).
  specialize (Hk3 ltac:(rewrite length_app; lia) Hqg).
  revert Hk3. apply pdf_tail_complete.
Qed.

Lemma isdecimal_not_space c : isdecimal c = true -> isspace c = false.
Proof.
  unfold isdecimal, chr_in, isspace. intros H.
  apply andb_true_iff in H as [H1 H2].
  apply N.leb_le in H1, H2. change (code "0") with 48%N in H1.
  change (code "9") with 57%N in H2.
  cbn [existsb]. rewrite !orb_false_r.
  repeat (apply orb_false_iff; split); apply N.eqb_neq; lia.
Qed.

(** Two strings that begin with a run of [q] and go on with something
    else begin with the same run. *)
Lemma run_then_other q s1 s2 a x b y :
  forallb q s1 = true -> forallb q s2 = true -> q a = false -> q b = false ->
  s1 ++ a :: x = s2 ++ b :: y -> s1 = s2 /\ a :: x = b :: y.
Proof.
  revert s2. induction s1 as [|c s1 IH]; intros [|e s2] H1 H2 Ha Hb E;
    cbn [app forallb] in *.
  - auto.
  - injection E as -> _. apply andb_true_iff in H2 as [H2 _]. congruence.
  - injection E as -> _. apply andb_true_iff in H1 as [H1 _]. congruence.
  - injection E as -> E.
    apply andb_true_iff in H1 as [_ H1], H2 as [_ H2].
    destruct (IH s2 H1 H2 Ha Hb E) as [-> ?]. auto.
Qed.

(** What the pattern reads back from a file name made of digits, a
    space, a stem and [.pdf]. *)
Lemma numbered_reads_stem d stem m :
  d <> [] -> forallb isdecimal d = true ->
  Py.strip stem = stem ->
  Re.rematch pat_numbered (d ++ str " " ++ stem ++ str ".pdf") = Some m ->
  Py.strip (Re.group (d ++ str " " ++ stem ++ str ".pdf") m 1) = stem.
Proof.
  intros Hd Hqd Hstem Hm.
  apply numbered_sound in Hm
    as (d' & w & g & t & E & Hd' & Hqd' & Hw & Hqw & Ht & ->).
  destruct w as [|a w]; [congruence|].
  cbn [forallb] in Hqw. apply andb_true_iff in Hqw as [Ha Hqw].
  change (str " " ++ ?z) with (" "%char :: z) in E.
  cbn [app] in E.
  apply (run_then_other isdecimal) in E as [-> E]; auto.
  2:{ destruct (isdecimal a) eqn:Eda; [|reflexivity].
      apply isdecimal_not_space in Eda. congruence. }
  assert (Et : t = []).
  { destruct Ht as [-> | ->]; [reflexivity|]. exfalso.
    apply (f_equal (@rev ascii)) in E.
    change (" "%char :: stem ++ str ".pdf")
      with ((" "%char :: stem) ++ str ".pdf") in E.
    change (a :: w ++ g ++ str ".pdf" ++ ["010"%char])
      with ((a :: w) ++ g ++ str ".pdf" ++ ["010"%char]) in E.
    rewrite !rev_app_distr in E. cbn in E. discriminate E. }
  subst t. rewrite app_nil_r in E.
  change (" "%char :: stem ++ str ".pdf")
    with ((" "%char :: stem) ++ str ".pdf") in E.
  change (a :: w ++ g ++ str ".pdf") with ((a :: w) ++ g ++ str ".pdf") in E.
  rewrite (app_assoc (a :: w)) in E. apply app_inv_tail in E.
  rewrite <- (strip_ws_app (a :: w) g)
    by (cbn [forallb]; rewrite Ha, Hqw; reflexivity).
  rewrite <- E. change (" "%char :: stem) with ([" "%char] ++ stem).
  rewrite strip_ws_app by reflexivity. exact Hstem.
Qed.

End Numbered.

(** ** From the page loop to the folders and the archive *)

Section Stems.

Implicit Types (s r text stem : pystr) (name : option pystr).

Lemma format_collapsed name :
  collapsed (format_name_for_filename name) = format_name_for_filename name.
Proof. apply format_collapsed_aux. Qed.

Lemma strip_of_collapsed r : collapsed r = r -> Py.strip r = r.
Proof.
  intros H. rewrite <- H, collapsed_join_split.
  apply strip_join_good, split_good.
Qed.

Lemma format_safe name :
  Forall (fun c => Re.one_of problematic c = false) (format_name_for_filename name).
Proof.
  set (P := fun c => Re.one_of problematic c = false).
  assert (Hsp : P " "%char) by reflexivity.
  assert (Hcm : P ","%char) by reflexivity.
  destruct name as [[|c n]|]; cbn [format_name_for_filename];
    [vm_compute; repeat constructor | | vm_compute; repeat constructor].
  assert (Hclean : Forall P (clean_name (c :: n))).
  { unfold clean_name. apply Forall_strip_boilerplate; try assumption.
    unfold pat_problematic. rewrite sub_chr_filter.
    apply Forall_forall. intros x Hx.
    apply list_elem_of_filter in Hx as [Hx _]. exact Hx. }
  destruct (_ <? 2); [assumption|].
  apply Forall_format_parts; try assumption.
  apply Forall_split, Hclean.
Qed.

Lemma page_stem_safe text :
  Forall (fun c => Re.one_of problematic c = false) (page_stem text).
Proof.
  unfold page_stem. destruct (truthy _); [apply format_safe|].
  vm_compute. repeat constructor.
Qed.

Lemma page_stem_strip text : Py.strip (page_stem text) = page_stem text.
Proof.
  apply strip_of_collapsed. unfold page_stem.
  destruct (truthy _); [apply format_collapsed | reflexivity].
Qed.

Lemma safe_not_newline c : Re.one_of problematic c = false -> not_newline c = true.
Proof.
  unfold Re.one_of, problematic, not_newline. cbn [existsb].
  intros H. apply orb_false_iff in H as [H _]. rewrite H. reflexivity.
Qed.

Lemma safe_no_slash c : Re.one_of problematic c = false -> no_slash c = true.
Proof.
  unfold Re.one_of, problematic, no_slash. cbn [existsb].
  intros H. repeat (apply orb_false_iff in H as [? H]).
  match goal with
  | Hs : chr_eqb c "/" = false |- _ => rewrite Hs
  end. reflexivity.
Qed.

Lemma endswith_app s w : Py.endswith (s ++ w) w = true.
Proof.
  unfold Py.endswith. rewrite rev_app_distr. apply startswith_app. eauto.
Qed.

Lemma folder_of_numbered d stem :
  d <> [] -> forallb isdecimal d = true ->
  Py.strip stem = stem -> forallb not_newline stem = true ->
  folder_of (d ++ str " " ++ stem ++ str ".pdf")
  = if Py.eqb (Py.lower stem) (str "unknown") then None else Some stem.
Proof.
  intros Hd Hqd Hs Hnl. unfold folder_of.
  assert (He : Py.endswith (Py.lower (d ++ str " " ++ stem ++ str ".pdf"))
                 (str ".pdf") = true).
  { unfold Py.lower. rewrite !map_app. rewrite !app_assoc.
    change (map lower_chr (str ".pdf")) with (str ".pdf").
    apply endswith_app. }
  rewrite He.
  destruct (Re.rematch pat_numbered _) as [m|] eqn:Hm.
  - rewrite (numbered_reads_stem d stem m Hd Hqd Hs Hm). reflexivity.
  - exfalso. revert Hm.
    apply (numbered_complete d (str " ") stem); auto; discriminate.
Qed.

End Stems.

Lemma folder_of_output_filename_aux (i : nat) (text : pystr) :
  folder_of (output_filename i text) = page_folder text.
Proof.
  unfold output_filename, page_folder.
  destruct (page_num_spec i) as (_ & Hd & Hl).
  apply folder_of_numbered.
  - intros E. rewrite E in Hl. cbn in Hl. lia.
  - exact Hd.
  - apply page_stem_strip.
  - apply forallb_forall. intros c Hc. apply safe_not_newline.
    pose proof (page_stem_safe text) as Hs. rewrite Forall_forall in Hs.
    apply Hs, list_elem_of_In, Hc.
Qed.

(** X14.  The grouping loop reads back from a file name of the page loop
    exactly the stem the page loop gave it: the folder of the file of a
    page is the formatted name of that page, and the file is skipped when
    that name is "unknown" in any letter case. *)
Theorem folder_of_output_filename (i : nat) (text : pystr) :
  folder_of (output_filename i text) = page_folder text.
Proof. apply folder_of_output_filename_aux. Qed.

Lemma length_remove_dups_le {A} `{EqDecision A} (l : list A) :
  length (remove_dups l) <= length l.
Proof.
  induction l as [|x l IH]; [reflexivity|]. cbn [remove_dups].
  destruct (decide_rel _ _ _); cbn [length]; lia.
Qed.

Lemma size_list_to_set_le (l : list pystr) :
  size (list_to_set l : gset pystr) <= length l.
Proof.
  assert (E : (list_to_set l : gset pystr) = list_to_set (remove_dups l)).
  { apply set_eq. intros x. rewrite !elem_of_list_to_set, elem_of_remove_dups.
    reflexivity. }
  rewrite E, size_list_to_set by apply NoDup_remove_dups.
  apply length_remove_dups_le.
Qed.

Lemma size_set_map_le (f : pystr -> pystr) (X : gset pystr) :
  size (set_map f X : gset pystr) <= size X.
Proof.
  unfold set_map. etransitivity; [apply size_list_to_set_le|].
  rewrite length_fmap. reflexivity.
Qed.

(** X15.  Whatever the listing, when the grouping loop completes: each
    file that is grouped adds one path to the list returned, every path
    returned is the one path [<organized>/<name>/<name>.pdf] of a name
    in the set [created_folders], and the different paths returned are
    never more than the names in that set, the number the loop
    reports. *)
Theorem grouping_one_path_per_folder
  (pages_dir organized_dir : pystr) (listing : list pystr) :
  let st := organize pages_dir organized_dir listing in
  length (organized_files st) = length (omap folder_of listing)
  /\ (forall p, p ∈ organized_files st ->
        exists n, n ∈ created_folders st /\ p = dest_of organized_dir n)
  /\ size (list_to_set (organized_files st) : gset pystr)
     <= size (created_folders st).
Proof.
  intros st. subst st. split; [|split].
  - rewrite organize_files, length_map. reflexivity.
  - intros p Hp. rewrite organize_files in Hp.
    apply list_elem_of_fmap in Hp as (n & -> & Hn).
    exists n. split; [|reflexivity].
    rewrite organize_created. apply elem_of_list_to_set, Hn.
  - rewrite organize_created, organize_files.
    assert (E : (list_to_set (map (dest_of organized_dir) (omap folder_of listing))
                 : gset pystr)
                = set_map (dest_of organized_dir)
                    (list_to_set (omap folder_of listing) : gset pystr))
      by apply list_to_set_fmap_L.
    rewrite E. apply size_set_map_le.
Qed.

Lemma grouping_one_path_per_folder_witness :
  exists n,
    n ∈ created_folders (organize (str "pages") (str "organized")
                           [str "001 Cruz, Juan.pdf"; str "004 Cruz, Juan.pdf"])
    /\ str "organized/Cruz, Juan/Cruz, Juan.pdf" = dest_of (str "organized") n.
Proof.
  refine (proj1 (proj2 (grouping_one_path_per_folder (str "pages") (str "organized")
            [str "001 Cruz, Juan.pdf"; str "004 Cruz, Juan.pdf"]))
            (str "organized/Cruz, Juan/Cruz, Juan.pdf") _).
  vm_compute. apply list_elem_of_here.
Defined.



Lemma omap_folder_of_outputs (texts : list pystr) :
  omap folder_of (imap output_filename texts) = omap page_folder texts.
Proof.
  enough (H : forall f, (forall i t, folder_of (f i t) = page_folder t) ->
            omap folder_of (imap f texts) = omap page_folder texts)
    by (apply H, folder_of_output_filename_aux).
  induction texts as [|t texts IH]; intros f Hf; [reflexivity|].
  cbn [imap omap list_omap]. rewrite Hf.
  rewrite (IH (f ∘ S)) by (intros; apply Hf). reflexivity.
Qed.

Lemma elements_outputs (texts : list pystr) :
  elements (list_to_set (imap output_filename texts) : gset pystr)
  ≡ₚ imap output_filename texts.
Proof.
  apply elements_list_to_set, NoDup_alt. intros i j p Hi Hj.
  rewrite list_lookup_imap in Hi, Hj.
  destruct (texts !! i) as [t1|]; [|discriminate].
  destruct (texts !! j) as [t2|]; [|discriminate].
  cbn in Hi, Hj. injection Hi as <-. injection Hj as Hj.
  symmetry in Hj. eapply output_filename_inj, Hj.
Qed.

(** The listing after the page loop: the names that were there and are
    not names of pages, and the names of the pages. *)
Lemma pages_listing_perm (env : environment) (texts : list pystr) :
  (forall X, listdir env X ≡ₚ elements X) ->
  pages_listing env texts
  ≡ₚ elements (pages_dir_before env ∖ list_to_set (imap output_filename texts))
     ++ imap output_filename texts.
Proof.
  intros Hl. unfold pages_listing. rewrite Hl.
  set (N := list_to_set (imap output_filename texts) : gset pystr).
  transitivity (elements (pages_dir_before env ∖ N) ++ elements N).
  - rewrite <- elements_disj_union by set_solver.
    rewrite difference_union_L. reflexivity.
  - apply Permutation_app_head, elements_outputs.
Qed.

Lemma grouped_result (env : environment) (pdf_reader : list (option pystr))
  (temp_dir : pystr) (st : pages_state) :
  (forall X, listdir env X ≡ₚ elements X) ->
  split_pages (page_raises env) (path_join temp_dir (str "pages"))
    (page_texts pdf_reader) = Some st ->
  grouping_raises env (pages_listing env (page_texts pdf_reader)) = false ->
  (split_pdf_with_names env (Some pdf_reader) temp_dir true).1
  ≡ₚ map (dest_of (path_join temp_dir (str "organized")))
         (omap folder_of
            (elements (pages_dir_before env
                       ∖ list_to_set (imap output_filename (page_texts pdf_reader))))
          ++ omap page_folder (page_texts pdf_reader)).
Proof.
  intros Hl Hst Hg. cbn [split_pdf_with_names]. rewrite Hst, Hg. cbn [fst].
  rewrite organize_files, (pages_listing_perm env _ Hl).
  rewrite omap_app, omap_folder_of_outputs. reflexivity.
Qed.

(** X17.  With grouping on, when neither the page loop nor the grouping
    block raises, the function returns, up to the order of the directory
    listing, one path [<organized>/<name>/<name>.pdf] per file that was
    in [pages_dir] before, has a name the grouping takes and is not
    written over by a page, and one per page whose formatted name is
    not "unknown"; and it returns the number of pages. *)
Theorem split_with_grouping (env : environment)
  (pdf_reader : list (option pystr)) (temp_dir : pystr) (st : pages_state) :
  let texts := page_texts pdf_reader in
  let result := split_pdf_with_names env (Some pdf_reader) temp_dir true in
  (forall X, listdir env X ≡ₚ elements X) ->
  split_pages (page_raises env) (path_join temp_dir (str "pages")) texts = Some st ->
  grouping_raises env (pages_listing env texts) = false ->
  result.1 ≡ₚ map (dest_of (path_join temp_dir (str "organized")))
                  (omap folder_of
                     (elements (pages_dir_before env
                                ∖ list_to_set (imap output_filename texts)))
                   ++ omap page_folder texts)
  /\ result.2 = length pdf_reader.
Proof.
  intros texts result Hl Hst Hg. subst texts result.
  split; [apply (grouped_result env pdf_reader temp_dir st Hl Hst Hg)|].
  cbn [split_pdf_with_names]. rewrite Hst, Hg. reflexivity.
Qed.

Lemma split_with_grouping_witness :
  (split_pdf_with_names name_max_env
     (Some [Some (str "presented to Juan Cruz for successfully"); None;
            Some (str "presented to Juan Cruz for successfully")])
     (str "tmp") true).1
  ≡ₚ [str "tmp/organized/Cruz, Juan/Cruz, Juan.pdf";
      str "tmp/organized/Cruz, Juan/Cruz, Juan.pdf"].
Proof.
  refine (proj1 (split_with_grouping name_max_env
     [Some (str "presented to Juan Cruz for successfully"); None;
      Some (str "presented to Juan Cruz for successfully")]
     (str "tmp") _ _ _ _)).
  - intros X. reflexivity.
  - vm_compute. reflexivity.
  - reflexivity.
Defined.

(** ** The archive *)

Section Archive.

Implicit Types (p cur a b n : pystr).

Lemma basename_from_plain b cur :
  forallb no_slash b = true -> basename_from b cur = rev cur ++ b.
Proof.
  revert cur. induction b as [|c b IH]; intros cur H; cbn [basename_from].
  - rewrite app_nil_r. reflexivity.
  - cbn [forallb] in H. apply andb_true_iff in H as [Hc Hb].
    unfold no_slash in Hc. apply negb_true_iff in Hc. rewrite Hc.
    rewrite IH by exact Hb. cbn [rev]. rewrite <- app_assoc. reflexivity.
Qed.

Lemma basename_from_slash a b cur :
  basename_from (a ++ "/"%char :: b) cur = basename_from b [].
Proof.
  revert cur. induction a as [|c a IH]; intros cur; cbn [app basename_from].
  - reflexivity.
  - destruct (chr_eqb c "/"); apply IH.
Qed.


Lemma endswith_slash a :
  Py.endswith a (str "/") = true -> exists a', a = a' ++ str "/".
Proof.
  unfold Py.endswith. intros H.
  destruct (rev a) as [|c r] eqn:E; [discriminate H|].
  change (rev (str "/")) with ["/"%char] in H. cbn [Py.startswith] in H.
  rewrite startswith_nil, andb_true_r in H.
  apply Ascii.eqb_eq in H. subst c.
  exists (rev r). rewrite <- (rev_involutive a), E. reflexivity.
Qed.

Lemma basename_path_join a b :
  forallb no_slash b = true -> basename (path_join a b) = b.
Proof.
  intros Hb. unfold path_join, basename.
  destruct (Py.startswith b (str "/")) eqn:Es.
  { destruct b as [|c b]; [discriminate Es|].
    change (str "/") with ["/"%char] in Es. cbn [Py.startswith] in Es.
    rewrite startswith_nil, andb_true_r in Es.
    cbn [forallb] in Hb. apply andb_true_iff in Hb as [Hc _].
    unfold no_slash in Hc. apply Ascii.eqb_eq in Es. subst c. discriminate Hc. }
  destruct (Py.eqb a []) eqn:Ea; cbn [orb].
  { unfold Py.eqb in Ea. apply bool_decide_eq_true in Ea. subst a.
    cbn [app]. apply (basename_from_plain b [] Hb). }
  destruct (Py.endswith a (str "/")) eqn:Ee.
  - apply endswith_slash in Ee as (a' & ->). rewrite <- app_assoc.
    cbn [str list_ascii_of_string app]. rewrite basename_from_slash.
    apply (basename_from_plain b [] Hb).
  - cbn [str list_ascii_of_string app]. rewrite basename_from_slash.
    apply (basename_from_plain b [] Hb).
Qed.

Lemma page_stem_no_slash text : forallb no_slash (page_stem text) = true.
Proof.
  apply forallb_forall. intros c Hc. apply safe_no_slash.
  pose proof (page_stem_safe text) as Hs. rewrite Forall_forall in Hs.
  apply Hs, list_elem_of_In, Hc.
Qed.

Lemma isdecimal_no_slash c : isdecimal c = true -> no_slash c = true.
Proof.
  intros H. unfold no_slash. destruct (chr_eqb c "/") eqn:E; [|reflexivity].
  apply Ascii.eqb_eq in E. subst c. discriminate H.
Qed.

Lemma output_filename_no_slash i text :
  forallb no_slash (output_filename i text) = true.
Proof.
  unfold output_filename. rewrite !forallb_app.
  destruct (page_num_spec i) as (_ & Hd & _).
  rewrite page_stem_no_slash. cbn [str list_ascii_of_string forallb].
  rewrite !andb_true_r. apply forallb_forall. intros c Hc.
  apply isdecimal_no_slash. rewrite forallb_forall in Hd. apply Hd, Hc.
Qed.



Lemma output_names_NoDup (texts : list pystr) : NoDup (imap output_filename texts).
Proof.
  apply NoDup_alt. intros i j p Hi Hj.
  rewrite list_lookup_imap in Hi, Hj.
  destruct (texts !! i) as [t1|]; [|discriminate].
  destruct (texts !! j) as [t2|]; [|discriminate].
  cbn in Hi, Hj. injection Hi as <-. injection Hj as Hj.
  symmetry in Hj. eapply output_filename_inj, Hj.
Qed.


Lemma omap_nil_iff {A B} (f : A -> option B) (l : list A) :
  omap f l = [] <-> Forall (fun x => f x = None) l.
Proof.
  induction l as [|x l IH]; [split; [constructor | reflexivity]|].
  cbn [omap list_omap]. destruct (f x) eqn:E.
  - split; [discriminate|]. intros H. inversion H; congruence.
  - rewrite IH. split; [intros H; constructor; assumption|].
    intros H. inversion H; assumption.
Qed.

Lemma Forall_page_folder (texts : list pystr) :
  Forall (fun f => folder_of f = None) (imap output_filename texts)
  <-> Forall (fun text => page_folder text = None) texts.
Proof.
  rewrite <- !omap_nil_iff, omap_folder_of_outputs. reflexivity.
Qed.

End Archive.


(** X19.  Without grouping, when the page loop completes, the archive
    made from the result of [split_pdf_with_names] has one entry per
    page, named by the file name of the page, and no two entries have
    the same name. *)
Theorem zip_of_pages (env : environment) (pdf_reader : list (option pystr))
  (temp_dir : pystr) (st : pages_state) :
  let result := split_pdf_with_names env (Some pdf_reader) temp_dir false in
  split_pages (page_raises env) (path_join temp_dir (str "pages"))
    (page_texts pdf_reader) = Some st ->
  map fst (create_download_zip result.1)
  = imap output_filename (page_texts pdf_reader)
  /\ NoDup (map fst (create_download_zip result.1))
  /\ length (create_download_zip result.1) = length pdf_reader
  /\ result.2 = length pdf_reader.
Proof.
  intros result Hst. subst result. cbn [split_pdf_with_names].
  rewrite Hst. cbn [fst snd].
  assert (E : map fst (create_download_zip (output_files st))
              = imap output_filename (page_texts pdf_reader)).
  { unfold create_download_zip.
    rewrite map_map, (split_pages_output _ _ _ _ Hst). cbn [fst].
    change (map ?f ?l) with (f <$> l). rewrite fmap_imap.
    apply imap_ext. intros i t _. cbn [compose].
    apply basename_path_join, output_filename_no_slash. }
  split; [exact E|]. split; [|split; [|reflexivity]].
  - rewrite E. apply output_names_NoDup.
  - rewrite <- (length_map fst), E, length_imap.
    unfold page_texts. rewrite length_map, length_seq. reflexivity.
Qed.

Lemma zip_of_pages_witness :
  map fst (create_download_zip
    (split_pdf_with_names name_max_env
       (Some [Some (str "presented to Juan Cruz for successfully"); None])
       (str "tmp") false).1)
  = [str "001 Cruz, Juan.pdf"; str "002 unknown.pdf"].
Proof.
  refine (proj1 (zip_of_pages name_max_env
     [Some (str "presented to Juan Cruz for successfully"); None]
     (str "tmp") _ _)).
  vm_compute. reflexivity.
Defined.



(** X21.  When a turn of the page loop raises, the function returns
    [([], 0)].  Without grouping, the list returned is empty exactly
    when the loop raises or the document has no page.  With grouping
    on, it is empty exactly when the loop or the grouping block raises,
    or no page has a name other than "unknown" and no file that was in
    [pages_dir] before has a name the grouping takes. *)
Theorem empty_result (env : environment) (pdf_reader : list (option pystr))
  (temp_dir : pystr) :
  let texts := page_texts pdf_reader in
  let loop := split_pages (page_raises env) (path_join temp_dir (str "pages")) texts in
  (forall X, listdir env X ≡ₚ elements X) ->
  (loop = None ->
   forall b, split_pdf_with_names env (Some pdf_reader) temp_dir b = ([], 0))
  /\ ((split_pdf_with_names env (Some pdf_reader) temp_dir false).1 = []
      <-> loop = None \/ pdf_reader = [])
  /\ ((split_pdf_with_names env (Some pdf_reader) temp_dir true).1 = []
      <-> loop = None
          \/ grouping_raises env (pages_listing env texts) = true
          \/ ((forall f, f ∈ pages_dir_before env -> folder_of f = None)
              /\ Forall (fun text => page_folder text = None) texts)).
Proof.
  intros texts loop Hl. subst texts loop. cbn [split_pdf_with_names].
  destruct (split_pages _ _ _) as [st|] eqn:Hst.
  2:{ split; [intros _ b; reflexivity|]. split; split; auto. }
  split; [discriminate|]. split.
  - cbn [fst]. rewrite (split_pages_output _ _ _ _ Hst). split.
    + intros E. right. apply (f_equal length) in E.
      rewrite length_imap in E. unfold page_texts in E.
      rewrite length_map, length_seq in E.
      destruct pdf_reader; [reflexivity | discriminate E].
    + intros [E | ->]; [discriminate | reflexivity].
  - destruct (grouping_raises env _) eqn:Hg; [split; auto|]. cbn [fst].
    rewrite organize_files.
    assert (Hiff : omap folder_of (pages_listing env (page_texts pdf_reader)) = []
              <-> (forall f, f ∈ pages_dir_before env -> folder_of f = None)
                  /\ Forall (fun text => page_folder text = None)
                            (page_texts pdf_reader)).
    { rewrite omap_nil_iff, <- Forall_page_folder, !Forall_forall.
      unfold pages_listing.
      split.
      - intros H. split; intros f Hf; apply H; rewrite Hl;
          apply elem_of_elements; set_solver.
      - intros [H1 H2] f Hf. rewrite Hl in Hf.
        apply elem_of_elements, elem_of_union in Hf as [Hf|Hf];
          [apply H1, Hf | apply H2]. apply elem_of_list_to_set in Hf. exact Hf. }
    split.
    + intros E. right. right. apply Hiff.
      destruct (omap folder_of _); [reflexivity | discriminate E].
    + intros [E | [E | H]]; [discriminate.. |].
      apply Hiff in H. rewrite H. reflexivity.
Qed.

Lemma empty_result_witness :
  split_pdf_with_names name_max_env
    (Some [Some (str "presented to Juan Cruz for successfully");
           Some long_name_text])
    (str "tmp") false = ([], 0).
Proof.
  refine (proj1 (empty_result name_max_env
     [Some (str "presented to Juan Cruz for successfully"); Some long_name_text]
     (str "tmp") _) _ false).
  - intros X. reflexivity.
  - vm_compute. reflexivity.
Defined.

(** ** Method 4: the nearest "for successfully" *)

Section Method4.

Implicit Types (q : ascii -> bool) (k : Re.mstate -> option Re.mstate)
  (p n : nat) (pv : option ascii) (s w g t pre post : pystr)
  (cs : list (nat * (nat * nat))).

(** A greedy run that can take all of [w] and no more, and after which
    the rest of the pattern matches, stops there. *)
Lemma plus_chr_first q k p pv w s cs r :
  w <> [] -> forallb q w = true ->
  match s with c :: _ => q c = false | [] => True end ->
  k (adv (length w) p pv (w ++ s) cs) = Some r ->
  plus_chr q k p pv (w ++ s) cs = Some r.
Proof.
  intros Hw Hq Hs Hk.
  assert (Lw : 1 <= length w) by (destruct w; [congruence | cbn; lia]).
  destruct (plus_chr q k p pv (w ++ s) cs) as [r0|] eqn:E.
  - apply plus_chr_some in E as (n & H1 & Hn & Hqn & Hkn & Hmax).
    destruct (Nat.lt_trichotomy n (length w)) as [Hlt | [-> | Hgt]].
    + rewrite (Hmax (length w)) in Hk; [discriminate | lia | |].
      * rewrite length_app. lia.
      * rewrite take_app_length. exact Hq.
    + congruence.
    + exfalso. rewrite length_app in Hn.
      destruct s as [|c s]; [cbn in Hn; lia|].
      rewrite take_app_ge in Hqn by lia.
      rewrite forallb_app in Hqn. apply andb_true_iff in Hqn as [_ Hqn].
      destruct (n - length w) as [|j] eqn:Ej; [lia|].
      cbn [take forallb] in Hqn. rewrite Hs in Hqn. discriminate.
  - exfalso. pose proof (plus_chr_none _ _ _ _ _ _ E (length w) Lw) as H.
    rewrite take_app_length in H. rewrite H in Hk; [discriminate | | exact Hq].
    rewrite length_app. lia.
Qed.

(** A lazy run stops at the first length after which the rest of the
    pattern matches. *)
Lemma lazy_chr_first q k n p pv s cs r :
  n <= length s -> forallb q (take n s) = true ->
  (forall n', n' < n -> k (adv n' p pv s cs) = None) ->
  k (adv n p pv s cs) = Some r ->
  lazy_chr q k p pv s cs = Some r.
Proof.
  revert p pv s. induction n as [|n IH]; intros p pv s Hn Hq Hmin Hk.
  - destruct s; cbn [adv] in Hk; cbn [lazy_chr]; rewrite Hk; reflexivity.
  - destruct s as [|c s]; [cbn in Hn; lia|].
    cbn [lazy_chr]. pose proof (Hmin 0 ltac:(lia)) as H0. cbn [adv] in H0.
    rewrite H0. cbn [Re.orelse].
    cbn [take forallb] in Hq. apply andb_true_iff in Hq as [Hc Hq]. rewrite Hc.
    apply (IH (S p) (Some c) s); [cbn in Hn; lia | exact Hq | | exact Hk].
    intros n' Hn'. apply (Hmin (S n')). lia.
Qed.

Lemma presented_tail_some a p pv s cs r :
  presented_tail a (Re.MState p pv s cs) = Some r ->
  exists w t, s = w ++ FS ++ t /\ w <> [] /\ forallb isspace w = true
              /\ Re.caps r = (1, (a, p)) :: cs.
Proof.
  unfold presented_tail. cbn [Re.pos Re.prev Re.rest Re.caps].
  rewrite run_seq. unfold ws_run. rewrite run_plus_chr. intros H.
  apply plus_chr_some in H as (n & H1 & Hn & Hq & Hk & _).
  rewrite (adv_eta n _ _ _ _ Hn), run_lit in Hk.
  destruct (Py.startswith (drop n s) FS) eqn:Hs; [|discriminate].
  apply startswith_app in Hs as [t Ht].
  exists (take n s), t. split; [|split; [|split]].
  - rewrite <- Ht. symmetry. apply take_drop.
  - intros E. apply (f_equal length) in E. rewrite length_take in E.
    cbn in E. lia.
  - exact Hq.
  - rewrite Ht in Hk.
    destruct (adv_app FS (p + n)
                (Re.prev (adv n p pv s ((1, (a, p)) :: cs))) t
                ((1, (a, p)) :: cs)) as [pv' Ha].
    rewrite Ha in Hk. injection Hk as <-. reflexivity.
Qed.

Lemma presented_tail_complete a p pv w t cs :
  w <> [] -> forallb isspace w = true ->
  exists r, presented_tail a (Re.MState p pv (w ++ FS ++ t) cs) = Some r
            /\ Re.caps r = (1, (a, p)) :: cs.
Proof.
  intros Hw Hq.
  destruct (presented_tail a (Re.MState p pv (w ++ FS ++ t) cs)) as [r|] eqn:E.
  - exists r. split; [reflexivity|].
    apply presented_tail_some in E as (_ & _ & _ & _ & _ & E). exact E.
  - exfalso. unfold presented_tail in E.
    cbn [Re.pos Re.prev Re.rest Re.caps] in E.
    rewrite run_seq in E. unfold ws_run in E. rewrite run_plus_chr in E.
    assert (Lw : 1 <= length w) by (destruct w; [congruence | cbn; lia]).
    pose proof (plus_chr_none _ _ _ _ _ _ E (length w) Lw) as H.
    rewrite take_app_length, adv_eta, drop_app_length, run_lit in H
      by (rewrite length_app; lia).
    assert (Hs : Py.startswith (FS ++ t) FS = true)
      by (apply startswith_app; eauto).
    rewrite Hs in H. specialize (H ltac:(rewrite length_app; lia) Hq).
    destruct (adv_app FS (p + length w)
                (Re.prev (adv (length w) p pv (w ++ FS ++ t) ((1, (a, p)) :: cs)))
                t ((1, (a, p)) :: cs)) as [pv' Ha].
    rewrite Ha in H. discriminate H.
Qed.

Lemma run_group i r st k :
  Re.run (Re.Group i r) st k
  = Re.run r st (fun st' =>
      k (Re.MState (Re.pos st') (Re.prev st') (Re.rest st')
                   ((i, (Re.pos st, Re.pos st')) :: Re.caps st'))).
Proof. reflexivity. Qed.

Lemma presented_unfold p pv s :
  Re.run pat_presented (Re.MState p pv s []) Some
  = if Py.startswith s PT then
      plus_chr isspace
        (fun st2 =>
           lazy_chr (fun _ => true) (presented_tail (Re.pos st2))
             (Re.pos st2) (Re.prev st2) (Re.rest st2) (Re.caps st2))
        (Re.pos (adv (length PT) p pv s []))
        (Re.prev (adv (length PT) p pv s []))
        (Re.rest (adv (length PT) p pv s []))
        (Re.caps (adv (length PT) p pv s []))
    else None.
Proof.
  unfold pat_presented. cbn [Re.seq]. rewrite run_seq.
  change (str "presented to") with PT. rewrite run_lit.
  destruct (Py.startswith s PT); [|reflexivity].
  destruct (adv (length PT) p pv s []) as [p1 pv1 s1 cs1].
  cbn [Re.pos Re.prev Re.rest Re.caps].
  rewrite run_seq. unfold ws_run at 1. rewrite run_plus_chr.
  apply plus_chr_ext. intros [p2 pv2 s2 cs2].
  rewrite run_seq, run_group, run_lazy_chr.
  cbn [Re.pos Re.prev Re.rest Re.caps]. unfold presented_tail, FS.
  reflexivity.
Qed.

Lemma lstrip_length s : length (Py.lstrip s) <= length s.
Proof.
  destruct (lstrip_decomp s) as (a & _ & E). rewrite E at 2.
  rewrite length_app. lia.
Qed.

Lemma rstrip_length s : length (Py.rstrip s) <= length s.
Proof.
  destruct (rstrip_decomp s) as (b & _ & E). rewrite E at 2.
  rewrite length_app. lia.
Qed.

Lemma lstrip_fixed s :
  s <> [] -> Py.lstrip s = s -> exists c v, s = c :: v /\ isspace c = false.
Proof.
  destruct s as [|c v]; [congruence|]. intros _. cbn [Py.lstrip].
  destruct (isspace c) eqn:Ec; [|eauto]. intros E.
  pose proof (lstrip_length v) as L. rewrite E in L. cbn in L. lia.
Qed.

Lemma strip_fixed g :
  g <> [] -> Py.strip g = g ->
  (exists c v, g = c :: v /\ isspace c = false)
  /\ (exists d u, g = u ++ [d] /\ isspace d = false).
Proof.
  intros Hg E.
  assert (El : Py.lstrip g = g).
  { destruct (lstrip_decomp g) as (a & _ & Ea).
    pose proof (rstrip_length (Py.lstrip g)) as L1.
    unfold Py.strip in E. rewrite E in L1.
    apply (f_equal length) in Ea. rewrite length_app in Ea.
    assert (length a = 0) by lia. destruct a; [|discriminate].
    destruct (lstrip_decomp g) as (a' & _ & Ea').
    apply (f_equal length) in Ea' as L2. rewrite length_app in L2.
    assert (length a' = 0) by lia. destruct a'; [|discriminate].
    symmetry. exact Ea'. }
  split; [apply lstrip_fixed; assumption|].
  unfold Py.strip in E. rewrite El in E. unfold Py.rstrip in E.
  apply (f_equal (@rev ascii)) in E. rewrite rev_involutive in E.
  apply lstrip_fixed in E as (d & u & Er & Hd).
  - exists d, (rev u). split; [|exact Hd].
    rewrite <- (rev_involutive g), Er. reflexivity.
  - intros Er. apply Hg. rewrite <- (rev_involutive g), Er. reflexivity.
Qed.

(** Before the end of the name, nothing that follows is whitespace and
    then "for successfully". *)
Lemma no_earlier_end a g w2 post p pv cs n' :
  g <> [] -> Py.strip g = g ->
  (forall x y, g ++ w2 ++ FS ++ post = x ++ FS ++ y ->
               length (g ++ w2) <= length x) ->
  n' < length g ->
  presented_tail a (adv n' p pv (g ++ w2 ++ FS ++ post) cs) = None.
Proof.
  intros Hg Hs Hfirst Hn'.
  destruct (presented_tail a _) as [r|] eqn:E; [|reflexivity]. exfalso.
  rewrite adv_eta in E by (rewrite length_app; lia).
  apply presented_tail_some in E as (w & t & Ed & Hw & Hqw & _).
  rewrite drop_app_le in Ed by lia.
  assert (Hlen : length (g ++ w2) <= length (take n' g ++ w)).
  { apply (Hfirst _ t). rewrite <- (take_drop n' g) at 1.
    rewrite <- !app_assoc. f_equal. exact Ed. }
  rewrite !length_app, length_take in Hlen.
  destruct (strip_fixed g Hg Hs) as (_ & d & u & Eg & Hd).
  assert (Hin : d ∈ w).
  { assert (Ew : w = take (length w) (drop n' g ++ w2 ++ FS ++ post)).
    { rewrite Ed. rewrite take_app_length. reflexivity. }
    rewrite Ew. rewrite take_app_ge by (rewrite length_drop; lia).
    apply elem_of_app. left. rewrite Eg.
    assert (Lu : n' <= length u).
    { rewrite Eg, length_app in Hn'. cbn in Hn'. lia. }
    rewrite drop_app_le by exact Lu. apply elem_of_app. right.
    apply list_elem_of_singleton. reflexivity. }
  rewrite forallb_forall in Hqw. apply list_elem_of_In, Hqw in Hin. congruence.
Qed.

Lemma presented_match pre w1 g w2 post pv :
  w1 <> [] -> forallb isspace w1 = true ->
  w2 <> [] -> forallb isspace w2 = true ->
  g <> [] -> Py.strip g = g ->
  (forall x y, g ++ w2 ++ FS ++ post = x ++ FS ++ y ->
               length (g ++ w2) <= length x) ->
  exists m,
    Re.match_at pat_presented (length pre) pv (PT ++ w1 ++ g ++ w2 ++ FS ++ post)
    = Some m
    /\ Re.group (pre ++ PT ++ w1 ++ g ++ w2 ++ FS ++ post) m 1 = g.
Proof.
  intros Hw1 Hq1 Hw2 Hq2 Hg Hs Hfirst.
  unfold Re.match_at. rewrite presented_unfold.
  assert (Hst : Py.startswith (PT ++ w1 ++ g ++ w2 ++ FS ++ post) PT = true)
    by (apply startswith_app; eauto).
  rewrite Hst.
  destruct (adv_app PT (length pre) pv (w1 ++ g ++ w2 ++ FS ++ post) [])
    as [pv1 ->].
  cbn [Re.pos Re.prev Re.rest Re.caps].
  set (a := length pre + length PT + length w1).
  destruct (adv_app w1 (length pre + length PT) pv1 (g ++ w2 ++ FS ++ post) [])
    as [pv2 Ha2].
  destruct (adv_app g a pv2 (w2 ++ FS ++ post) []) as [pv3 Ha3].
  destruct (presented_tail_complete a (a + length g) pv3 w2 post [] Hw2 Hq2)
    as (r & Hr & Hcaps).
  destruct (strip_fixed g Hg Hs) as ((c & v & Eg & Hc) & _).
  rewrite (plus_chr_first isspace _ _ _ w1 (g ++ w2 ++ FS ++ post) [] r Hw1 Hq1).
  - exists (Re.RMatch (length pre) (Re.pos r) (Re.caps r)).
    split; [reflexivity|].
    unfold Re.group. cbn [Re.m_caps]. rewrite Hcaps.
    cbn [Re.lookup_cap Nat.eqb]. unfold Py.slice.
    replace (a + length g - a) with (length g) by lia. unfold a.
    rewrite <- !Nat.add_assoc, <- drop_drop, drop_app_length.
    rewrite <- drop_drop, drop_app_length, drop_app_length.
    apply take_app_length.
  - rewrite Eg. exact Hc.
  - rewrite Ha2. cbn [Re.pos Re.prev Re.rest Re.caps]. fold a.
    apply (lazy_chr_first _ _ (length g)).
    + rewrite length_app. lia.
    + apply forallb_forall. reflexivity.
    + intros n' Hn'. apply no_earlier_end; assumption.
    + rewrite Ha3. exact Hr.
Qed.

End Method4.

(** X22.  When "presented to" occurs in the text for the first time
    before whitespace, a name that neither starts nor ends with
    whitespace, whitespace again and the first "for successfully" after
    the name, method 4 returns that name: the capture is lazy, it ends
    at the nearest "for successfully". *)
Theorem method4_nearest (pre w1 g w2 post : pystr) (name : option pystr) :
  let text := pre ++ PT ++ w1 ++ g ++ w2 ++ FS ++ post in
  (forall x y, text = x ++ PT ++ y -> length pre <= length x) ->
  w1 <> [] -> forallb isspace w1 = true ->
  w2 <> [] -> forallb isspace w2 = true ->
  g <> [] -> Py.strip g = g ->
  (forall x y, g ++ w2 ++ FS ++ post = x ++ FS ++ y ->
               length (g ++ w2) <= length x) ->
  method4 text name = Some g.
Proof.
  intros text Hleft Hw1 Hq1 Hw2 Hq2 Hg Hs Hfirst.
  assert (Hskip : forall a b pv', pre = a ++ b -> b <> [] ->
            Re.match_at pat_presented (0 + length a) pv'
              (b ++ PT ++ w1 ++ g ++ w2 ++ FS ++ post) = None).
  { intros a b pv' Hpre Hb. unfold Re.match_at. rewrite presented_unfold.
    destruct (Py.startswith _ PT) eqn:E; [|reflexivity]. exfalso.
    apply startswith_app in E as [t Et].
    assert (Hlen : length pre <= length a).
    { apply (Hleft a t). unfold text. rewrite Hpre, <- app_assoc, Et.
      reflexivity. }
    rewrite Hpre, length_app in Hlen. destruct b; [congruence|].
    cbn in Hlen. lia. }
  destruct (search_from_skip pat_presented 0 None pre _ Hskip) as [pv' Hsearch].
  destruct (presented_match pre w1 g w2 post pv' Hw1 Hq1 Hw2 Hq2 Hg Hs Hfirst)
    as (m & Hm & Hgrp).
  unfold method4, Re.search. fold text in Hgrp. unfold text at 1.
  rewrite Hsearch. cbn [Nat.add]. rewrite (search_from_hit _ _ _ _ _ Hm).
  rewrite Hgrp, Hs. reflexivity.
Qed.

Lemma method4_nearest_witness :
  method4 (str "is presented to  Juan Cruz for successfully doing it for successfully")
    None = Some (str "Juan Cruz").
Proof.
  refine (method4_nearest (str "is ") (str "  ") (str "Juan Cruz") (str " ")
            (str " doing it for successfully") None _ _ _ _ _ _ _ _);
    try reflexivity; try discriminate.
  - refine (first_occurrence PT (str "is ") _ _). reflexivity.
  - refine (first_occurrence FS (str "Juan Cruz ") _ _). reflexivity.
Defined.

(** X23.  The grouping loop takes a file only when its name is made of
    decimal digits, whitespace, some text without a newline and [.pdf]
    at the very end; the folder is that text stripped, and is never
    "unknown" in any letter case. *)
Theorem folder_of_shape (pdf_file n : pystr) :
  folder_of pdf_file = Some n ->
  exists d w g,
    pdf_file = d ++ w ++ g ++ str ".pdf"
    /\ d <> [] /\ forallb isdecimal d = true
    /\ w <> [] /\ forallb isspace w = true
    /\ n = Py.strip g
    /\ Py.lower n <> str "unknown".
Proof.
  unfold folder_of.
  destruct (Py.endswith (Py.lower pdf_file) (str ".pdf")) eqn:He; [|discriminate].
  destruct (Re.rematch pat_numbered pdf_file) as [m|] eqn:Hm; [|discriminate].
  destruct (Py.eqb _ _) eqn:Hu; [discriminate|]. intros Hn.
  assert (En : n = Py.strip (Re.group pdf_file m 1)) by congruence.
  clear Hn. subst n.
  apply numbered_sound in Hm as (d & w & g & t & E & Hd & Hqd & Hw & Hqw & Ht & Hg).
  exists d, w, g. rewrite Hg in *.
  assert (Et : t = []).
  { destruct Ht as [-> | ->]; [reflexivity|]. exfalso.
    rewrite E in He. unfold Py.endswith, Py.lower in He.
    rewrite !map_app, !rev_app_distr in He. cbn in He. discriminate He. }
  subst t. rewrite app_nil_r in E.
  repeat split; try assumption.
  unfold Py.eqb in Hu. apply bool_decide_eq_false in Hu. exact Hu.
Qed.

Lemma folder_of_shape_witness :
  exists d w g,
    str "12  Cruz, Juan .pdf" = d ++ w ++ g ++ str ".pdf"
    /\ d <> [] /\ forallb isdecimal d = true
    /\ w <> [] /\ forallb isspace w = true
    /\ str "Cruz, Juan" = Py.strip g
    /\ Py.lower (str "Cruz, Juan") <> str "unknown".
Proof.
  apply (folder_of_shape (str "12  Cruz, Juan .pdf") (str "Cruz, Juan")).
  reflexivity.
Defined.
